(** * CCGuidance: the fixed-wing guidance callback of flight/Modules/CCGuidance/ccguidance.c

    A shallow embedding of [ccguidanceTask], [sphereDistance] and
    [sphereCourse], and the properties of the guidance core proved on it.

    Numbers.  A C floating-point value is either [NaN] or a real number
    ([Fin r]).  Every arithmetic operation rounds its exact result to the
    nearest number of its format, ties to even, as IEEE 754 asks: to binary32
    where C computes in [float] ([fadd], [fsub], [fmul], the conversion of an
    [int]), to binary64 where it computes in [double] ([dadd], [dsub], [dmul],
    [ddiv]); a [double] stored into a [float] variable is rounded once more
    ([to_float]).  [float] expressions are evaluated in [float]
    (FLT_EVAL_METHOD 0, as on the ARM target).  Comparisons with [NaN] are
    false.  A constant is the [double] nearest to what is written: [M_PI] is
    not the real number pi, [1e-7] not the real 1/10000000.  Of libm, [sin],
    [cos] and [acos] are taken to return the [double] nearest to the exact
    value.  Left out: overflow and the infinities (the formats have no
    largest number here) and the sign of zero.  The only division on a
    variable feeds [acos], and [acos] of an infinity is [NaN], so a division
    by zero is given the value [NaN].

    Termination.  The callback has two pairs of loops.  A call in which one
    of them does not end never returns; [ccguidanceTask] is a total function
    and gives such a call an outcome all the same, and [returns] says which
    calls return. *)

From Stdlib Require Import Reals ZArith List Bool Lia Lra ClassicalEpsilon.
Import ListNotations.

Local Open Scope Z_scope.

(** ** Floating-point values *)

Inductive cfloat : Type :=
| NaN : cfloat
| Fin (r : R) : cfloat.

Declare Scope cfloat_scope.
Delimit Scope cfloat_scope with cf.
Declare Scope cdouble_scope.
Delimit Scope cdouble_scope with cd.

Definition Rltb (x y : R) : bool := if Rlt_dec x y then true else false.
Definition Rleb (x y : R) : bool := if Rle_dec x y then true else false.
Definition Reqb (x y : R) : bool := if Req_dec_T x y then true else false.

(** *** Rounding

    The numbers of a binary format with [prec] digits and least exponent
    [emin]: binary32 has 24 digits and least exponent -149, binary64 has 53
    and -1074. *)
Definition representable (prec emin : Z) (x : R) : Prop :=
  exists m e : Z, Z.abs m < 2 ^ prec /\ emin <= e /\ x = (IZR m * powerRZ 2 e)%R.

(** The integer nearest to [r]; halfway between two integers, the even one. *)
Definition nearest_even (r : R) : Z :=
  let f := Zfloor r in
  if Rltb (r - IZR f) (1 / 2) then f
  else if Rltb (1 / 2) (r - IZR f) then f + 1
  else if Z.even f then f else f + 1.

(** The binade of [x]: [2 ^ (mag x - 1) <= |x| < 2 ^ mag x] when [x] is not 0
    ([mag_spec]). *)
Definition mag (x : R) : Z := up (ln (Rabs x) / ln 2).

(** Round to nearest, ties to even: [x] is rounded on the grid of step
    [2 ^ e] of its binade, [e] being [mag x - prec] and at least [emin]. *)
Definition round (prec emin : Z) (x : R) : R :=
  let e := Z.max (mag x - prec) emin in
  (IZR (nearest_even (x * powerRZ 2 (- e))) * powerRZ 2 e)%R.

Definition round_f : R -> R := round 24 (-149).
Definition round_d : R -> R := round 53 (-1074).

(** *** Operations *)

Definition lift2 (rnd : R -> R) (f : R -> R -> R) (a b : cfloat) : cfloat :=
  match a, b with
  | Fin x, Fin y => Fin (rnd (f x y))
  | _, _ => NaN
  end.

(** [+], [-], [*] on two [float] operands. *)
Definition fadd : cfloat -> cfloat -> cfloat := lift2 round_f Rplus.
Definition fsub : cfloat -> cfloat -> cfloat := lift2 round_f Rminus.
Definition fmul : cfloat -> cfloat -> cfloat := lift2 round_f Rmult.

(** [+], [-], [*], [/] when an operand is a [double]. *)
Definition dadd : cfloat -> cfloat -> cfloat := lift2 round_d Rplus.
Definition dsub : cfloat -> cfloat -> cfloat := lift2 round_d Rminus.
Definition dmul : cfloat -> cfloat -> cfloat := lift2 round_d Rmult.

Definition ddiv (a b : cfloat) : cfloat :=
  match a, b with
  | Fin x, Fin y => if Reqb y 0 then NaN else Fin (round_d (x / y))
  | _, _ => NaN
  end.

(** A [double] stored into a [float]. *)
Definition to_float (a : cfloat) : cfloat :=
  match a with
  | Fin x => Fin (round_f x)
  | NaN => NaN
  end.

Definition fneg (a : cfloat) : cfloat :=
  match a with
  | Fin x => Fin (- x)
  | NaN => NaN
  end.

(** [a < b], [a > b], [a >= b] of C: false as soon as an operand is NaN. *)
Definition flt (a b : cfloat) : bool :=
  match a, b with
  | Fin x, Fin y => Rltb x y
  | _, _ => false
  end.

Definition fgt (a b : cfloat) : bool := flt b a.

Definition fge (a b : cfloat) : bool :=
  match a, b with
  | Fin x, Fin y => Rleb y x
  | _, _ => false
  end.

Definition isnan (a : cfloat) : bool :=
  match a with
  | NaN => true
  | Fin _ => false
  end.

(** Conversion of an [int] operand to [float], and to [double]. *)
Definition of_int (z : Z) : cfloat := Fin (round_f (IZR z)).
Definition double_of_int (z : Z) : cfloat := Fin (round_d (IZR z)).

(** Conversion of a floating-point value to [int]: the fractional part is
    discarded (C11 6.3.1.4).  The conversion of NaN is not defined by C; it
    is given 0 here, and no caller of this file passes NaN. *)
Definition to_int (a : cfloat) : Z :=
  match a with
  | NaN => 0
  | Fin r => if Rleb 0 r then Int_part r else - Int_part (- r)
  end.

(** The libm functions, on [double], each returning the [double] nearest to
    the exact value: [sin] and [cos] are defined on every real, [acos]
    answers NaN outside [-1, 1]. *)
Definition fsin (a : cfloat) : cfloat :=
  match a with
  | Fin x => Fin (round_d (sin x))
  | NaN => NaN
  end.

Definition fcos (a : cfloat) : cfloat :=
  match a with
  | Fin x => Fin (round_d (cos x))
  | NaN => NaN
  end.

Definition facos (a : cfloat) : cfloat :=
  match a with
  | Fin x => if Rleb (-1) x && Rleb x 1 then Fin (round_d (acos x)) else NaN
  | NaN => NaN
  end.

Infix "+" := fadd : cfloat_scope.
Infix "-" := fsub : cfloat_scope.
Infix "*" := fmul : cfloat_scope.
Notation "- x" := (fneg x) : cfloat_scope.

Infix "+" := dadd : cdouble_scope.
Infix "-" := dsub : cdouble_scope.
Infix "*" := dmul : cdouble_scope.
Infix "/" := ddiv : cdouble_scope.

(** ** Private constants *)

(** [M_PI] of math.h, a [double] constant, and the two macros of the
    module, [(180.0/M_PI)] and [(M_PI/180.0)]. *)
Definition M_PI : cfloat := Fin (round_d PI).
Definition RAD2DEG : cfloat := (Fin 180 / M_PI)%cd.
Definition DEG2RAD : cfloat := (M_PI / Fin 180)%cd.

(** [x * 1e-7] for an [int] [x], a latitude or longitude in units of 1e-7
    degree: a [double] product with the [double] constant [1e-7], stored
    into a [float] by each of its uses. *)
Definition degrees (x : Z) : cfloat :=
  to_float (double_of_int x * Fin (round_d 1e-7))%cd.

(** ** Navigation math *)

(** [sphereDistance]: central angle, in degrees, between two points.  The
    expression is computed in [double], but for [long2 - long1], a [float]
    difference, and stored into the [float] [zeta]. *)
Definition sphereDistance (lat1 long1 lat2 long2 : cfloat) : cfloat :=
  let zeta := to_float (RAD2DEG * facos (
      fsin (DEG2RAD * lat1) * fsin (DEG2RAD * lat2)
      + fcos (DEG2RAD * lat1) * fcos (DEG2RAD * lat2)
        * fcos (DEG2RAD * (long2 - long1)%cf)))%cd in
  let zeta := if isnan zeta then Fin 0 else zeta in
  zeta.

(** The first statement of [sphereCourse]: the angle before the NaN test,
    computed in [double] and stored into the [float] [angle]. *)
Definition sphereCourse_acos (lat1 lat2 zeta : cfloat) : cfloat :=
  to_float (RAD2DEG * facos (
      (fsin (DEG2RAD * lat2) - fsin (DEG2RAD * lat1) * fcos (DEG2RAD * zeta))
      / (fcos (DEG2RAD * lat1) * fsin (DEG2RAD * zeta))))%cd.

(** [diff] of [sphereCourse] after its two wrap-around tests, all in
    [float]. *)
Definition sphereCourse_diff (long1 long2 : cfloat) : cfloat :=
  let diff := (long2 - long1)%cf in
  let diff := if fgt diff (Fin 180) then (diff - Fin 360)%cf else diff in
  let diff := if flt diff (Fin (-180)) then (diff + Fin 360)%cf else diff in
  diff.

Definition sphereCourse (lat1 long1 lat2 long2 zeta : cfloat) : cfloat :=
  let angle := sphereCourse_acos lat1 lat2 zeta in
  let angle := if isnan angle then Fin 0 else angle in
  let diff := sphereCourse_diff long1 long2 in
  if fge diff (Fin 0) then angle else (- angle)%cf.

(** ** The wrap-around loops

    [while (x < -180.) x += 360.;] and [while (x > 180.) x -= 360.;] on a
    [float] variable [x]: the sum is a [double], stored into the [float].
    [while_below n] and [while_above n] are the loops cut after [n]
    iterations. *)

Fixpoint while_below (n : nat) (x : cfloat) : cfloat :=
  match n with
  | O => x
  | S k => if flt x (Fin (-180)) then while_below k (to_float (x + Fin 360)%cd) else x
  end.

Fixpoint while_above (n : nat) (x : cfloat) : cfloat :=
  match n with
  | O => x
  | S k => if fgt x (Fin 180) then while_above k (to_float (x - Fin 360)%cd) else x
  end.

(** The loop has ended within [n] iterations: its test is false. *)
Definition ends_below (x : cfloat) (n : nat) : Prop :=
  flt (while_below n x) (Fin (-180)) = false.

Definition ends_above (x : cfloat) (n : nat) : Prop :=
  fgt (while_above n x) (Fin 180) = false.

(** A number of iterations after which the loop has ended, when there is
    one.  A rounded sum can be the number it started from: then the loop
    never ends ([wrap_above_forever]), the callback does not return, and the
    value given here stands for nothing. *)
Definition turns_below (x : cfloat) : nat := epsilon (inhabits O) (ends_below x).
Definition turns_above (x : cfloat) : nat := epsilon (inhabits O) (ends_above x).

Definition wrap_below (x : cfloat) : cfloat := while_below (turns_below x) x.
Definition wrap_above (x : cfloat) : cfloat := while_above (turns_above x) x.

(** The two loops in sequence, as the code always writes them. *)
Definition wrap180 (x : cfloat) : cfloat := wrap_above (wrap_below x).

(** Both loops end. *)
Definition wrap_ends (x : cfloat) : Prop :=
  (exists n, ends_below x n) /\ (exists n, ends_above (wrap_below x) n).

(** ** UAVObjects read and written by the module

    The object headers (gpsposition.h, flightstatus.h, ccguidancesettings.h,
    systemsettings.h, stabilizationdesired.h, ...) are generated files
    outside this source tree.  The records below hold the fields the module
    touches, typed by their use in ccguidance.c: latitudes and longitudes
    are integers in units of 1e-7 degree (the code scales them by [1e-7]),
    the TRUE/FALSE options are booleans. *)

Inductive GPSPositionStatus :=
| GPSPOSITION_STATUS_NOGPS
| GPSPOSITION_STATUS_NOFIX
| GPSPOSITION_STATUS_FIX2D
| GPSPOSITION_STATUS_FIX3D.

Record GPSPositionData := mkGPSPosition {
  Status : GPSPositionStatus;
  Latitude : Z;
  Longitude : Z;
  Altitude : cfloat;
  GeoidSeparation : cfloat;
  Heading : cfloat;
  Groundspeed : cfloat
}.

Record CCGuidanceSettingsData := mkCCGuidanceSettings {
  UpdatePeriod : Z;
  RadiusBase : cfloat;
  GroundspeedMinimal : cfloat;
  failesaveEnableRTB : bool;
  HomeLocationSet : bool;
  HomeLocationLatitude : Z;
  HomeLocationLongitude : Z;
  HomeLocationAltitude : cfloat;
  ReturnTobaseAltitudeOffset : cfloat;
  Pitch_CLIMB : cfloat;
  Pitch_SINK : cfloat;
  Roll_MAX : cfloat;
  Roll_NEUTRAL : cfloat
}.

Inductive FlightStatusArmed :=
| FLIGHTSTATUS_ARMED_DISARMED
| FLIGHTSTATUS_ARMED_ARMING
| FLIGHTSTATUS_ARMED_ARMED.

Inductive FlightStatusFlightMode :=
| FLIGHTSTATUS_FLIGHTMODE_MANUAL
| FLIGHTSTATUS_FLIGHTMODE_STABILIZED1
| FLIGHTSTATUS_FLIGHTMODE_STABILIZED2
| FLIGHTSTATUS_FLIGHTMODE_STABILIZED3
| FLIGHTSTATUS_FLIGHTMODE_VELOCITYCONTROL
| FLIGHTSTATUS_FLIGHTMODE_POSITIONHOLD
| FLIGHTSTATUS_FLIGHTMODE_RETURNTOBASE.

Record FlightStatusData := mkFlightStatus {
  Armed : FlightStatusArmed;
  FlightMode : FlightStatusFlightMode
}.

(** The result type of the [PARSE_FLIGHT_MODE] macro of manualcontrol.h. *)
Inductive flightmode_path :=
| FLIGHTMODE_UNDEFINED
| FLIGHTMODE_MANUAL
| FLIGHTMODE_STABILIZED
| FLIGHTMODE_GUIDANCE.

Inductive SystemSettingsAirframeType :=
| SYSTEMSETTINGS_AIRFRAMETYPE_FIXEDWING
| SYSTEMSETTINGS_AIRFRAMETYPE_FIXEDWINGELEVON
| SYSTEMSETTINGS_AIRFRAMETYPE_FIXEDWINGVTAIL
| SYSTEMSETTINGS_AIRFRAMETYPE_VTOL
| SYSTEMSETTINGS_AIRFRAMETYPE_HELICP
| SYSTEMSETTINGS_AIRFRAMETYPE_QUADX
| SYSTEMSETTINGS_AIRFRAMETYPE_QUADP
| SYSTEMSETTINGS_AIRFRAMETYPE_HEXA
| SYSTEMSETTINGS_AIRFRAMETYPE_OCTO
| SYSTEMSETTINGS_AIRFRAMETYPE_CUSTOM.

Record SystemSettingsData := mkSystemSettings {
  AirframeType : SystemSettingsAirframeType
}.

Inductive StabilizationMode :=
| STABILIZATIONDESIRED_STABILIZATIONMODE_NONE
| STABILIZATIONDESIRED_STABILIZATIONMODE_RATE
| STABILIZATIONDESIRED_STABILIZATIONMODE_ATTITUDE.

(** [StabilizationMode_ROLL], [_PITCH] and [_YAW] are the three cells of the
    [StabilizationMode] array. *)
Record StabilizationDesiredData := mkStabilizationDesired {
  Roll : cfloat;
  Pitch : cfloat;
  Yaw : cfloat;
  Throttle : cfloat;
  StabilizationMode_ROLL : StabilizationMode;
  StabilizationMode_PITCH : StabilizationMode;
  StabilizationMode_YAW : StabilizationMode
}.

Record ManualControlCommandData := mkManualControlCommand {
  mcc_Throttle : cfloat
}.

Record AttitudeActualData := mkAttitudeActual {
  att_Yaw : cfloat
}.

(** The two alarms the module touches, and the severities of an alarm. *)
Inductive SystemAlarm :=
| SYSTEMALARMS_ALARM_MANUALCONTROL
| SYSTEMALARMS_ALARM_GUIDANCE.

Inductive AlarmSeverity :=
| SYSTEMALARMS_ALARM_OK
| SYSTEMALARMS_ALARM_WARNING
| SYSTEMALARMS_ALARM_ERROR
| SYSTEMALARMS_ALARM_CRITICAL.

Definition GPSPositionStatus_eqb (a b : GPSPositionStatus) : bool :=
  match a, b with
  | GPSPOSITION_STATUS_NOGPS, GPSPOSITION_STATUS_NOGPS
  | GPSPOSITION_STATUS_NOFIX, GPSPOSITION_STATUS_NOFIX
  | GPSPOSITION_STATUS_FIX2D, GPSPOSITION_STATUS_FIX2D
  | GPSPOSITION_STATUS_FIX3D, GPSPOSITION_STATUS_FIX3D => true
  | _, _ => false
  end.

Definition Armed_eqb (a b : FlightStatusArmed) : bool :=
  match a, b with
  | FLIGHTSTATUS_ARMED_DISARMED, FLIGHTSTATUS_ARMED_DISARMED
  | FLIGHTSTATUS_ARMED_ARMING, FLIGHTSTATUS_ARMED_ARMING
  | FLIGHTSTATUS_ARMED_ARMED, FLIGHTSTATUS_ARMED_ARMED => true
  | _, _ => false
  end.

Definition FlightMode_eqb (a b : FlightStatusFlightMode) : bool :=
  match a, b with
  | FLIGHTSTATUS_FLIGHTMODE_MANUAL, FLIGHTSTATUS_FLIGHTMODE_MANUAL
  | FLIGHTSTATUS_FLIGHTMODE_STABILIZED1, FLIGHTSTATUS_FLIGHTMODE_STABILIZED1
  | FLIGHTSTATUS_FLIGHTMODE_STABILIZED2, FLIGHTSTATUS_FLIGHTMODE_STABILIZED2
  | FLIGHTSTATUS_FLIGHTMODE_STABILIZED3, FLIGHTSTATUS_FLIGHTMODE_STABILIZED3
  | FLIGHTSTATUS_FLIGHTMODE_VELOCITYCONTROL, FLIGHTSTATUS_FLIGHTMODE_VELOCITYCONTROL
  | FLIGHTSTATUS_FLIGHTMODE_POSITIONHOLD, FLIGHTSTATUS_FLIGHTMODE_POSITIONHOLD
  | FLIGHTSTATUS_FLIGHTMODE_RETURNTOBASE, FLIGHTSTATUS_FLIGHTMODE_RETURNTOBASE => true
  | _, _ => false
  end.

Definition flightmode_path_eqb (a b : flightmode_path) : bool :=
  match a, b with
  | FLIGHTMODE_UNDEFINED, FLIGHTMODE_UNDEFINED
  | FLIGHTMODE_MANUAL, FLIGHTMODE_MANUAL
  | FLIGHTMODE_STABILIZED, FLIGHTMODE_STABILIZED
  | FLIGHTMODE_GUIDANCE, FLIGHTMODE_GUIDANCE => true
  | _, _ => false
  end.

Definition is_fixed_wing (a : SystemSettingsAirframeType) : bool :=
  match a with
  | SYSTEMSETTINGS_AIRFRAMETYPE_FIXEDWING
  | SYSTEMSETTINGS_AIRFRAMETYPE_FIXEDWINGELEVON
  | SYSTEMSETTINGS_AIRFRAMETYPE_FIXEDWINGVTAIL => true
  | _ => false
  end.

Definition AlarmSeverity_eqb (a b : AlarmSeverity) : bool :=
  match a, b with
  | SYSTEMALARMS_ALARM_OK, SYSTEMALARMS_ALARM_OK
  | SYSTEMALARMS_ALARM_WARNING, SYSTEMALARMS_ALARM_WARNING
  | SYSTEMALARMS_ALARM_ERROR, SYSTEMALARMS_ALARM_ERROR
  | SYSTEMALARMS_ALARM_CRITICAL, SYSTEMALARMS_ALARM_CRITICAL => true
  | _, _ => false
  end.

(** ** The world outside the module

    The object store, the alarm table and the tick counter.  [tickAtInit] is
    what [xTaskGetTickCount] answers on line 125 (asked only while
    [lastUpdateTime] is 0) and [tickNow] what it answers on line 128. *)

Record World := mkWorld {
  ccguidanceSettingsObj : CCGuidanceSettingsData;
  flightStatusObj : FlightStatusData;
  systemSettingsObj : SystemSettingsData;
  gpsPositionObj : GPSPositionData;
  stabilizationDesiredObj : StabilizationDesiredData;
  manualControlCommandObj : ManualControlCommandData;
  attitudeActualObj : AttitudeActualData;
  alarmManualControl : AlarmSeverity;
  alarmGuidance : AlarmSeverity;
  tickAtInit : Z;
  tickNow : Z
}.

(** Every call that writes outside the module, in program order. *)
Inductive Event :=
| EvCCGuidanceSettingsSet (d : CCGuidanceSettingsData)
| EvFlightStatusSet (d : FlightStatusData)
| EvStabilizationDesiredSet (d : StabilizationDesiredData)
| EvAlarmsSet (a : SystemAlarm) (v : AlarmSeverity)
| EvAlarmsClear (a : SystemAlarm).

Definition FlightStatusSet (d : FlightStatusData) (w : World) : World :=
  mkWorld (ccguidanceSettingsObj w) d (systemSettingsObj w) (gpsPositionObj w)
          (stabilizationDesiredObj w) (manualControlCommandObj w) (attitudeActualObj w)
          (alarmManualControl w) (alarmGuidance w) (tickAtInit w) (tickNow w).

Definition StabilizationDesiredSet (d : StabilizationDesiredData) (w : World) : World :=
  mkWorld (ccguidanceSettingsObj w) (flightStatusObj w) (systemSettingsObj w) (gpsPositionObj w)
          d (manualControlCommandObj w) (attitudeActualObj w)
          (alarmManualControl w) (alarmGuidance w) (tickAtInit w) (tickNow w).

(** Modelled from the spec: the alarm library (alarms.c) is not in the source
    tree.  The alarm service sets the named alarm to the given severity. *)
Definition AlarmsSet (a : SystemAlarm) (v : AlarmSeverity) (w : World) : World :=
  match a with
  | SYSTEMALARMS_ALARM_MANUALCONTROL =>
      mkWorld (ccguidanceSettingsObj w) (flightStatusObj w) (systemSettingsObj w) (gpsPositionObj w)
              (stabilizationDesiredObj w) (manualControlCommandObj w) (attitudeActualObj w)
              v (alarmGuidance w) (tickAtInit w) (tickNow w)
  | SYSTEMALARMS_ALARM_GUIDANCE =>
      mkWorld (ccguidanceSettingsObj w) (flightStatusObj w) (systemSettingsObj w) (gpsPositionObj w)
              (stabilizationDesiredObj w) (manualControlCommandObj w) (attitudeActualObj w)
              (alarmManualControl w) v (tickAtInit w) (tickNow w)
  end.

(** Modelled from the spec: clearing an alarm puts it at OK. *)
Definition AlarmsClear (a : SystemAlarm) (w : World) : World := AlarmsSet a SYSTEMALARMS_ALARM_OK w.

Definition AlarmsGet (a : SystemAlarm) (w : World) : AlarmSeverity :=
  match a with
  | SYSTEMALARMS_ALARM_MANUALCONTROL => alarmManualControl w
  | SYSTEMALARMS_ALARM_GUIDANCE => alarmGuidance w
  end.

(** ** The static variables of the module

    [positionHoldLast] and [calculateCourseStep] are file statics, the
    others are the function statics of [ccguidanceTask]; all start at 0. *)

Record Statics := mkStatics {
  positionHoldLast : Z;
  calculateCourseStep : Z;
  lastUpdateTime : Z;
  courseTrue : cfloat;
  courseRelative : cfloat;
  diffHeadingYaw : cfloat;
  positionDesiredNorth : cfloat;
  positionDesiredEast : cfloat;
  positionDesiredDown : cfloat;
  positionActualNorth : cfloat;
  positionActualEast : cfloat;
  DistanceToBase : cfloat;
  StateSaveCurrentPositionToRTB : Z
}.

Definition statics0 : Statics :=
  mkStatics 0 0 0 (Fin 0) (Fin 0) (Fin 0) (Fin 0) (Fin 0) (Fin 0) (Fin 0) (Fin 0) (Fin 0) 0.

(** Assignments to one field of a record. *)

Definition set_positionHoldLast (v : Z) (s : Statics) : Statics :=
  mkStatics v (calculateCourseStep s) (lastUpdateTime s)
    (courseTrue s) (courseRelative s)
    (diffHeadingYaw s) (positionDesiredNorth s) (positionDesiredEast s) (positionDesiredDown s)
    (positionActualNorth s) (positionActualEast s) (DistanceToBase s) (StateSaveCurrentPositionToRTB s).

Definition set_calculateCourseStep (v : Z) (s : Statics) : Statics :=
  mkStatics (positionHoldLast s) v (lastUpdateTime s)
    (courseTrue s) (courseRelative s)
    (diffHeadingYaw s) (positionDesiredNorth s) (positionDesiredEast s) (positionDesiredDown s)
    (positionActualNorth s) (positionActualEast s) (DistanceToBase s) (StateSaveCurrentPositionToRTB s).

Definition set_lastUpdateTime (v : Z) (s : Statics) : Statics :=
  mkStatics (positionHoldLast s) (calculateCourseStep s) v (courseTrue s) (courseRelative s)
    (diffHeadingYaw s) (positionDesiredNorth s) (positionDesiredEast s) (positionDesiredDown s)
    (positionActualNorth s) (positionActualEast s) (DistanceToBase s) (StateSaveCurrentPositionToRTB s).

Definition set_courseTrue (v : cfloat) (s : Statics) : Statics :=
  mkStatics (positionHoldLast s) (calculateCourseStep s) (lastUpdateTime s) v (courseRelative s)
    (diffHeadingYaw s) (positionDesiredNorth s) (positionDesiredEast s) (positionDesiredDown s)
    (positionActualNorth s) (positionActualEast s) (DistanceToBase s) (StateSaveCurrentPositionToRTB s).

Definition set_courseRelative (v : cfloat) (s : Statics) : Statics :=
  mkStatics (positionHoldLast s) (calculateCourseStep s) (lastUpdateTime s) (courseTrue s) v
    (diffHeadingYaw s) (positionDesiredNorth s) (positionDesiredEast s) (positionDesiredDown s)
    (positionActualNorth s) (positionActualEast s) (DistanceToBase s) (StateSaveCurrentPositionToRTB s).

Definition set_diffHeadingYaw (v : cfloat) (s : Statics) : Statics :=
  mkStatics (positionHoldLast s) (calculateCourseStep s) (lastUpdateTime s)
    (courseTrue s) (courseRelative s)
    v (positionDesiredNorth s) (positionDesiredEast s) (positionDesiredDown s)
    (positionActualNorth s) (positionActualEast s) (DistanceToBase s) (StateSaveCurrentPositionToRTB s).

Definition set_positionDesiredNorth (v : cfloat) (s : Statics) : Statics :=
  mkStatics (positionHoldLast s) (calculateCourseStep s) (lastUpdateTime s)
    (courseTrue s) (courseRelative s)
    (diffHeadingYaw s) v (positionDesiredEast s) (positionDesiredDown s)
    (positionActualNorth s) (positionActualEast s) (DistanceToBase s) (StateSaveCurrentPositionToRTB s).

Definition set_positionDesiredEast (v : cfloat) (s : Statics) : Statics :=
  mkStatics (positionHoldLast s) (calculateCourseStep s) (lastUpdateTime s)
    (courseTrue s) (courseRelative s)
    (diffHeadingYaw s) (positionDesiredNorth s) v (positionDesiredDown s)
    (positionActualNorth s) (positionActualEast s) (DistanceToBase s) (StateSaveCurrentPositionToRTB s).

Definition set_positionDesiredDown (v : cfloat) (s : Statics) : Statics :=
  mkStatics (positionHoldLast s) (calculateCourseStep s) (lastUpdateTime s)
    (courseTrue s) (courseRelative s)
    (diffHeadingYaw s) (positionDesiredNorth s) (positionDesiredEast s) v
    (positionActualNorth s) (positionActualEast s) (DistanceToBase s) (StateSaveCurrentPositionToRTB s).

Definition set_positionActualNorth (v : cfloat) (s : Statics) : Statics :=
  mkStatics (positionHoldLast s) (calculateCourseStep s) (lastUpdateTime s)
    (courseTrue s) (courseRelative s)
    (diffHeadingYaw s) (positionDesiredNorth s) (positionDesiredEast s) (positionDesiredDown s)
    v (positionActualEast s) (DistanceToBase s) (StateSaveCurrentPositionToRTB s).

Definition set_positionActualEast (v : cfloat) (s : Statics) : Statics :=
  mkStatics (positionHoldLast s) (calculateCourseStep s) (lastUpdateTime s)
    (courseTrue s) (courseRelative s)
    (diffHeadingYaw s) (positionDesiredNorth s) (positionDesiredEast s) (positionDesiredDown s)
    (positionActualNorth s) v (DistanceToBase s) (StateSaveCurrentPositionToRTB s).

Definition set_DistanceToBase (v : cfloat) (s : Statics) : Statics :=
  mkStatics (positionHoldLast s) (calculateCourseStep s) (lastUpdateTime s)
    (courseTrue s) (courseRelative s)
    (diffHeadingYaw s) (positionDesiredNorth s) (positionDesiredEast s) (positionDesiredDown s)
    (positionActualNorth s) (positionActualEast s) v (StateSaveCurrentPositionToRTB s).

Definition set_StateSaveCurrentPositionToRTB (v : Z) (s : Statics) : Statics :=
  mkStatics (positionHoldLast s) (calculateCourseStep s) (lastUpdateTime s)
    (courseTrue s) (courseRelative s)
    (diffHeadingYaw s) (positionDesiredNorth s) (positionDesiredEast s) (positionDesiredDown s)
    (positionActualNorth s) (positionActualEast s) (DistanceToBase s) v.

Definition set_FlightMode (v : FlightStatusFlightMode) (d : FlightStatusData) : FlightStatusData :=
  mkFlightStatus (Armed d) v.

Definition set_HomeLocation (lat lon : Z) (alt : cfloat) (set : bool) (d : CCGuidanceSettingsData)
  : CCGuidanceSettingsData :=
  mkCCGuidanceSettings (UpdatePeriod d) (RadiusBase d) (GroundspeedMinimal d) (failesaveEnableRTB d)
    set lat lon alt (ReturnTobaseAltitudeOffset d)
    (Pitch_CLIMB d) (Pitch_SINK d) (Roll_MAX d) (Roll_NEUTRAL d).

Definition set_Roll (v : cfloat) (d : StabilizationDesiredData) : StabilizationDesiredData :=
  mkStabilizationDesired v (Pitch d) (Yaw d) (Throttle d)
    (StabilizationMode_ROLL d) (StabilizationMode_PITCH d) (StabilizationMode_YAW d).

Definition set_Pitch (v : cfloat) (d : StabilizationDesiredData) : StabilizationDesiredData :=
  mkStabilizationDesired (Roll d) v (Yaw d) (Throttle d)
    (StabilizationMode_ROLL d) (StabilizationMode_PITCH d) (StabilizationMode_YAW d).

Definition set_Yaw (v : cfloat) (d : StabilizationDesiredData) : StabilizationDesiredData :=
  mkStabilizationDesired (Roll d) (Pitch d) v (Throttle d)
    (StabilizationMode_ROLL d) (StabilizationMode_PITCH d) (StabilizationMode_YAW d).

Definition set_Throttle (v : cfloat) (d : StabilizationDesiredData) : StabilizationDesiredData :=
  mkStabilizationDesired (Roll d) (Pitch d) (Yaw d) v
    (StabilizationMode_ROLL d) (StabilizationMode_PITCH d) (StabilizationMode_YAW d).

Definition set_StabilizationMode_ROLL (v : StabilizationMode) (d : StabilizationDesiredData) :=
  mkStabilizationDesired (Roll d) (Pitch d) (Yaw d) (Throttle d)
    v (StabilizationMode_PITCH d) (StabilizationMode_YAW d).

Definition set_StabilizationMode_PITCH (v : StabilizationMode) (d : StabilizationDesiredData) :=
  mkStabilizationDesired (Roll d) (Pitch d) (Yaw d) (Throttle d)
    (StabilizationMode_ROLL d) v (StabilizationMode_YAW d).

Definition set_StabilizationMode_YAW (v : StabilizationMode) (d : StabilizationDesiredData) :=
  mkStabilizationDesired (Roll d) (Pitch d) (Yaw d) (Throttle d)
    (StabilizationMode_ROLL d) (StabilizationMode_PITCH d) v.

(** [x++] on a [uint8_t]. *)
Definition incr_uint8 (x : Z) : Z := (x + 1) mod 256.

(** [a - b] on [portTickType], an unsigned 32-bit counter on this target. *)
Definition tick_sub (a b : Z) : Z := (a - b) mod 2 ^ 32.

(** What one call of [ccguidanceTask] leaves behind: the statics, the
    world, the writes it made, and the value its local variable
    [ccguidanceSettings] holds when the function returns (the function reads
    it with [CCGuidanceSettingsGet] and has no [CCGuidanceSettingsSet]). *)
Record Outcome := mkOutcome {
  out_statics : Statics;
  out_world : World;
  out_events : list Event;
  out_ccguidanceSettings : CCGuidanceSettingsData
}.

Section Task.

(** [PARSE_FLIGHT_MODE] (manualcontrol.h) and [portTICK_RATE_MS] (FreeRTOS
    port) are macros defined outside this source tree. *)
Variable PARSE_FLIGHT_MODE : FlightStatusFlightMode -> flightmode_path.
Variable portTICK_RATE_MS : Z.

(** Line 129: not enough time since the last update. *)
Definition rate_gate_closed (st : Statics) (w : World) : bool :=
  let st := if lastUpdateTime st =? 0 then set_lastUpdateTime (tickAtInit w) st else st in
  tick_sub (tickNow w) (lastUpdateTime st)
    <? UpdatePeriod (ccguidanceSettingsObj w) ÷ portTICK_RATE_MS.

(** Lines 140-141: the failsafe condition. *)
Definition failsafe_active (w : World) : bool :=
  negb (AlarmSeverity_eqb (AlarmsGet SYSTEMALARMS_ALARM_MANUALCONTROL w) SYSTEMALARMS_ALARM_OK)
  && Bool.eqb (failesaveEnableRTB (ccguidanceSettingsObj w)) true.

(** Lines 146-149: the guard of the guidance branch. *)
Definition guard (flightStatus : FlightStatusData) (systemSettings : SystemSettingsData) : bool :=
  flightmode_path_eqb (PARSE_FLIGHT_MODE (FlightMode flightStatus)) FLIGHTMODE_GUIDANCE
  && is_fixed_wing (AirframeType systemSettings).

(** Lines 154-168: the target of the guidance. *)
Definition selectTarget (flightStatus : FlightStatusData) (ccguidanceSettings : CCGuidanceSettingsData)
    (positionActual : GPSPositionData) (st : Statics) : Statics :=
  if negb (positionHoldLast st =? 1)
     && (FlightMode_eqb (FlightMode flightStatus) FLIGHTSTATUS_FLIGHTMODE_POSITIONHOLD
         || (FlightMode_eqb (FlightMode flightStatus) FLIGHTSTATUS_FLIGHTMODE_RETURNTOBASE
             && Bool.eqb (HomeLocationSet ccguidanceSettings) false))
  then
    let st := set_positionDesiredNorth (degrees (Latitude positionActual)) st in
    let st := set_positionDesiredEast (degrees (Longitude positionActual)) st in
    let st := set_positionDesiredDown
                (Altitude positionActual + GeoidSeparation positionActual + Fin 1)%cf st in
    set_positionHoldLast 1 st
  else if negb (positionHoldLast st =? 2)
          && (FlightMode_eqb (FlightMode flightStatus) FLIGHTSTATUS_FLIGHTMODE_RETURNTOBASE
              && Bool.eqb (HomeLocationSet ccguidanceSettings) true)
  then
    let st := set_positionDesiredNorth (degrees (HomeLocationLatitude ccguidanceSettings)) st in
    let st := set_positionDesiredEast (degrees (HomeLocationLongitude ccguidanceSettings)) st in
    let st := set_positionDesiredDown
                (HomeLocationAltitude ccguidanceSettings
                 + ReturnTobaseAltitudeOffset ccguidanceSettings)%cf st in
    set_positionHoldLast 2 st
  else st.

(** Lines 270-274 and 282: throttle, publication, reset of the step. *)
Definition publish (st : Statics) (w : World) (ev : list Event)
    (ccguidanceSettings : CCGuidanceSettingsData) (stabDesired : StabilizationDesiredData) : Outcome :=
  let manualControl := manualControlCommandObj w in
  let stabDesired := set_Throttle (mcc_Throttle manualControl) stabDesired in
  let w := StabilizationDesiredSet stabDesired w in
  let st := set_calculateCourseStep 0 st in
  mkOutcome st w (ev ++ [EvStabilizationDesiredSet stabDesired]) ccguidanceSettings.

(** Lines 239-260: heading, altitude, roll, alarm, after the switch.  On line
    240 the [float] product is converted to [int] for [abs], and the [int] to
    [float] for the comparison with [RadiusBase] (taken as a [float] field);
    lines 241 and 251 are [float] sums. *)
Definition setpoint3D (st : Statics) (w : World) (ev : list Event)
    (ccguidanceSettings : CCGuidanceSettingsData) (positionActual : GPSPositionData)
    (stabDesired : StabilizationDesiredData) : Outcome :=
  let st :=
    if fgt (of_int (Z.abs (to_int (DistanceToBase st * Fin 111111)%cf)))
           (RadiusBase ccguidanceSettings)
    then set_courseRelative (wrap180 (courseTrue st + diffHeadingYaw st)%cf) st
    else st in
  let stabDesired := set_Yaw (courseRelative st) stabDesired in
  let stabDesired :=
    if flt (Altitude positionActual + GeoidSeparation positionActual)%cf (positionDesiredDown st)
    then set_Pitch (Pitch_CLIMB ccguidanceSettings) stabDesired
    else set_Pitch (Pitch_SINK ccguidanceSettings) stabDesired in
  let stabDesired := set_Roll (Roll_NEUTRAL ccguidanceSettings) stabDesired in
  let stabDesired :=
    set_StabilizationMode_YAW STABILIZATIONDESIRED_STABILIZATIONMODE_ATTITUDE stabDesired in
  let w := AlarmsClear SYSTEMALARMS_ALARM_GUIDANCE w in
  publish st w (ev ++ [EvAlarmsClear SYSTEMALARMS_ALARM_GUIDANCE]) ccguidanceSettings stabDesired.

(** Lines 262-267: no position data. *)
Definition fallback (st : Statics) (w : World) (ev : list Event)
    (ccguidanceSettings : CCGuidanceSettingsData)
    (stabDesired : StabilizationDesiredData) : Outcome :=
  let stabDesired := set_Yaw (Fin 0) stabDesired in
  let stabDesired := set_Pitch (Pitch_CLIMB ccguidanceSettings) stabDesired in
  let stabDesired := set_Roll (Roll_MAX ccguidanceSettings) stabDesired in
  let stabDesired :=
    set_StabilizationMode_YAW STABILIZATIONDESIRED_STABILIZATIONMODE_RATE stabDesired in
  let w := AlarmsSet SYSTEMALARMS_ALARM_GUIDANCE SYSTEMALARMS_ALARM_WARNING w in
  publish st w (ev ++ [EvAlarmsSet SYSTEMALARMS_ALARM_GUIDANCE SYSTEMALARMS_ALARM_WARNING])
    ccguidanceSettings stabDesired.

(** Lines 150-275: the guidance branch. *)
Definition guidance (st : Statics) (w : World) (ev : list Event)
    (ccguidanceSettings : CCGuidanceSettingsData) (flightStatus : FlightStatusData) : Outcome :=
  let positionActual := gpsPositionObj w in
  let st := selectTarget flightStatus ccguidanceSettings positionActual st in
  let stabDesired := stabilizationDesiredObj w in
  let stabDesired :=
    set_StabilizationMode_ROLL STABILIZATIONDESIRED_STABILIZATIONMODE_ATTITUDE stabDesired in
  let stabDesired :=
    set_StabilizationMode_PITCH STABILIZATIONDESIRED_STABILIZATIONMODE_ATTITUDE stabDesired in
  if GPSPositionStatus_eqb (Status positionActual) GPSPOSITION_STATUS_FIX3D then
    match calculateCourseStep st with
    | 0 =>
        let st := set_positionActualNorth (degrees (Latitude positionActual)) st in
        let st := set_positionActualEast (degrees (Longitude positionActual)) st in
        let latch := Armed_eqb (Armed flightStatus) FLIGHTSTATUS_ARMED_DISARMED
                     && (StateSaveCurrentPositionToRTB st =? 0) in
        let ccguidanceSettings :=
          if latch
          then set_HomeLocation (Latitude positionActual) (Longitude positionActual)
                 (Altitude positionActual) true ccguidanceSettings
          else ccguidanceSettings in
        let st := if latch then set_StateSaveCurrentPositionToRTB 1 st else st in
        let st := set_calculateCourseStep (incr_uint8 (calculateCourseStep st)) st in
        mkOutcome st w ev ccguidanceSettings
    | 1 =>
        let st := set_DistanceToBase
                    (sphereDistance (positionActualNorth st) (positionActualEast st)
                       (positionDesiredNorth st) (positionDesiredEast st)) st in
        let st :=
          if fgt (Groundspeed positionActual) (GroundspeedMinimal ccguidanceSettings)
          then
            let attitudeActual := attitudeActualObj w in
            set_diffHeadingYaw
              (wrap180 (att_Yaw attitudeActual - Heading positionActual)%cf) st
          else st in
        let st := set_calculateCourseStep (incr_uint8 (calculateCourseStep st)) st in
        mkOutcome st w ev ccguidanceSettings
    | 2 =>
        let st := set_courseTrue
                    (sphereCourse (positionActualNorth st) (positionActualEast st)
                       (positionDesiredNorth st) (positionDesiredEast st)
                       (DistanceToBase st)) st in
        setpoint3D st w ev ccguidanceSettings positionActual stabDesired
    | _ =>
        setpoint3D st w ev ccguidanceSettings positionActual stabDesired
    end
  else
    fallback st w ev ccguidanceSettings stabDesired.

(** The module callback. *)
Definition ccguidanceTask (st : Statics) (w : World) : Outcome :=
  let ccguidanceSettings := ccguidanceSettingsObj w in
  let st := if lastUpdateTime st =? 0 then set_lastUpdateTime (tickAtInit w) st else st in
  let thisTime := tickNow w in
  if tick_sub thisTime (lastUpdateTime st)
       <? UpdatePeriod ccguidanceSettings ÷ portTICK_RATE_MS
  then mkOutcome st w [] ccguidanceSettings
  else
    let st := set_lastUpdateTime thisTime st in
    let flightStatus := flightStatusObj w in
    let systemSettings := systemSettingsObj w in
    let failsafe :=
      negb (AlarmSeverity_eqb (AlarmsGet SYSTEMALARMS_ALARM_MANUALCONTROL w) SYSTEMALARMS_ALARM_OK)
      && Bool.eqb (failesaveEnableRTB ccguidanceSettings) true in
    let flightStatus :=
      if failsafe then set_FlightMode FLIGHTSTATUS_FLIGHTMODE_RETURNTOBASE flightStatus else flightStatus in
    let ev := if failsafe then [EvFlightStatusSet flightStatus] else [] in
    let w := if failsafe then FlightStatusSet flightStatus w else w in
    if guard flightStatus systemSettings
    then guidance st w ev ccguidanceSettings flightStatus
    else
      let st := set_positionHoldLast 0 st in
      let w := AlarmsClear SYSTEMALARMS_ALARM_GUIDANCE w in
      let st := set_calculateCourseStep 0 st in
      mkOutcome st w (ev ++ [EvAlarmsClear SYSTEMALARMS_ALARM_GUIDANCE]) ccguidanceSettings.

(** The flight status the guard looks at: the stored one, with the mode
    replaced when the failsafe is active (lines 140-144). *)
Definition effectiveFlightStatus (w : World) : FlightStatusData :=
  if failsafe_active w
  then set_FlightMode FLIGHTSTATUS_FLIGHTMODE_RETURNTOBASE (flightStatusObj w)
  else flightStatusObj w.

(** Successive calls.  Between two calls the other modules change the
    world as they like, so each call comes with the world it finds. *)
Fixpoint run (st : Statics) (ws : list World) : Statics :=
  match ws with
  | [] => st
  | w :: ws' => run (out_statics (ccguidanceTask st w)) ws'
  end.

(** *** Vocabulary of the properties *)

Definition fix3D (w : World) : bool :=
  GPSPositionStatus_eqb (Status (gpsPositionObj w)) GPSPOSITION_STATUS_FIX3D.

(** A processing cycle: the rate gate is open, the guard passes and the
    fix is 3D, so the switch on [calculateCourseStep] is reached. *)
Definition processing (st : Statics) (w : World) : bool :=
  negb (rate_gate_closed st w)
  && guard (effectiveFlightStatus w) (systemSettingsObj w)
  && fix3D w.

(** The test of line 187 in a processing cycle at step 0. *)
Definition latch_cond (st : Statics) (w : World) : bool :=
  processing st w
  && (calculateCourseStep st =? 0)
  && Armed_eqb (Armed (effectiveFlightStatus w)) FLIGHTSTATUS_ARMED_DISARMED
  && (StateSaveCurrentPositionToRTB st =? 0).

(** The mode tests of lines 154-155 and of line 162. *)
Definition holdRequested (flightStatus : FlightStatusData)
    (ccguidanceSettings : CCGuidanceSettingsData) : bool :=
  FlightMode_eqb (FlightMode flightStatus) FLIGHTSTATUS_FLIGHTMODE_POSITIONHOLD
  || (FlightMode_eqb (FlightMode flightStatus) FLIGHTSTATUS_FLIGHTMODE_RETURNTOBASE
      && Bool.eqb (HomeLocationSet ccguidanceSettings) false).

Definition homeRequested (flightStatus : FlightStatusData)
    (ccguidanceSettings : CCGuidanceSettingsData) : bool :=
  FlightMode_eqb (FlightMode flightStatus) FLIGHTSTATUS_FLIGHTMODE_RETURNTOBASE
  && Bool.eqb (HomeLocationSet ccguidanceSettings) true.

(** The desired target held in the statics, and the target lines 158-160
    make of a fix. *)
Definition desiredTarget (st : Statics) : cfloat * cfloat * cfloat :=
  (positionDesiredNorth st, positionDesiredEast st, positionDesiredDown st).

Definition targetOfFix (positionActual : GPSPositionData) : cfloat * cfloat * cfloat :=
  (degrees (Latitude positionActual),
   degrees (Longitude positionActual),
   (Altitude positionActual + GeoidSeparation positionActual + Fin 1)%cf).

(** The statics and the world after lines 134 and 140-144. *)
Definition stamp (st : Statics) (w : World) : Statics := set_lastUpdateTime (tickNow w) st.

Definition failsafeWorld (w : World) : World :=
  if failsafe_active w then FlightStatusSet (effectiveFlightStatus w) w else w.

Definition failsafeEvents (w : World) : list Event :=
  if failsafe_active w then [EvFlightStatusSet (effectiveFlightStatus w)] else [].

(** The statics when the switch of line 180 is reached. *)
Definition atSwitch (st : Statics) (w : World) : Statics :=
  selectTarget (effectiveFlightStatus w) (ccguidanceSettingsObj w) (gpsPositionObj w) (stamp st w).

(** The integer statics, and what one call makes of them ([control_sim]
    below shows that this is what [ccguidanceTask] does to them). *)
Record Control := mkControl {
  c_positionHoldLast : Z;
  c_calculateCourseStep : Z;
  c_lastUpdateTime : Z;
  c_StateSave : Z
}.

Definition control (st : Statics) : Control :=
  mkControl (positionHoldLast st) (calculateCourseStep st) (lastUpdateTime st)
            (StateSaveCurrentPositionToRTB st).

Definition control_step (c : Control) (w : World) : Control :=
  let last := if c_lastUpdateTime c =? 0 then tickAtInit w else c_lastUpdateTime c in
  if tick_sub (tickNow w) last <? UpdatePeriod (ccguidanceSettingsObj w) ÷ portTICK_RATE_MS
  then mkControl (c_positionHoldLast c) (c_calculateCourseStep c) last (c_StateSave c)
  else
    let flightStatus := effectiveFlightStatus w in
    if guard flightStatus (systemSettingsObj w) then
      let hold :=
        if negb (c_positionHoldLast c =? 1) && holdRequested flightStatus (ccguidanceSettingsObj w)
        then 1
        else if negb (c_positionHoldLast c =? 2) && homeRequested flightStatus (ccguidanceSettingsObj w)
        then 2
        else c_positionHoldLast c in
      if fix3D w then
        match c_calculateCourseStep c with
        | 0 =>
            mkControl hold 1 (tickNow w)
              (if Armed_eqb (Armed flightStatus) FLIGHTSTATUS_ARMED_DISARMED && (c_StateSave c =? 0)
               then 1 else c_StateSave c)
        | 1 => mkControl hold 2 (tickNow w) (c_StateSave c)
        | _ => mkControl hold 0 (tickNow w) (c_StateSave c)
        end
      else mkControl hold 0 (tickNow w) (c_StateSave c)
    else mkControl 0 0 (tickNow w) (c_StateSave c).

Fixpoint control_run (c : Control) (ws : list World) : Control :=
  match ws with
  | [] => c
  | w :: ws' => control_run (control_step c w) ws'
  end.

(** For each call of a run, whether it latches the home location. *)
Fixpoint latches (st : Statics) (ws : list World) : list bool :=
  match ws with
  | [] => []
  | w :: ws' => latch_cond st w :: latches (out_statics (ccguidanceTask st w)) ws'
  end.

(** A run that stays in position hold: every call either finds the rate
    gate closed or passes the guard with the hold still requested. *)
Fixpoint stays_in_hold (st : Statics) (ws : list World) : Prop :=
  match ws with
  | [] => True
  | w :: ws' =>
      (rate_gate_closed st w = true
       \/ (guard (effectiveFlightStatus w) (systemSettingsObj w) = true
           /\ holdRequested (effectiveFlightStatus w) (ccguidanceSettingsObj w) = true))
      /\ stays_in_hold (out_statics (ccguidanceTask st w)) ws'
  end.

End Task.

(** ** Reference inputs *)

(** Modelled from the spec: manualcontrol.h, which defines [PARSE_FLIGHT_MODE],
    is outside the source tree.  Position hold and return to base are the
    modes of the guidance branch (spec 4.2 and 4.4); manual and the
    stabilized modes are outside it.  Velocity control, the remaining mode,
    is put on the guidance path: inside the guard lines 154-168 still test
    for position hold and return to base, so the guard lets another mode
    through.  Only the example of a hold kept across velocity control depends
    on it. *)
Definition PARSE_FLIGHT_MODE_ref (x : FlightStatusFlightMode) : flightmode_path :=
  match x with
  | FLIGHTSTATUS_FLIGHTMODE_MANUAL => FLIGHTMODE_MANUAL
  | FLIGHTSTATUS_FLIGHTMODE_STABILIZED1
  | FLIGHTSTATUS_FLIGHTMODE_STABILIZED2
  | FLIGHTSTATUS_FLIGHTMODE_STABILIZED3 => FLIGHTMODE_STABILIZED
  | FLIGHTSTATUS_FLIGHTMODE_VELOCITYCONTROL
  | FLIGHTSTATUS_FLIGHTMODE_POSITIONHOLD
  | FLIGHTSTATUS_FLIGHTMODE_RETURNTOBASE => FLIGHTMODE_GUIDANCE
  end.

(** A tick of one millisecond. *)
Definition portTICK_RATE_MS_ref : Z := 1.

(** Update period 100 ms, base radius 20 m, minimal ground speed 1 m/s,
    failsafe enabled, no home location, return altitude offset 50 m,
    pitch 10 (climb) and -10 (sink), roll 30 (max) and 0 (neutral). *)
Definition settings_ref : CCGuidanceSettingsData :=
  mkCCGuidanceSettings 100 (Fin 20) (Fin 1) true false 0 0 (Fin 0) (Fin 50)
    (Fin 10) (Fin (-10)) (Fin 30) (Fin 0).

(** A 3D fix at 48 N, 11 E, 500 m, heading 90, 15 m/s. *)
Definition gps_ref : GPSPositionData :=
  mkGPSPosition GPSPOSITION_STATUS_FIX3D 480000000 110000000 (Fin 500) (Fin 45) (Fin 90) (Fin 15).

Definition gps_nofix : GPSPositionData :=
  mkGPSPosition GPSPOSITION_STATUS_NOFIX 0 0 (Fin 0) (Fin 0) (Fin 0) (Fin 0).

(** A fix on the equator at longitude 0 and altitude 0. *)
Definition gps_origin : GPSPositionData :=
  mkGPSPosition GPSPOSITION_STATUS_FIX3D 0 0 (Fin 0) (Fin 0) (Fin 0) (Fin 0).

Definition stab_ref : StabilizationDesiredData :=
  mkStabilizationDesired (Fin 0) (Fin 0) (Fin 0) (Fin 0)
    STABILIZATIONDESIRED_STABILIZATIONMODE_NONE
    STABILIZATIONDESIRED_STABILIZATIONMODE_NONE
    STABILIZATIONDESIRED_STABILIZATIONMODE_NONE.

(** The world at tick [t] with the given arming state, flight mode, fix
    and manual-control alarm; a fixed-wing airframe. *)
Definition world_ref (armed : FlightStatusArmed) (mode : FlightStatusFlightMode)
    (gps : GPSPositionData) (manualAlarm : AlarmSeverity) (t : Z) : World :=
  mkWorld settings_ref (mkFlightStatus armed mode) (mkSystemSettings SYSTEMSETTINGS_AIRFRAMETYPE_FIXEDWING)
    gps stab_ref (mkManualControlCommand (Fin 0.5)) (mkAttitudeActual (Fin 80))
    manualAlarm SYSTEMALARMS_ALARM_ERROR t t.

(** The statics after a first call at tick 1000, which finds the rate gate
    closed and only records the time. *)
Definition statics_ref : Statics := set_lastUpdateTime 1000 statics0.

(** Statics in the middle of a hold on the point (0, 0, 0), taken at tick
    1000: the given step and distance, [courseRelative] 33 from an earlier
    round, the snapshot at (0, 0), the home flag set. *)
Definition statics_at (step : Z) (distance : cfloat) : Statics :=
  mkStatics 1 step 1000 (Fin 0) (Fin 33) (Fin 0) (Fin 0) (Fin 0) (Fin 0) (Fin 0) (Fin 0)
    distance 1.

(** A fix at the origin at an altitude of 91 m, with the geoid separation
    12346982 * 2 ^ -18, the [float] nearest to 47.1. *)
Definition gps_alt : GPSPositionData :=
  mkGPSPosition GPSPOSITION_STATUS_FIX3D 0 0 (Fin 91) (Fin (12346982 / 262144)) (Fin 0) (Fin 0).

(** [statics_at] with a distance of 0 and the target altitude [down]. *)
Definition statics_down (step : Z) (down : cfloat) : Statics :=
  mkStatics 1 step 1000 (Fin 0) (Fin 33) (Fin 0) (Fin 0) (Fin 0) down (Fin 0) (Fin 0)
    (Fin 0) 1.

(** Statics with the given integer part and every number at 0. *)
Definition of_control (c : Control) : Statics :=
  mkStatics (c_positionHoldLast c) (c_calculateCourseStep c) (c_lastUpdateTime c)
    (Fin 0) (Fin 0) (Fin 0) (Fin 0) (Fin 0) (Fin 0) (Fin 0) (Fin 0) (Fin 0) (c_StateSave c).

(** The reference settings with a home location at 48.1 N, 11.1 E, 520 m. *)
Definition settings_home : CCGuidanceSettingsData :=
  set_HomeLocation 481000000 111000000 (Fin 520) true settings_ref.

(** [world_ref] with these settings. *)
Definition world_home (armed : FlightStatusArmed) (mode : FlightStatusFlightMode)
    (gps : GPSPositionData) (manualAlarm : AlarmSeverity) (t : Z) : World :=
  mkWorld settings_home (mkFlightStatus armed mode)
    (mkSystemSettings SYSTEMSETTINGS_AIRFRAMETYPE_FIXEDWING)
    gps stab_ref (mkManualControlCommand (Fin 0.5)) (mkAttitudeActual (Fin 80))
    manualAlarm SYSTEMALARMS_ALARM_ERROR t t.

(** ** Start-up *)

(** [CCGuidanceStart] raises the guidance alarm to Error and answers 0. *)
Definition CCGuidanceStart (w : World) : World * list Event * Z :=
  (AlarmsSet SYSTEMALARMS_ALARM_GUIDANCE SYSTEMALARMS_ALARM_ERROR w,
   [EvAlarmsSet SYSTEMALARMS_ALARM_GUIDANCE SYSTEMALARMS_ALARM_ERROR],
   0).

(** ** Vocabulary of the further properties *)

(** A number (not NaN) between two bounds. *)
Definition within (lo hi : R) (x : cfloat) : Prop :=
  exists r, x = Fin r /\ (lo <= r <= hi)%R.

(** The setpoints a call publishes, in order. *)
Fixpoint setpoints (ev : list Event) : list StabilizationDesiredData :=
  match ev with
  | [] => []
  | EvStabilizationDesiredSet d :: ev' => d :: setpoints ev'
  | _ :: ev' => setpoints ev'
  end.

(** The calls that reach [StabilizationDesiredSet] (line 274): the rate gate
    is open, the guard passes, and either the fix is not 3D or the switch does
    not return (the step is neither 0 nor 1). *)
Definition publishes (PARSE_FLIGHT_MODE : FlightStatusFlightMode -> flightmode_path)
    (portTICK_RATE_MS : Z) (st : Statics) (w : World) : bool :=
  negb (rate_gate_closed portTICK_RATE_MS st w)
  && guard PARSE_FLIGHT_MODE (effectiveFlightStatus w) (systemSettingsObj w)
  && (negb (fix3D w)
      || (negb (calculateCourseStep st =? 0) && negb (calculateCourseStep st =? 1))).

(** The target lines 164-166 make of the stored home location. *)
Definition targetOfHome (ccguidanceSettings : CCGuidanceSettingsData) : cfloat * cfloat * cfloat :=
  (degrees (HomeLocationLatitude ccguidanceSettings),
   degrees (HomeLocationLongitude ccguidanceSettings),
   (HomeLocationAltitude ccguidanceSettings + ReturnTobaseAltitudeOffset ccguidanceSettings)%cf).

(** The statics with which lines 239-274 are entered after the switch:
    case 2 has stored the true course, any other value has no case. *)
Definition beforeSetpoint (st : Statics) (w : World) : Statics :=
  if calculateCourseStep st =? 2
  then set_courseTrue
         (sphereCourse (positionActualNorth st) (positionActualEast st)
            (positionDesiredNorth (atSwitch st w)) (positionDesiredEast (atSwitch st w))
            (DistanceToBase st)) (atSwitch st w)
  else atSwitch st w.

(** The numbers kept between calls stay in their ranges. *)
Definition numeric_inv (st : Statics) : Prop :=
  within 0 180 (DistanceToBase st) /\ within (-180) 180 (courseTrue st).




(** * Properties *)

(** ** Comparisons on the reals *)

Lemma Rltb_true (x y : R) : Rltb x y = true <-> (x < y)%R.
Proof. unfold Rltb; destruct (Rlt_dec x y); split; intros; try easy; lra. Qed.

Lemma Rltb_false (x y : R) : Rltb x y = false <-> (y <= x)%R.
Proof. unfold Rltb; destruct (Rlt_dec x y); split; intros; try easy; lra. Qed.

Lemma Rleb_true (x y : R) : Rleb x y = true <-> (x <= y)%R.
Proof. unfold Rleb; destruct (Rle_dec x y); split; intros; try easy; lra. Qed.

Lemma Rleb_false (x y : R) : Rleb x y = false <-> (y < x)%R.
Proof. unfold Rleb; destruct (Rle_dec x y); split; intros; try easy; lra. Qed.

Lemma Reqb_true (x y : R) : Reqb x y = true <-> x = y.
Proof. unfold Reqb; destruct (Req_dec_T x y); split; intros; try easy. Qed.

Lemma Reqb_false (x y : R) : Reqb x y = false <-> x <> y.
Proof. unfold Reqb; destruct (Req_dec_T x y); split; intros; try easy. Qed.

(** Settles a comparison between two real expressions that [lra] can order. *)
Ltac Rcompare :=
  repeat match goal with
  | |- context [Rltb ?x ?y] =>
      first [ replace (Rltb x y) with true by (symmetry; apply Rltb_true; lra)
            | replace (Rltb x y) with false by (symmetry; apply Rltb_false; lra) ]
  | |- context [Rleb ?x ?y] =>
      first [ replace (Rleb x y) with true by (symmetry; apply Rleb_true; lra)
            | replace (Rleb x y) with false by (symmetry; apply Rleb_false; lra) ]
  | |- context [Reqb ?x ?y] =>
      first [ replace (Reqb x y) with true by (symmetry; apply Reqb_true; lra)
            | replace (Reqb x y) with false by (symmetry; apply Reqb_false; lra) ]
  end.

Lemma Rabs_le_bounds (x a : R) : (Rabs x <= a)%R -> (- a <= x <= a)%R.
Proof. unfold Rabs. destruct (Rcase_abs x); lra. Qed.

(** ** Rounding *)

Section Rounding.

Local Open Scope R_scope.

(** *** The integer nearest to a real, ties to even *)

Lemma nearest_even_cases (r : R) :
  (r - IZR (Zfloor r) < 1 / 2 /\ nearest_even r = Zfloor r)
  \/ (1 / 2 < r - IZR (Zfloor r) /\ nearest_even r = (Zfloor r + 1)%Z)
  \/ (r - IZR (Zfloor r) = 1 / 2
      /\ nearest_even r = if Z.even (Zfloor r) then Zfloor r else (Zfloor r + 1)%Z).
Proof.
  unfold nearest_even. cbv zeta.
  destruct (Rltb (r - IZR (Zfloor r)) (1 / 2)) eqn:E1.
  - apply Rltb_true in E1. now left.
  - apply Rltb_false in E1.
    destruct (Rltb (1 / 2) (r - IZR (Zfloor r))) eqn:E2.
    + apply Rltb_true in E2. right; now left.
    + apply Rltb_false in E2. right; right. split; [lra|reflexivity].
Qed.

Lemma nearest_even_near (r : R) (k : Z) :
  Rabs (r - IZR k) < 1 / 2 -> nearest_even r = k.
Proof.
  intros H. apply Rabs_def2 in H. destruct H as [H1 H2].
  pose proof (Zfloor_bound r) as Hf.
  assert (Hk : (k - 1 <= Zfloor r <= k)%Z).
  { split.
    - apply Zfloor_lub. rewrite minus_IZR. lra.
    - apply Z.lt_succ_r. apply lt_IZR. rewrite succ_IZR. lra. }
  destruct (nearest_even_cases r) as [[Hc ->]|[[Hc ->]|[Hc ->]]].
  - assert (Zfloor r <> k - 1)%Z; [|lia].
    intros E. rewrite E, minus_IZR in Hc. lra.
  - assert (Zfloor r <> k)%Z; [|lia].
    intros E. rewrite E in Hc. lra.
  - exfalso. assert (Zfloor r = k - 1 \/ Zfloor r = k)%Z as [E|E] by lia;
      rewrite E in Hc; rewrite ?minus_IZR in Hc; lra.
Qed.

Lemma nearest_even_tie (f : Z) :
  nearest_even (IZR f + 1 / 2) = if Z.even f then f else (f + 1)%Z.
Proof.
  assert (Ef : Zfloor (IZR f + 1 / 2) = f) by (apply Zfloor_eq; lra).
  destruct (nearest_even_cases (IZR f + 1 / 2)) as [[Hc _]|[[Hc _]|[_ E]]];
    rewrite Ef in *; [lra|lra|exact E].
Qed.

Lemma nearest_even_IZR (k : Z) : nearest_even (IZR k) = k.
Proof.
  apply nearest_even_near. replace (IZR k - IZR k) with 0 by lra.
  rewrite Rabs_R0. lra.
Qed.

Lemma nearest_even_bounds (r : R) :
  (Zfloor r <= nearest_even r <= Zfloor r + 1)%Z.
Proof.
  destruct (nearest_even_cases r) as [[_ ->]|[[_ ->]|[_ ->]]]; try lia.
  destruct (Z.even (Zfloor r)); lia.
Qed.

Lemma nearest_even_mono (r s : R) : r <= s -> (nearest_even r <= nearest_even s)%Z.
Proof.
  intros H.
  pose proof (Zfloor_le r s H) as Hf.
  pose proof (nearest_even_bounds r) as Br.
  pose proof (nearest_even_bounds s) as Bs.
  destruct (Z.eq_dec (Zfloor r) (Zfloor s)) as [E|E]; [|lia].
  destruct (nearest_even_cases r) as [[Hr Er]|[[Hr Er]|[Hr Er]]];
    destruct (nearest_even_cases s) as [[Hs Es]|[[Hs Es]|[Hs Es]]];
    rewrite Er, Es; rewrite <- ?E in *; try lia; try lra;
    destruct (Z.even (Zfloor r)); lia.
Qed.

Lemma Zfloor_opp (r : R) :
  r <> IZR (Zfloor r) -> Zfloor (- r) = (- Zfloor r - 1)%Z.
Proof.
  intros H. pose proof (Zfloor_bound r) as Hf.
  apply Zfloor_eq. rewrite minus_IZR, opp_IZR. lra.
Qed.

Lemma nearest_even_opp (r : R) : nearest_even (- r) = (- nearest_even r)%Z.
Proof.
  destruct (Req_dec r (IZR (Zfloor r))) as [E|E].
  - rewrite E, <- opp_IZR, !nearest_even_IZR. reflexivity.
  - pose proof (Zfloor_opp r E) as Ho.
    pose proof (Zfloor_bound r) as Hf.
    destruct (nearest_even_cases r) as [[Hr Er]|[[Hr Er]|[Hr Er]]];
      destruct (nearest_even_cases (- r)) as [[Hs Es]|[[Hs Es]|[Hs Es]]];
      rewrite Er, Es; rewrite Ho in *; rewrite ?minus_IZR, ?opp_IZR in *;
      try lia; try lra.
    replace (- Zfloor r - 1)%Z with (- (Zfloor r + 1))%Z by lia.
    rewrite Z.even_opp, Z.even_add. cbn.
    destruct (Z.even (Zfloor r)); cbn; lia.
Qed.

(** *** Powers of two *)

Lemma pow2_pos (e : Z) : 0 < powerRZ 2 e.
Proof. apply powerRZ_lt. lra. Qed.

Lemma pow2_add (a b : Z) : powerRZ 2 (a + b) = powerRZ 2 a * powerRZ 2 b.
Proof. apply powerRZ_add. lra. Qed.

Lemma pow2_cancel (e : Z) : powerRZ 2 e * powerRZ 2 (- e) = 1.
Proof. rewrite <- pow2_add. replace (e + - e)%Z with 0%Z by lia. reflexivity. Qed.

Lemma pow2_IZR (k : Z) : (0 <= k)%Z -> powerRZ 2 k = IZR (2 ^ k).
Proof.
  intros H. rewrite <- (Z2Nat.id k H) at 1 2.
  now rewrite <- pow_powerRZ, pow_IZR.
Qed.

Lemma pow2_neg (k : Z) : (0 <= k)%Z -> powerRZ 2 (- k) = / IZR (2 ^ k).
Proof. intros H. now rewrite powerRZ_neg', pow2_IZR. Qed.

Lemma pow2_le (a b : Z) : (a <= b)%Z -> powerRZ 2 a <= powerRZ 2 b.
Proof.
  intros H. rewrite !powerRZ_Rpower by lra.
  apply Rle_Rpower; [lra|now apply IZR_le].
Qed.

Lemma pow2_lt_inv (a b : Z) : powerRZ 2 a < powerRZ 2 b -> (a < b)%Z.
Proof.
  intros H. destruct (Z_lt_le_dec a b) as [L|L]; [exact L|].
  apply pow2_le in L. lra.
Qed.

Lemma pow2_exp (k : Z) : powerRZ 2 k = exp (IZR k * ln 2).
Proof. rewrite powerRZ_Rpower by lra. reflexivity. Qed.

(** *** The magnitude of a number *)

Lemma mag_spec (x : R) :
  x <> 0 -> powerRZ 2 (mag x - 1) <= Rabs x < powerRZ 2 (mag x).
Proof.
  intros Hx. unfold mag.
  assert (Ha : 0 < Rabs x) by now apply Rabs_pos_lt.
  pose proof ln_lt_2 as Hl.
  set (r := ln (Rabs x) / ln 2).
  assert (Er : Rabs x = exp (r * ln 2)).
  { unfold r. replace (ln (Rabs x) / ln 2 * ln 2) with (ln (Rabs x)) by (field; lra).
    now rewrite exp_ln. }
  destruct (archimed r) as [H1 H2].
  rewrite !pow2_exp, Er, minus_IZR. split.
  - destruct (Req_dec ((IZR (up r) - 1) * ln 2) (r * ln 2)) as [E|E].
    + rewrite E. lra.
    + left. apply exp_increasing. nra.
  - apply exp_increasing. nra.
Qed.

Lemma mag_unique (x : R) (k : Z) :
  powerRZ 2 (k - 1) <= Rabs x < powerRZ 2 k -> mag x = k.
Proof.
  intros [H1 H2].
  assert (Hx : x <> 0).
  { intros ->. rewrite Rabs_R0 in H1. pose proof (pow2_pos (k - 1)). lra. }
  destruct (mag_spec x Hx) as [M1 M2].
  assert (k - 1 < mag x)%Z by (apply pow2_lt_inv; lra).
  assert (mag x - 1 < k)%Z by (apply pow2_lt_inv; lra).
  lia.
Qed.

Lemma mag_le (x y : R) : x <> 0 -> Rabs x <= Rabs y -> (mag x <= mag y)%Z.
Proof.
  intros Hx H.
  assert (Hy : y <> 0).
  { intros ->. rewrite Rabs_R0 in H. pose proof (Rabs_pos_lt x Hx). lra. }
  destruct (mag_spec x Hx) as [M1 _]. destruct (mag_spec y Hy) as [_ M2].
  assert (mag x - 1 < mag y)%Z by (apply pow2_lt_inv; lra).
  lia.
Qed.

Lemma mag_opp (x : R) : mag (- x) = mag x.
Proof. unfold mag. now rewrite Rabs_Ropp. Qed.

(** *** Rounding to nearest, ties to even *)

Variables prec emin : Z.
Hypothesis prec_pos : (0 < prec)%Z.

Local Abbreviation rnd := (round prec emin).
Local Abbreviation exponent := (fun x : R => Z.max (mag x - prec) emin).

Lemma round_0 : rnd 0 = 0.
Proof.
  unfold round. cbv zeta. rewrite Rmult_0_l.
  change 0 with (IZR 0) at 1. rewrite nearest_even_IZR. lra.
Qed.

Lemma round_opp (x : R) : rnd (- x) = - rnd x.
Proof.
  unfold round. cbv zeta. rewrite mag_opp.
  rewrite <- Ropp_mult_distr_l, nearest_even_opp, opp_IZR. lra.
Qed.

(** Rounding on a grid of step [2 ^ e] is monotone and keeps the points of the
    grid. *)
Lemma grid_mono (e : Z) (x y : R) :
  x <= y ->
  IZR (nearest_even (x * powerRZ 2 (- e))) * powerRZ 2 e
  <= IZR (nearest_even (y * powerRZ 2 (- e))) * powerRZ 2 e.
Proof.
  intros H. pose proof (pow2_pos e). pose proof (pow2_pos (- e)).
  apply Rmult_le_compat_r; [lra|].
  apply IZR_le, nearest_even_mono. nra.
Qed.

Lemma grid_point (e : Z) (k : Z) :
  IZR (nearest_even (IZR k * powerRZ 2 e * powerRZ 2 (- e))) * powerRZ 2 e
  = IZR k * powerRZ 2 e.
Proof.
  rewrite Rmult_assoc, pow2_cancel, Rmult_1_r, nearest_even_IZR. reflexivity.
Qed.

Lemma round_id (x : R) : representable prec emin x -> rnd x = x.
Proof.
  intros (m & e & Hm & He & ->).
  destruct (Z.eq_dec m 0) as [->|Hm0].
  { rewrite Rmult_0_l. apply round_0. }
  unfold round. cbv zeta.
  set (c := Z.max (mag (IZR m * powerRZ 2 e) - prec) emin).
  assert (Hc : (c <= e)%Z).
  { assert (Hx : IZR m * powerRZ 2 e <> 0).
    { apply Rmult_integral_contrapositive_currified.
      - intros E. apply eq_IZR in E. contradiction.
      - pose proof (pow2_pos e). lra. }
    destruct (mag_spec _ Hx) as [M1 _].
    assert (Hlt : Rabs (IZR m * powerRZ 2 e) < powerRZ 2 (prec + e)).
    { rewrite Rabs_mult, (Rabs_right (powerRZ 2 e)) by (pose proof (pow2_pos e); lra).
      rewrite pow2_add, (pow2_IZR prec) by lia.
      apply Rmult_lt_compat_r; [apply pow2_pos|].
      rewrite <- abs_IZR. now apply IZR_lt. }
    assert (mag (IZR m * powerRZ 2 e) - 1 < prec + e)%Z by (apply pow2_lt_inv; lra).
    unfold c. lia. }
  assert (Ex : IZR m * powerRZ 2 e = IZR (m * 2 ^ (e - c)) * powerRZ 2 c).
  { rewrite mult_IZR, <- pow2_IZR by lia.
    rewrite Rmult_assoc, <- pow2_add. f_equal. f_equal. lia. }
  clearbody c. rewrite Ex. apply grid_point.
Qed.

Lemma round_ge_0 (x : R) : 0 <= x -> 0 <= rnd x.
Proof.
  intros H. unfold round. cbv zeta.
  set (c := Z.max _ _). pose proof (pow2_pos c). pose proof (pow2_pos (- c)).
  apply Rmult_le_pos; [|lra].
  apply IZR_le. rewrite <- (nearest_even_IZR 0). apply nearest_even_mono. nra.
Qed.

Lemma round_pos_mono (x y : R) : 0 < x -> x <= y -> rnd x <= rnd y.
Proof.
  intros Hx Hxy.
  assert (Hx0 : x <> 0) by lra. assert (Hy0 : y <> 0) by lra.
  assert (Hm : (mag x <= mag y)%Z).
  { apply mag_le; [exact Hx0|]. rewrite !Rabs_right by lra. exact Hxy. }
  destruct (mag_spec x Hx0) as [_ X2]. destruct (mag_spec y Hy0) as [Y1 _].
  rewrite Rabs_right in X2, Y1 by lra.
  unfold round. cbv zeta.
  set (cx := Z.max (mag x - prec) emin). set (cy := Z.max (mag y - prec) emin).
  destruct (Z.eq_dec cx cy) as [E|E].
  - rewrite E. now apply grid_mono.
  - assert (Hcy : cy = (mag y - prec)%Z) by (unfold cx, cy in *; lia).
    assert (Hlt : (mag x < mag y)%Z) by (unfold cx, cy in *; lia).
    assert (Hcx : (cx < cy)%Z) by (unfold cx, cy in *; lia).
    apply Rle_trans with (powerRZ 2 (mag y - 1)).
    + replace (powerRZ 2 (mag y - 1))
        with (IZR (nearest_even (IZR (2 ^ (mag y - 1 - cx)) * powerRZ 2 cx * powerRZ 2 (- cx)))
              * powerRZ 2 cx).
      * apply grid_mono. rewrite <- pow2_IZR, <- pow2_add by lia.
        replace (mag y - 1 - cx + cx)%Z with (mag y - 1)%Z by lia.
        apply Rle_trans with (powerRZ 2 (mag x)); [lra|apply pow2_le; lia].
      * rewrite grid_point, <- pow2_IZR, <- pow2_add by lia. f_equal. lia.
    + replace (powerRZ 2 (mag y - 1))
        with (IZR (nearest_even (IZR (2 ^ (prec - 1)) * powerRZ 2 cy * powerRZ 2 (- cy)))
              * powerRZ 2 cy).
      * apply grid_mono. rewrite <- pow2_IZR, <- pow2_add by lia.
        replace (prec - 1 + cy)%Z with (mag y - 1)%Z by lia. exact Y1.
      * rewrite grid_point, <- pow2_IZR, <- pow2_add by lia. f_equal. lia.
Qed.

Lemma round_mono (x y : R) : x <= y -> rnd x <= rnd y.
Proof.
  intros H.
  destruct (Rlt_le_dec 0 x) as [Hx|Hx].
  - now apply round_pos_mono.
  - destruct (Rle_lt_dec 0 y) as [Hy|Hy].
    + apply Rle_trans with 0; [|now apply round_ge_0].
      replace x with (- - x) by lra. rewrite round_opp.
      assert (0 <= rnd (- x)) by (apply round_ge_0; lra). lra.
    + replace x with (- - x) by lra. replace y with (- - y) by lra.
      rewrite (round_opp (- x)), (round_opp (- y)).
      assert (rnd (- y) <= rnd (- x)) by (apply round_pos_mono; lra). lra.
Qed.

(** The value of a rounding, from the binade of the number and the nearest
    point of its grid. *)
Lemma round_near (x : R) (k e j : Z) :
  powerRZ 2 (k - 1) <= Rabs x < powerRZ 2 k ->
  e = Z.max (k - prec) emin ->
  Rabs (x * powerRZ 2 (- e) - IZR j) < 1 / 2 ->
  rnd x = IZR j * powerRZ 2 e.
Proof.
  intros Hk He Hj. unfold round. cbv zeta.
  rewrite (mag_unique x k Hk), <- He.
  now rewrite (nearest_even_near _ j Hj).
Qed.

(** The same halfway between two points of the grid. *)
Lemma round_tie (x : R) (k e f : Z) :
  powerRZ 2 (k - 1) <= Rabs x < powerRZ 2 k ->
  e = Z.max (k - prec) emin ->
  x * powerRZ 2 (- e) = IZR f + 1 / 2 ->
  rnd x = IZR (if Z.even f then f else f + 1) * powerRZ 2 e.
Proof.
  intros Hk He Hf. unfold round. cbv zeta.
  rewrite (mag_unique x k Hk), <- He, Hf.
  now rewrite nearest_even_tie.
Qed.

(** The error of a rounding is at most half a step of the grid. *)
Lemma round_error (x : R) (k : Z) :
  powerRZ 2 (k - 1) <= Rabs x < powerRZ 2 k ->
  (emin <= k - prec)%Z ->
  Rabs (rnd x - x) <= powerRZ 2 (k - prec - 1).
Proof.
  intros Hk He. unfold round. cbv zeta.
  rewrite (mag_unique x k Hk).
  replace (Z.max (k - prec) emin) with (k - prec)%Z by lia.
  set (e := (k - prec)%Z). set (r := x * powerRZ 2 (- e)).
  assert (Hn : - (1 / 2) <= IZR (nearest_even r) - r <= 1 / 2).
  { pose proof (Zfloor_bound r) as Hf.
    destruct (nearest_even_cases r) as [[Hc ->]|[[Hc ->]|[Hc ->]]].
    - lra.
    - rewrite plus_IZR. lra.
    - destruct (Z.even (Zfloor r)); rewrite ?plus_IZR; lra. }
  assert (Ex : x = r * powerRZ 2 e).
  { unfold r. rewrite Rmult_assoc, (Rmult_comm (powerRZ 2 (- e))), pow2_cancel. lra. }
  replace (e - 1)%Z with (e + -1)%Z by lia.
  rewrite pow2_add. change (powerRZ 2 (-1)) with (/ (2 * 1)).
  pose proof (pow2_pos e) as Hp.
  clearbody r. rewrite Ex.
  replace (IZR (nearest_even r) * powerRZ 2 e - r * powerRZ 2 e)
    with ((IZR (nearest_even r) - r) * powerRZ 2 e) by ring.
  apply Rabs_le. split; nra.
Qed.

End Rounding.

(** *** The two formats of the program *)

Lemma round_f_mono (x y : R) : (x <= y)%R -> (round_f x <= round_f y)%R.
Proof. apply round_mono. lia. Qed.

Lemma round_d_mono (x y : R) : (x <= y)%R -> (round_d x <= round_d y)%R.
Proof. apply round_mono. lia. Qed.

Lemma round_f_opp (x : R) : round_f (- x) = (- round_f x)%R.
Proof. apply round_opp. Qed.

Lemma round_d_opp (x : R) : round_d (- x) = (- round_d x)%R.
Proof. apply round_opp. Qed.

Lemma round_f_id (x : R) : representable 24 (-149) x -> round_f x = x.
Proof. apply round_id. lia. Qed.

Lemma round_d_id (x : R) : representable 53 (-1074) x -> round_d x = x.
Proof. apply round_id. lia. Qed.

(** A [float] is a [double]. *)
Lemma representable_float_double (x : R) :
  representable 24 (-149) x -> representable 53 (-1074) x.
Proof. intros (m & e & Hm & He & E). exists m, e. repeat split; [lia|lia|exact E]. Qed.

Lemma representable_scaled (prec emin m e : Z) :
  Z.abs m < 2 ^ prec -> emin <= e -> representable prec emin (IZR m * powerRZ 2 e).
Proof. intros Hm He. now exists m, e. Qed.

(** The integers below 2 ^ 24, and the multiples of 4 below 2 ^ 26, are
    [float] numbers. *)
Lemma representable_int (n : Z) : Z.abs n < 16777216 -> representable 24 (-149) (IZR n).
Proof.
  intros H. exists n, 0. repeat split; [exact H|lia|]. cbn [powerRZ]. lra.
Qed.

Lemma representable_int4 (n : Z) : Z.abs n < 16777216 -> representable 24 (-149) (IZR (4 * n)).
Proof.
  intros H. exists n, 2. repeat split; [exact H|lia|].
  rewrite mult_IZR. change (powerRZ 2 2) with (2 * (2 * 1))%R. lra.
Qed.

Lemma round_f_int (n : Z) : Z.abs n < 16777216 -> round_f (IZR n) = IZR n.
Proof. intros H. now apply round_f_id, representable_int. Qed.

(** The integers below 2 ^ 53 are [double] numbers. *)
Lemma round_d_int (n : Z) : Z.abs n < 9007199254740992 -> round_d (IZR n) = IZR n.
Proof.
  intros H. apply round_d_id. exists n, 0. repeat split; [exact H|lia|].
  cbn [powerRZ]. lra.
Qed.

(** A [double] stored into a [float]: monotone, and exact on a [float]. *)
Lemma store_mono (x y : R) : (x <= y)%R -> (round_f (round_d x) <= round_f (round_d y))%R.
Proof. intros H. now apply round_f_mono, round_d_mono. Qed.

Lemma store_id (x : R) : representable 24 (-149) x -> round_f (round_d x) = x.
Proof.
  intros H. rewrite (round_d_id x) by now apply representable_float_double.
  now apply round_f_id.
Qed.

Lemma store_int (n : Z) : Z.abs n < 16777216 -> round_f (round_d (IZR n)) = IZR n.
Proof. intros H. now apply store_id, representable_int. Qed.

(** Proves [round_f c = c], [round_d c = c] and the like for an integer
    literal [c]. *)
Ltac round_const :=
  first [ apply round_f_int | apply round_d_int | apply store_int ]; cbn; lia.

Lemma round_f_between (lo hi x : R) :
  round_f lo = lo -> round_f hi = hi -> (lo <= x <= hi)%R -> (lo <= round_f x <= hi)%R.
Proof.
  intros El Eh [H1 H2]. split.
  - rewrite <- El. now apply round_f_mono.
  - rewrite <- Eh. now apply round_f_mono.
Qed.

Lemma round_d_between (lo hi x : R) :
  round_d lo = lo -> round_d hi = hi -> (lo <= x <= hi)%R -> (lo <= round_d x <= hi)%R.
Proof.
  intros El Eh [H1 H2]. split.
  - rewrite <- El. now apply round_d_mono.
  - rewrite <- Eh. now apply round_d_mono.
Qed.

Lemma store_between (lo hi x : R) :
  round_f (round_d lo) = lo -> round_f (round_d hi) = hi ->
  (lo <= x <= hi)%R -> (lo <= round_f (round_d x) <= hi)%R.
Proof.
  intros El Eh [H1 H2]. split.
  - rewrite <- El. now apply store_mono.
  - rewrite <- Eh. now apply store_mono.
Qed.

Lemma store_le (x c : R) :
  round_f (round_d c) = c -> (x <= c)%R -> (round_f (round_d x) <= c)%R.
Proof. intros E H. rewrite <- E. now apply store_mono. Qed.

Lemma store_ge (x c : R) :
  round_f (round_d c) = c -> (c <= x)%R -> (c <= round_f (round_d x))%R.
Proof. intros E H. rewrite <- E. now apply store_mono. Qed.

Lemma round_f_le (x c : R) : round_f c = c -> (x <= c)%R -> (round_f x <= c)%R.
Proof. intros E H. rewrite <- E. now apply round_f_mono. Qed.

Lemma round_f_ge (x c : R) : round_f c = c -> (c <= x)%R -> (c <= round_f x)%R.
Proof. intros E H. rewrite <- E. now apply round_f_mono. Qed.

(** The error of a [double] operation on a number of the binade [k]. *)
Lemma round_d_error (x : R) (k : Z) :
  (powerRZ 2 (k - 1) <= Rabs x < powerRZ 2 k)%R -> -1021 <= k ->
  (Rabs (round_d x - x) <= powerRZ 2 (k - 54))%R.
Proof.
  intros Hk He. replace (k - 54) with (k - 53 - 1) by lia.
  apply round_error; [exact Hk|lia].
Qed.

Arguments round_f : simpl never.
Arguments round_d : simpl never.

(** ** Navigation math *)

Lemma acos_minus_1 : acos (-1) = PI.
Proof. replace (-1)%R with (Ropp 1) by lra. rewrite acos_opp, acos_1; lra. Qed.

(** [M_PI] is between 3 and 4. *)
Lemma M_PI_bounds : (3 <= round_d PI <= 4)%R.
Proof.
  pose proof PI2_3_2. pose proof PI_4.
  apply round_d_between; [round_const|round_const|lra].
Qed.

Lemma RAD2DEG_eq : RAD2DEG = Fin (round_d (180 / round_d PI)).
Proof.
  unfold RAD2DEG, M_PI, ddiv. pose proof M_PI_bounds.
  replace (Reqb (round_d PI) 0) with false by (symmetry; apply Reqb_false; lra).
  reflexivity.
Qed.

Lemma DEG2RAD_eq : DEG2RAD = Fin (round_d (round_d PI / 180)).
Proof.
  unfold DEG2RAD, M_PI, ddiv.
  replace (Reqb 180 0) with false by (symmetry; apply Reqb_false; lra).
  reflexivity.
Qed.

(** [RAD2DEG] is not 180 / [M_PI], but its product with [M_PI] is 180 to
    2 ^ -46. *)
Lemma RAD2DEG_M_PI :
  (45 <= round_d (180 / round_d PI) <= 60
   /\ Rabs (round_d (180 / round_d PI) * round_d PI - 180) <= powerRZ 2 (-46))%R.
Proof.
  pose proof M_PI_bounds as Hq. set (q := round_d PI) in *.
  assert (Hx : (45 <= 180 / q <= 60)%R).
  { split.
    - apply Rmult_le_reg_r with q; [lra|]. unfold Rdiv.
      rewrite Rmult_assoc, Rinv_l by lra. lra.
    - apply Rmult_le_reg_r with q; [lra|]. unfold Rdiv.
      rewrite Rmult_assoc, Rinv_l by lra. lra. }
  split; [apply round_d_between; [round_const|round_const|exact Hx]|].
  assert (He : (Rabs (round_d (180 / q) - 180 / q) <= powerRZ 2 (6 - 54))%R).
  { apply round_d_error; [|lia].
    rewrite !pow2_IZR by lia. rewrite Rabs_right by lra.
    change (2 ^ (6 - 1)) with 32. change (2 ^ 6) with 64. lra. }
  change (6 - 54) with (-48) in He.
  replace (-46) with (-48 + 2) by lia. rewrite pow2_add.
  change (powerRZ 2 2) with (2 * (2 * 1))%R.
  pose proof (pow2_pos (-48)) as Hp.
  apply Rabs_le_bounds in He.
  replace (round_d (180 / q) * q - 180)%R with ((round_d (180 / q) - 180 / q) * q)%R
    by (field; lra).
  apply Rabs_le. split; nra.
Qed.

(** The numbers within 2 ^ -45 of 180 are both neighbours of 180 among the
    [double] numbers; stored into a [float] they are 180. *)
Lemma store_near_180 (x : R) :
  (Rabs (x - 180) <= powerRZ 2 (-46))%R -> round_f (round_d x) = 180%R.
Proof.
  intros H. apply Rabs_le_bounds in H.
  assert (E46 : powerRZ 2 (-46) = (/ 70368744177664)%R).
  { change (powerRZ 2 (-46)) with (/ powerRZ 2 46)%R. rewrite pow2_IZR by lia. reflexivity. }
  rewrite E46 in H.
  assert (Hd : (180 - / 35184372088832 <= round_d x <= 180 + / 35184372088832)%R).
  { apply round_d_between.
    - apply round_d_id. exists 6333186975989759, (-45). split; [reflexivity|]. split; [lia|].
      change (powerRZ 2 (-45)) with (/ powerRZ 2 45)%R. rewrite pow2_IZR by lia.
      change (2 ^ 45) with 35184372088832. lra.
    - apply round_d_id. exists 6333186975989761, (-45). split; [reflexivity|]. split; [lia|].
      change (powerRZ 2 (-45)) with (/ powerRZ 2 45)%R. rewrite pow2_IZR by lia.
      change (2 ^ 45) with 35184372088832. lra.
    - lra. }
  unfold round_f.
  rewrite (round_near 24 (-149) _ 8 (-16) 11796480).
  - change (powerRZ 2 (-16)) with (/ powerRZ 2 16)%R.
    rewrite pow2_IZR by lia. change (2 ^ 16) with 65536. lra.
  - rewrite !pow2_IZR by lia. rewrite Rabs_right by lra.
    change (2 ^ (8 - 1)) with 128. change (2 ^ 8) with 256. lra.
  - reflexivity.
  - change (- -16) with 16. rewrite pow2_IZR by lia. change (2 ^ 16) with 65536.
    apply Rabs_def1; lra.
Qed.

(** The result of [acos] is between 0 and [M_PI]. *)
Lemma facos_cases (x : cfloat) :
  facos x = NaN \/ exists a, facos x = Fin a /\ (0 <= a <= round_d PI)%R.
Proof.
  destruct x as [|r]; simpl; [now left|].
  destruct (Rleb (-1) r && Rleb r 1); [right|now left].
  exists (round_d (acos r)); split; [reflexivity|].
  pose proof (acos_bound r) as [H0 H1]. split.
  - replace 0%R with (round_d 0) by round_const. now apply round_d_mono.
  - now apply round_d_mono.
Qed.

(** An angle between 0 and [M_PI] in degrees, stored into a [float], is in
    [0, 180]: the [double] product may exceed 180, by less than the [float]
    keeps. *)
Lemma degrees_of_angle (a : R) :
  (0 <= a <= round_d PI)%R ->
  (0 <= round_f (round_d (round_d (180 / round_d PI) * a)) <= 180)%R.
Proof.
  intros [Ha0 Ha1]. destruct RAD2DEG_M_PI as [Hc He].
  pose proof M_PI_bounds as Hq. apply Rabs_le_bounds in He.
  pose proof (pow2_pos (-46)) as Hp.
  split.
  - apply store_ge; [round_const|]. nra.
  - assert (E : round_f (round_d (180 + powerRZ 2 (-46))) = 180%R).
    { apply store_near_180.
      replace (180 + powerRZ 2 (-46) - 180)%R with (powerRZ 2 (-46)) by lra.
      rewrite Rabs_right; lra. }
    apply Rle_trans with (round_f (round_d (180 + powerRZ 2 (-46)))); [|lra].
    apply store_mono.
    apply Rle_trans with (round_d (180 / round_d PI) * round_d PI)%R; [|lra].
    apply Rmult_le_compat_l; lra.
Qed.

Lemma angle_stored_cases (x : cfloat) :
  to_float (RAD2DEG * facos x)%cd = NaN
  \/ exists a, to_float (RAD2DEG * facos x)%cd = Fin a /\ (0 <= a <= 180)%R.
Proof.
  rewrite RAD2DEG_eq.
  destruct (facos_cases x) as [E|[a [E Ha]]]; rewrite E; [now left|right].
  exists (round_f (round_d (round_d (180 / round_d PI) * a))). split; [reflexivity|].
  now apply degrees_of_angle.
Qed.

Lemma sphereCourse_acos_cases (lat1 lat2 zeta : cfloat) :
  sphereCourse_acos lat1 lat2 zeta = NaN
  \/ exists a, sphereCourse_acos lat1 lat2 zeta = Fin a /\ (0 <= a <= 180)%R.
Proof. unfold sphereCourse_acos. apply angle_stored_cases. Qed.

Lemma sphereDistance_cases (lat1 long1 lat2 long2 : cfloat) :
  exists z, sphereDistance lat1 long1 lat2 long2 = Fin z /\ (0 <= z <= 180)%R.
Proof.
  unfold sphereDistance.
  match goal with |- context [facos ?x] => destruct (angle_stored_cases x) as [E|[a [E Ha]]] end;
    rewrite E; cbn [isnan].
  - exists 0%R; split; [reflexivity|lra].
  - exists a. now split.
Qed.

(** The sine of a number of [1, 5/2] is at least 1/2. *)
Lemma sin_ge_half (z : R) : (1 <= z <= 5 / 2)%R -> (1 / 2 <= sin z)%R.
Proof.
  intros [H1 H2]. pose proof PI2_3_2 as Hlo. pose proof PI_4 as Hhi.
  rewrite <- sin_PI6.
  destruct (Rle_dec z (PI / 2)) as [Hz|Hz].
  - apply sin_incr_1; lra.
  - replace (sin (PI / 6)) with (sin (5 * (PI / 6))).
    + apply sin_decr_1; lra.
    + replace (5 * (PI / 6))%R with (PI - PI / 6)%R by lra. apply sin_PI_x.
Qed.

(** [DEG2RAD * 90], the [double] next to pi / 2, is between 1 and 5/2. *)
Lemma right_angle_bounds : (1 <= round_d (round_d (round_d PI / 180) * 90) <= 5 / 2)%R.
Proof.
  pose proof M_PI_bounds as Hq.
  assert (Hd : (1 / 64 <= round_d (round_d PI / 180) <= 3 / 128)%R).
  { apply round_d_between.
    - apply round_d_id. exists 1, (-6). split; [reflexivity|]. split; [lia|].
      change (powerRZ 2 (-6)) with (/ powerRZ 2 6)%R. rewrite pow2_IZR by lia.
      change (2 ^ 6) with 64. lra.
    - apply round_d_id. exists 3, (-7). split; [reflexivity|]. split; [lia|].
      change (powerRZ 2 (-7)) with (/ powerRZ 2 7)%R. rewrite pow2_IZR by lia.
      change (2 ^ 7) with 128. lra.
    - lra. }
  assert (H : (1 <= round_d (round_d (round_d PI / 180) * 90) <= 5 / 2)%R).
  { apply round_d_between; [round_const| |lra].
    apply round_d_id. exists 5, (-1). split; [reflexivity|]. split; [lia|].
    change (powerRZ 2 (-1)) with (/ (2 * 1))%R. lra. }
  exact H.
Qed.

Lemma sphereCourse_south_pole :
  sphereCourse (Fin 0) (Fin 0) (Fin (-90)) (Fin (-1)) (Fin 90) = Fin (-180).
Proof.
  assert (R0 : round_d 0 = 0%R) by round_const.
  assert (R1 : round_d 1 = 1%R) by round_const.
  unfold sphereCourse, sphereCourse_acos, sphereCourse_diff.
  rewrite RAD2DEG_eq, DEG2RAD_eq.
  cbn [dmul dsub ddiv fsub fadd lift2 fsin fcos].
  set (d := round_d (round_d PI / 180)).
  set (z := round_d (d * 90)).
  pose proof right_angle_bounds as Hz. fold d z in Hz.
  assert (Hs : (1 / 2 <= round_d (sin z))%R).
  { replace (1 / 2)%R with (round_d (1 / 2)).
    - apply round_d_mono. now apply sin_ge_half.
    - apply round_d_id. exists 1, (-1). repeat split; try lia.
      change (powerRZ 2 (-1)) with (/ (2 * 1))%R. lra. }
  replace (d * -90)%R with (- (d * 90))%R by lra.
  rewrite round_d_opp. fold z.
  replace (d * 0)%R with 0%R by lra.
  rewrite R0, sin_neg, sin_0, cos_0, R0, R1, round_d_opp.
  set (s := round_d (sin z)) in *.
  replace (0 * round_d (cos z))%R with 0%R by lra.
  rewrite R0.
  replace (- s - 0)%R with (- s)%R by lra.
  replace (1 * s)%R with s by lra.
  rewrite round_d_opp.
  set (r := round_d s).
  assert (Hr : (1 / 2 <= r)%R).
  { replace (1 / 2)%R with (round_d (1 / 2)).
    - now apply round_d_mono.
    - apply round_d_id. exists 1, (-1). repeat split; try lia.
      change (powerRZ 2 (-1)) with (/ (2 * 1))%R. lra. }
  replace (Reqb r 0) with false by (symmetry; apply Reqb_false; lra).
  replace (- r / r)%R with (-1)%R by (field; lra).
  replace (round_d (-1)) with (-1)%R by (symmetry; round_const).
  cbn [facos]. Rcompare. cbn [andb dmul lift2 to_float isnan].
  rewrite acos_minus_1.
  rewrite store_near_180 by (apply RAD2DEG_M_PI).
  replace (-1 - 0)%R with (-1)%R by lra.
  replace (round_f (-1)) with (-1)%R by (symmetry; round_const).
  repeat (progress (cbn [fgt flt fge fneg]; Rcompare)).
  f_equal; lra.
Qed.

(** C3 as the specification words it does not hold: the course to a point on
    the meridian of the south pole, seen from the equator one degree to the
    east, is -180, which is outside (-180, 180]. *)
Lemma sphereCourse_not_half_open :
  ~ (forall lat1 long1 lat2 long2 zeta : cfloat,
       exists r, sphereCourse lat1 long1 lat2 long2 zeta = Fin r /\ (-180 < r <= 180)%R).
Proof.
  intros H.
  destruct (H (Fin 0) (Fin 0) (Fin (-90)) (Fin (-1)) (Fin 90)) as [r [E Hr]].
  rewrite sphereCourse_south_pole in E. injection E as <-. lra.
Qed.

(** C3, amended: for every input, [sphereCourse] returns a number (never
    NaN) of the closed interval [-180, 180].  A NaN angle is replaced by 0;
    the result is the angle when the wrapped longitude difference is at
    least 0 and its negation otherwise. *)
Theorem sphereCourse_closed_range (lat1 long1 lat2 long2 zeta : cfloat) :
  exists a : R,
    (0 <= a <= 180)%R
    /\ (if isnan (sphereCourse_acos lat1 lat2 zeta) then a = 0%R
        else sphereCourse_acos lat1 lat2 zeta = Fin a)
    /\ sphereCourse lat1 long1 lat2 long2 zeta
       = Fin (if fge (sphereCourse_diff long1 long2) (Fin 0) then a else - a)
    /\ exists r, sphereCourse lat1 long1 lat2 long2 zeta = Fin r /\ (-180 <= r <= 180)%R.
Proof.
  unfold sphereCourse.
  destruct (sphereCourse_acos_cases lat1 lat2 zeta) as [E|[a [E Ha]]]; rewrite E; cbn [isnan].
  - exists 0%R. split; [lra|]. split; [reflexivity|].
    destruct (fge (sphereCourse_diff long1 long2) (Fin 0)); cbn [fneg].
    + split; [reflexivity|]. exists 0%R; split; [reflexivity|lra].
    + split; [reflexivity|]. exists (- 0)%R; split; [reflexivity|lra].
  - exists a. split; [exact Ha|]. split; [reflexivity|].
    destruct (fge (sphereCourse_diff long1 long2) (Fin 0)); cbn [fneg].
    + split; [reflexivity|]. exists a; split; [reflexivity|lra].
    + split; [reflexivity|]. exists (- a)%R; split; [reflexivity|lra].
Qed.

(** ** The wrap-around loops *)

Lemma up_to_nat_gt (q : R) : (q < INR (Z.to_nat (up q)))%R.
Proof.
  destruct (archimed q) as [Hup _].
  destruct (Z_lt_le_dec (up q) 0) as [Hneg|Hpos].
  - replace (Z.to_nat (up q)) with O by lia. simpl.
    apply IZR_lt in Hneg. lra.
  - rewrite INR_IZR_INZ, Z2Nat.id by exact Hpos. lra.
Qed.

Lemma up_to_nat_le (q b : R) : (0 <= b)%R -> (q + 1 <= b)%R -> (INR (Z.to_nat (up q)) <= b)%R.
Proof.
  intros Hb H. destruct (archimed q) as [_ Hup].
  destruct (Z_lt_le_dec (up q) 0) as [Hneg|Hpos].
  - replace (Z.to_nat (up q)) with O by lia. simpl. exact Hb.
  - rewrite INR_IZR_INZ, Z2Nat.id by exact Hpos. lra.
Qed.

(** One turn added or taken off, as the loops do it. *)
Lemma turn_added (r : R) : to_float (Fin r + Fin 360)%cd = Fin (round_f (round_d (r + 360))).
Proof. reflexivity. Qed.

Lemma turn_taken (r : R) : to_float (Fin r - Fin 360)%cd = Fin (round_f (round_d (r - 360))).
Proof. reflexivity. Qed.

(** The number of iterations does not matter once the loop has ended. *)
Lemma while_below_fuel (n : nat) :
  forall m x, ends_below x n -> ends_below x m -> while_below n x = while_below m x.
Proof.
  unfold ends_below.
  induction n as [|k IH]; intros m x Hn Hm.
  - cbn [while_below] in *. destruct m; cbn [while_below]; [reflexivity|now rewrite Hn].
  - cbn [while_below] in *. destruct (flt x (Fin (-180))) eqn:E.
    + destruct m as [|m']; cbn [while_below] in *; [congruence|].
      rewrite E in *. now apply IH.
    + destruct m; cbn [while_below]; [reflexivity|now rewrite E].
Qed.

Lemma while_above_fuel (n : nat) :
  forall m x, ends_above x n -> ends_above x m -> while_above n x = while_above m x.
Proof.
  unfold ends_above.
  induction n as [|k IH]; intros m x Hn Hm.
  - cbn [while_above] in *. destruct m; cbn [while_above]; [reflexivity|now rewrite Hn].
  - cbn [while_above] in *. destruct (fgt x (Fin 180)) eqn:E.
    + destruct m as [|m']; cbn [while_above] in *; [congruence|].
      rewrite E in *. now apply IH.
    + destruct m; cbn [while_above]; [reflexivity|now rewrite E].
Qed.

(** When the loop ends, [wrap_below] and [wrap_above] are its value, and the
    loop test is false there. *)
Lemma wrap_below_eq (x : cfloat) (n : nat) : ends_below x n -> wrap_below x = while_below n x.
Proof.
  intros H. unfold wrap_below, turns_below.
  apply while_below_fuel; [|exact H]. apply epsilon_spec. now exists n.
Qed.

Lemma wrap_above_eq (x : cfloat) (n : nat) : ends_above x n -> wrap_above x = while_above n x.
Proof.
  intros H. unfold wrap_above, turns_above.
  apply while_above_fuel; [|exact H]. apply epsilon_spec. now exists n.
Qed.

Lemma wrap_below_exit (x : cfloat) :
  (exists n, ends_below x n) -> flt (wrap_below x) (Fin (-180)) = false.
Proof. intros [n H]. rewrite (wrap_below_eq x n H). exact H. Qed.

Lemma wrap_above_exit (x : cfloat) :
  (exists n, ends_above x n) -> fgt (wrap_above x) (Fin 180) = false.
Proof. intros [n H]. rewrite (wrap_above_eq x n H). exact H. Qed.

(** They satisfy the equation of the [while] statement they stand for. *)
Lemma wrap_below_unfold (x : cfloat) :
  (exists n, ends_below x n) ->
  wrap_below x
  = if flt x (Fin (-180)) then wrap_below (to_float (x + Fin 360)%cd) else x.
Proof.
  intros [n H]. rewrite (wrap_below_eq x n H).
  destruct n as [|k]; unfold ends_below in H; cbn [while_below] in *.
  - now rewrite H.
  - destruct (flt x (Fin (-180))); [|reflexivity].
    symmetry. now apply wrap_below_eq.
Qed.

Lemma wrap_above_unfold (x : cfloat) :
  (exists n, ends_above x n) ->
  wrap_above x
  = if fgt x (Fin 180) then wrap_above (to_float (x - Fin 360)%cd) else x.
Proof.
  intros [n H]. rewrite (wrap_above_eq x n H).
  destruct n as [|k]; unfold ends_above in H; cbn [while_above] in *.
  - now rewrite H.
  - destruct (fgt x (Fin 180)); [|reflexivity].
    symmetry. now apply wrap_above_eq.
Qed.

Lemma wrap180_NaN : wrap180 NaN = NaN.
Proof.
  unfold wrap180. rewrite (wrap_below_eq NaN O) by reflexivity.
  now rewrite (wrap_above_eq _ O) by reflexivity.
Qed.

(** A number of [-180, 180] is left as it is. *)
Lemma wrap180_id (r : R) : (-180 <= r <= 180)%R -> wrap180 (Fin r) = Fin r.
Proof.
  intros H. unfold wrap180.
  assert (Hb : ends_below (Fin r) O) by (apply Rltb_false; lra).
  rewrite (wrap_below_eq _ O Hb). cbn [while_below].
  assert (Ha : ends_above (Fin r) O) by (apply Rltb_false; lra).
  now rewrite (wrap_above_eq _ O Ha).
Qed.

(** The second loop does not go below -180. *)
Lemma while_above_lower (n : nat) :
  forall r, (-180 <= r)%R -> exists r', while_above n (Fin r) = Fin r' /\ (-180 <= r')%R.
Proof.
  induction n as [|k IH]; intros r Hr; cbn [while_above].
  - now exists r.
  - unfold fgt, flt. destruct (Rltb 180 r) eqn:E; [|now exists r].
    apply Rltb_true in E. rewrite turn_taken. apply IH.
    apply store_ge; [round_const|lra].
Qed.

Lemma while_below_number (n : nat) :
  forall r, exists r', while_below n (Fin r) = Fin r'.
Proof.
  induction n as [|k IH]; intros r; cbn [while_below].
  - now exists r.
  - destruct (flt (Fin r) (Fin (-180))); [|now exists r].
    rewrite turn_added. apply IH.
Qed.

(** Whenever the two loops end, they end on a number of [-180, 180]. *)
Lemma wrap180_range (r : R) :
  wrap_ends (Fin r) -> exists r', wrap180 (Fin r) = Fin r' /\ (-180 <= r' <= 180)%R.
Proof.
  intros [[n Hn] [m Hm]]. unfold wrap180.
  rewrite (wrap_above_eq _ m Hm).
  rewrite (wrap_below_eq _ n Hn) in Hm |- *.
  destruct (while_below_number n r) as [r1 E1].
  unfold ends_below in Hn. unfold ends_above in Hm. rewrite E1 in *.
  apply Rltb_false in Hn.
  destruct (while_above_lower m r1 Hn) as [r2 [E2 H2]].
  rewrite E2 in *. apply Rltb_false in Hm.
  exists r2. split; [reflexivity|lra].
Qed.

(** The bounds 180 + 360 k are [float] numbers as long as they are below
    2 ^ 26. *)
Lemma store_turns (k : Z) :
  Z.abs k <= 46700 ->
  round_f (round_d (180 + 360 * IZR k)) = (180 + 360 * IZR k)%R.
Proof.
  intros H. replace (180 + 360 * IZR k)%R with (IZR (4 * (45 + 90 * k))).
  - apply store_id, representable_int4. lia.
  - rewrite mult_IZR, plus_IZR, mult_IZR. lra.
Qed.

Lemma while_below_bounded (k : nat) :
  (INR k <= 46650)%R ->
  forall r, (-180 - 360 * INR k <= r)%R ->
  exists r', while_below k (Fin r) = Fin r' /\ (-180 <= r')%R /\ (r' = r \/ r' <= 180)%R.
Proof.
  induction k as [|k IH]; intros Hk r Hr; cbn [while_below].
  - simpl in Hr. exists r. repeat split; [lra|now left].
  - rewrite S_INR in Hk, Hr. unfold flt.
    destruct (Rltb r (-180)) eqn:E.
    + apply Rltb_true in E. rewrite turn_added.
      assert (Hlo : (-180 - 360 * INR k <= round_f (round_d (r + 360)))%R).
      { assert (Hz : 0 <= Z.of_nat k <= 46650).
        { split; [lia|]. apply le_IZR. rewrite <- INR_IZR_INZ. lra. }
        replace (-180 - 360 * INR k)%R with (180 + 360 * IZR (- Z.of_nat k - 1))%R
          by (rewrite minus_IZR, opp_IZR, <- INR_IZR_INZ; lra).
        apply store_ge; [apply store_turns; lia|].
        rewrite minus_IZR, opp_IZR, <- INR_IZR_INZ. lra. }
      assert (Hhi : (round_f (round_d (r + 360)) <= 180)%R)
        by (apply store_le; [round_const|lra]).
      destruct (IH ltac:(lra) _ Hlo) as [r' [E' [H1 H2]]].
      exists r'. split; [exact E'|]. split; [exact H1|]. right. lra.
    + apply Rltb_false in E. exists r. repeat split; [lra|now left].
Qed.

Lemma while_above_bounded (k : nat) :
  (INR k <= 46650)%R ->
  forall r, (-180 <= r <= 180 + 360 * INR k)%R ->
  exists r', while_above k (Fin r) = Fin r' /\ (-180 <= r' <= 180)%R.
Proof.
  induction k as [|k IH]; intros Hk r Hr; cbn [while_above].
  - simpl in Hr. exists r. split; [reflexivity|lra].
  - rewrite S_INR in Hk, Hr. unfold fgt, flt.
    destruct (Rltb 180 r) eqn:E.
    + apply Rltb_true in E. rewrite turn_taken.
      apply IH; [lra|]. split.
      * apply store_ge; [round_const|lra].
      * assert (Hz : 0 <= Z.of_nat k <= 46650).
        { split; [lia|]. apply le_IZR. rewrite <- INR_IZR_INZ. lra. }
        rewrite (INR_IZR_INZ k).
        apply store_le; [apply store_turns; lia|].
        rewrite <- INR_IZR_INZ. lra.
    + apply Rltb_false in E. exists r. split; [reflexivity|lra].
Qed.

(** Up to 2 ^ 24 in magnitude the two loops end, on a number of [-180, 180]. *)
Lemma wrap180_bounded (r : R) :
  (Rabs r <= 16777216)%R ->
  wrap_ends (Fin r) /\ exists r', wrap180 (Fin r) = Fin r' /\ (-180 <= r' <= 180)%R.
Proof.
  intros Hr. apply Rabs_le_bounds in Hr.
  set (k1 := Z.to_nat (up ((-180 - r) / 360))).
  assert (Hk1 : (INR k1 <= 46650)%R) by (apply up_to_nat_le; lra).
  pose proof (up_to_nat_gt ((-180 - r) / 360)) as Hf1. fold k1 in Hf1.
  destruct (while_below_bounded k1 Hk1 r ltac:(lra)) as [r1 [E1 [H1 H1']]].
  assert (Hb : ends_below (Fin r) k1).
  { unfold ends_below. rewrite E1. apply Rltb_false. lra. }
  set (k2 := Z.to_nat (up ((r1 - 180) / 360))).
  assert (Hk2 : (INR k2 <= 46650)%R) by (apply up_to_nat_le; lra).
  pose proof (up_to_nat_gt ((r1 - 180) / 360)) as Hf2. fold k2 in Hf2.
  destruct (while_above_bounded k2 Hk2 r1 ltac:(lra)) as [r2 [E2 H2]].
  assert (Ha : ends_above (wrap_below (Fin r)) k2).
  { rewrite (wrap_below_eq _ k1 Hb), E1. unfold ends_above. rewrite E2.
    apply Rltb_false. lra. }
  assert (He : wrap_ends (Fin r)) by (split; [now exists k1|now exists k2]).
  split; [exact He|]. now apply wrap180_range.
Qed.

(** At 1e10 a turn taken off is lost in the rounding, and the second loop
    never ends. *)
Lemma turn_lost : round_f (round_d (10000000000 - 360)) = 10000000000%R.
Proof.
  replace (10000000000 - 360)%R with 9999999640%R by lra.
  rewrite round_d_int by (cbn; lia).
  unfold round_f.
  rewrite (round_near 24 (-149) 9999999640 34 10 9765625).
  - rewrite pow2_IZR by lia. change (2 ^ 10) with 1024. lra.
  - rewrite !pow2_IZR by lia. rewrite Rabs_right by lra.
    change (2 ^ (34 - 1)) with 8589934592. change (2 ^ 34) with 17179869184. lra.
  - reflexivity.
  - rewrite pow2_neg by lia. change (2 ^ 10) with 1024.
    apply Rabs_def1; lra.
Qed.

Lemma wrap_above_forever (n : nat) : while_above n (Fin 10000000000) = Fin 10000000000.
Proof.
  induction n as [|k IH]; cbn [while_above]; [reflexivity|].
  replace (fgt (Fin 10000000000) (Fin 180)) with true
    by (symmetry; apply Rltb_true; lra).
  now rewrite turn_taken, turn_lost.
Qed.

Lemma wrap_never_ends : ~ wrap_ends (Fin 10000000000).
Proof.
  intros [_ [n Hn]].
  assert (Hb : ends_below (Fin 10000000000) O) by (apply Rltb_false; lra).
  rewrite (wrap_below_eq _ O Hb) in Hn. cbn [while_below] in Hn.
  unfold ends_above in Hn. rewrite wrap_above_forever in Hn.
  apply Rltb_false in Hn. lra.
Qed.

(** ** Conversion to [int] discards the fractional part *)

Lemma to_int_truncates (r : R) :
  (IZR (Z.abs (to_int (Fin r))) <= Rabs r < IZR (Z.abs (to_int (Fin r))) + 1)%R
  /\ ((0 <= r)%R -> 0 <= to_int (Fin r))
  /\ ((r <= 0)%R -> to_int (Fin r) <= 0).
Proof.
  cbn [to_int]. destruct (Rleb 0 r) eqn:E.
  - apply Rleb_true in E.
    destruct (base_Int_part r) as [Hlo Hhi].
    assert (Hz : 0 <= Int_part r).
    { apply le_IZR. apply Rnot_lt_le. intros Hlt.
      assert (Int_part r <= -1) by (apply lt_IZR in Hlt; lia).
      apply IZR_le in H. lra. }
    rewrite Z.abs_eq by exact Hz. rewrite Rabs_right by lra.
    repeat split; try lra.
    + intros _. exact Hz.
    + intros Hr0. assert (r = 0)%R by lra. subst r.
      apply le_IZR. apply Rnot_lt_le. intros Hlt.
      assert (1 <= Int_part 0) by (apply lt_IZR in Hlt; lia).
      apply IZR_le in H. lra.
  - apply Rleb_false in E.
    destruct (base_Int_part (- r)) as [Hlo Hhi].
    assert (Hz : 0 <= Int_part (- r)).
    { apply le_IZR. apply Rnot_lt_le. intros Hlt.
      assert (Int_part (- r) <= -1) by (apply lt_IZR in Hlt; lia).
      apply IZR_le in H. lra. }
    rewrite Z.abs_opp, Z.abs_eq by exact Hz. rewrite Rabs_left by lra.
    repeat split; try lra.
    intros _. lia.
Qed.
(** ** The callback, branch by branch *)

Arguments sphereDistance : simpl never.
Arguments sphereCourse : simpl never.
Arguments wrap180 : simpl never.
Arguments fadd : simpl never.
Arguments fsub : simpl never.
Arguments fmul : simpl never.
Arguments dadd : simpl never.
Arguments dsub : simpl never.
Arguments dmul : simpl never.
Arguments ddiv : simpl never.
Arguments to_float : simpl never.
Arguments double_of_int : simpl never.
Arguments degrees : simpl never.
Arguments flt : simpl never.
Arguments fgt : simpl never.
Arguments of_int : simpl never.
Arguments to_int : simpl never.
Arguments tick_sub : simpl never.
Arguments selectTarget : simpl never.
Arguments atSwitch : simpl never.
Arguments Z.quot : simpl never.

Ltac split_ifs :=
  repeat match goal with
  | |- context [if ?c then _ else _] => destruct c eqn:?
  end.

(** Case analysis on the value the switch of line 180 looks at. *)
Ltac switch_cases z :=
  let p := fresh "p" in
  destruct z as [|p|p]; [| destruct p as [p|p|]; [| destruct p as [p|p|] |] |].

Section TaskProperties.

Variable PARSE_FLIGHT_MODE : FlightStatusFlightMode -> flightmode_path.
Variable portTICK_RATE_MS : Z.

Local Abbreviation task := (ccguidanceTask PARSE_FLIGHT_MODE portTICK_RATE_MS).
Local Abbreviation gate_closed := (rate_gate_closed portTICK_RATE_MS).
Local Abbreviation guard_ok := (guard PARSE_FLIGHT_MODE).
Local Abbreviation cstep := (control_step PARSE_FLIGHT_MODE portTICK_RATE_MS).

Lemma rate_gate_closed_eq (st : Statics) (w : World) :
  gate_closed st w
  = (tick_sub (tickNow w) (if lastUpdateTime st =? 0 then tickAtInit w else lastUpdateTime st)
     <? UpdatePeriod (ccguidanceSettingsObj w) ÷ portTICK_RATE_MS).
Proof. unfold rate_gate_closed. destruct (lastUpdateTime st =? 0); reflexivity. Qed.

Lemma task_gate_closed (st : Statics) (w : World) :
  gate_closed st w = true ->
  task st w
  = mkOutcome (if lastUpdateTime st =? 0 then set_lastUpdateTime (tickAtInit w) st else st)
      w [] (ccguidanceSettingsObj w).
Proof.
  unfold rate_gate_closed, ccguidanceTask. intros H.
  cbv zeta in *. rewrite H. reflexivity.
Qed.

Lemma task_gate_open (st : Statics) (w : World) :
  gate_closed st w = false ->
  task st w
  = if guard_ok (effectiveFlightStatus w) (systemSettingsObj w)
    then guidance (stamp st w) (failsafeWorld w) (failsafeEvents w)
           (ccguidanceSettingsObj w) (effectiveFlightStatus w)
    else mkOutcome (set_calculateCourseStep 0 (set_positionHoldLast 0 (stamp st w)))
           (AlarmsClear SYSTEMALARMS_ALARM_GUIDANCE (failsafeWorld w))
           (failsafeEvents w ++ [EvAlarmsClear SYSTEMALARMS_ALARM_GUIDANCE])
           (ccguidanceSettingsObj w).
Proof.
  unfold rate_gate_closed, ccguidanceTask. intros H.
  cbv zeta in *. rewrite H.
  unfold effectiveFlightStatus, failsafeWorld, failsafeEvents, effectiveFlightStatus,
    failsafe_active, stamp.
  destruct (negb (AlarmSeverity_eqb (AlarmsGet SYSTEMALARMS_ALARM_MANUALCONTROL w) SYSTEMALARMS_ALARM_OK)
            && Bool.eqb (failesaveEnableRTB (ccguidanceSettingsObj w)) true);
    destruct (lastUpdateTime st =? 0); reflexivity.
Qed.

(** [selectTarget] touches the desired position and [positionHoldLast] only. *)
Lemma selectTarget_frame fs cc p st :
  let st' := selectTarget fs cc p st in
  calculateCourseStep st' = calculateCourseStep st
  /\ lastUpdateTime st' = lastUpdateTime st
  /\ StateSaveCurrentPositionToRTB st' = StateSaveCurrentPositionToRTB st
  /\ courseTrue st' = courseTrue st
  /\ courseRelative st' = courseRelative st
  /\ diffHeadingYaw st' = diffHeadingYaw st
  /\ DistanceToBase st' = DistanceToBase st
  /\ positionActualNorth st' = positionActualNorth st
  /\ positionActualEast st' = positionActualEast st.
Proof.
  unfold selectTarget. cbv zeta. split_ifs; cbn; repeat split; reflexivity.
Qed.

Lemma selectTarget_hold fs cc p st :
  positionHoldLast (selectTarget fs cc p st)
  = if negb (positionHoldLast st =? 1) && holdRequested fs cc then 1
    else if negb (positionHoldLast st =? 2) && homeRequested fs cc then 2
    else positionHoldLast st.
Proof.
  unfold selectTarget, holdRequested, homeRequested. cbv zeta. split_ifs; reflexivity.
Qed.

Lemma selectTarget_target fs cc p st :
  desiredTarget (selectTarget fs cc p st)
  = if negb (positionHoldLast st =? 1) && holdRequested fs cc then targetOfFix p
    else if negb (positionHoldLast st =? 2) && homeRequested fs cc
    then (degrees (HomeLocationLatitude cc),
          degrees (HomeLocationLongitude cc),
          (HomeLocationAltitude cc + ReturnTobaseAltitudeOffset cc)%cf)
    else desiredTarget st.
Proof.
  unfold selectTarget, holdRequested, homeRequested, desiredTarget, targetOfFix.
  cbv zeta. split_ifs; reflexivity.
Qed.

(** The integer statics follow [control_step]. *)
Lemma control_sim (st : Statics) (w : World) :
  control (out_statics (task st w)) = cstep (control st) w.
Proof.
  destruct (gate_closed st w) eqn:Hg.
  - rewrite task_gate_closed by exact Hg.
    rewrite rate_gate_closed_eq in Hg.
    unfold control_step, control. cbv zeta.
    cbn [c_lastUpdateTime c_positionHoldLast c_calculateCourseStep c_StateSave out_statics].
    rewrite Hg. destruct (lastUpdateTime st =? 0); reflexivity.
  - rewrite task_gate_open by exact Hg.
    rewrite rate_gate_closed_eq in Hg.
    unfold control_step, control. cbv zeta.
    cbn [c_lastUpdateTime c_positionHoldLast c_calculateCourseStep c_StateSave].
    rewrite Hg.
    destruct (guard_ok (effectiveFlightStatus w) (systemSettingsObj w)); [|reflexivity].
    unfold guidance, fix3D. cbv zeta.
    set (st1 := selectTarget _ _ _ _).
    assert (Hf := selectTarget_frame (effectiveFlightStatus w) (ccguidanceSettingsObj w)
                    (gpsPositionObj (failsafeWorld w)) (stamp st w)).
    assert (Hh := selectTarget_hold (effectiveFlightStatus w) (ccguidanceSettingsObj w)
                    (gpsPositionObj (failsafeWorld w)) (stamp st w)).
    fold st1 in Hf, Hh. cbv zeta in Hf.
    destruct Hf as (Hs & Hl & Hv & _).
    replace (gpsPositionObj (failsafeWorld w)) with (gpsPositionObj w) in *
      by (unfold failsafeWorld; destruct (failsafe_active w); reflexivity).
    cbn [stamp positionHoldLast set_lastUpdateTime calculateCourseStep lastUpdateTime
         StateSaveCurrentPositionToRTB] in Hs, Hl, Hv, Hh.
    rewrite <- Hh, <- Hs, <- Hv.
    destruct (GPSPositionStatus_eqb (Status (gpsPositionObj w)) GPSPOSITION_STATUS_FIX3D).
    + remember (calculateCourseStep st1) as z eqn:Ez. symmetry in Ez.
      switch_cases z; unfold setpoint3D, publish; cbn; rewrite ?Ez;
        split_ifs; cbn; rewrite ?Hl, ?Ez; reflexivity.
    + unfold fallback, publish; cbn; rewrite ?Hl; reflexivity.
Qed.

Lemma failsafeWorld_frame (w : World) :
  ccguidanceSettingsObj (failsafeWorld w) = ccguidanceSettingsObj w
  /\ systemSettingsObj (failsafeWorld w) = systemSettingsObj w
  /\ gpsPositionObj (failsafeWorld w) = gpsPositionObj w
  /\ stabilizationDesiredObj (failsafeWorld w) = stabilizationDesiredObj w
  /\ manualControlCommandObj (failsafeWorld w) = manualControlCommandObj w
  /\ attitudeActualObj (failsafeWorld w) = attitudeActualObj w
  /\ alarmGuidance (failsafeWorld w) = alarmGuidance w
  /\ flightStatusObj (failsafeWorld w) = effectiveFlightStatus w.
Proof.
  unfold failsafeWorld, effectiveFlightStatus.
  destruct (failsafe_active w); repeat split; reflexivity.
Qed.

Lemma atSwitch_frame (st : Statics) (w : World) :
  calculateCourseStep (atSwitch st w) = calculateCourseStep st
  /\ StateSaveCurrentPositionToRTB (atSwitch st w) = StateSaveCurrentPositionToRTB st
  /\ courseTrue (atSwitch st w) = courseTrue st
  /\ courseRelative (atSwitch st w) = courseRelative st
  /\ diffHeadingYaw (atSwitch st w) = diffHeadingYaw st
  /\ DistanceToBase (atSwitch st w) = DistanceToBase st
  /\ positionActualNorth (atSwitch st w) = positionActualNorth st
  /\ positionActualEast (atSwitch st w) = positionActualEast st.
Proof.
  unfold atSwitch.
  destruct (selectTarget_frame (effectiveFlightStatus w) (ccguidanceSettingsObj w)
              (gpsPositionObj w) (stamp st w)) as (H1 & _ & H3 & H4 & H5 & H6 & H7 & H8 & H9).
  repeat split; assumption.
Qed.

Lemma task_enters_guidance (st : Statics) (w : World) :
  gate_closed st w = false ->
  guard_ok (effectiveFlightStatus w) (systemSettingsObj w) = true ->
  task st w
  = guidance (stamp st w) (failsafeWorld w) (failsafeEvents w)
      (ccguidanceSettingsObj w) (effectiveFlightStatus w).
Proof. intros Hg Hq. rewrite task_gate_open by exact Hg. now rewrite Hq. Qed.

(** Step 0: snapshot, home latch, no publication. *)
Lemma task_at_step0 (st : Statics) (w : World) :
  gate_closed st w = false ->
  guard_ok (effectiveFlightStatus w) (systemSettingsObj w) = true ->
  fix3D w = true ->
  calculateCourseStep st = 0 ->
  task st w
  = let positionActual := gpsPositionObj w in
    let st1 := set_positionActualNorth (degrees (Latitude positionActual)) (atSwitch st w) in
    let st1 := set_positionActualEast (degrees (Longitude positionActual)) st1 in
    let latch := Armed_eqb (Armed (effectiveFlightStatus w)) FLIGHTSTATUS_ARMED_DISARMED
                 && (StateSaveCurrentPositionToRTB st =? 0) in
    mkOutcome
      (set_calculateCourseStep 1 (if latch then set_StateSaveCurrentPositionToRTB 1 st1 else st1))
      (failsafeWorld w) (failsafeEvents w)
      (if latch
       then set_HomeLocation (Latitude positionActual) (Longitude positionActual)
              (Altitude positionActual) true (ccguidanceSettingsObj w)
       else ccguidanceSettingsObj w).
Proof.
  intros Hg Hq Hf Hs. rewrite task_enters_guidance by assumption.
  destruct (atSwitch_frame st w) as (E1 & E2 & _).
  destruct (failsafeWorld_frame w) as (_ & _ & Egps & _).
  unfold guidance. cbv zeta. rewrite Egps. fold (atSwitch st w).
  unfold fix3D in Hf. rewrite Hf, E1, Hs. cbn. rewrite E2.
  destruct (Armed_eqb (Armed (effectiveFlightStatus w)) FLIGHTSTATUS_ARMED_DISARMED
            && (StateSaveCurrentPositionToRTB st =? 0)); cbn; rewrite E1, Hs; reflexivity.
Qed.

(** Step 1: distance to the target and heading error, no publication. *)
Lemma task_at_step1 (st : Statics) (w : World) :
  gate_closed st w = false ->
  guard_ok (effectiveFlightStatus w) (systemSettingsObj w) = true ->
  fix3D w = true ->
  calculateCourseStep st = 1 ->
  task st w
  = let st1 := atSwitch st w in
    let st1 := set_DistanceToBase
                 (sphereDistance (positionActualNorth st) (positionActualEast st)
                    (positionDesiredNorth st1) (positionDesiredEast st1)) st1 in
    let st1 :=
      if fgt (Groundspeed (gpsPositionObj w)) (GroundspeedMinimal (ccguidanceSettingsObj w))
      then set_diffHeadingYaw
             (wrap180 (att_Yaw (attitudeActualObj w) - Heading (gpsPositionObj w))%cf) st1
      else st1 in
    mkOutcome (set_calculateCourseStep 2 st1) (failsafeWorld w) (failsafeEvents w)
      (ccguidanceSettingsObj w).
Proof.
  intros Hg Hq Hf Hs. rewrite task_enters_guidance by assumption.
  destruct (atSwitch_frame st w) as (E1 & _ & _ & _ & _ & _ & E7 & E8).
  destruct (failsafeWorld_frame w) as (_ & _ & Egps & _ & _ & Eatt & _).
  unfold guidance. cbv zeta. rewrite Egps, Eatt. fold (atSwitch st w).
  unfold fix3D in Hf. rewrite Hf, E1, Hs, E7, E8. cbn.
  destruct (fgt (Groundspeed (gpsPositionObj w)) (GroundspeedMinimal (ccguidanceSettingsObj w)));
    cbn; rewrite E1, Hs; reflexivity.
Qed.

(** Step 2: true course, then the setpoint of lines 239-274. *)
Lemma task_at_step2 (st : Statics) (w : World) :
  gate_closed st w = false ->
  guard_ok (effectiveFlightStatus w) (systemSettingsObj w) = true ->
  fix3D w = true ->
  calculateCourseStep st = 2 ->
  task st w
  = let st1 := atSwitch st w in
    let st1 := set_courseTrue
                 (sphereCourse (positionActualNorth st) (positionActualEast st)
                    (positionDesiredNorth st1) (positionDesiredEast st1)
                    (DistanceToBase st)) st1 in
    setpoint3D st1 (failsafeWorld w) (failsafeEvents w) (ccguidanceSettingsObj w)
      (gpsPositionObj w)
      (set_StabilizationMode_PITCH STABILIZATIONDESIRED_STABILIZATIONMODE_ATTITUDE
         (set_StabilizationMode_ROLL STABILIZATIONDESIRED_STABILIZATIONMODE_ATTITUDE
            (stabilizationDesiredObj w))).
Proof.
  intros Hg Hq Hf Hs. rewrite task_enters_guidance by assumption.
  destruct (atSwitch_frame st w) as (E1 & _ & _ & _ & _ & E6 & E7 & E8).
  destruct (failsafeWorld_frame w) as (_ & _ & Egps & Estab & _).
  unfold guidance. cbv zeta. rewrite Egps, Estab. fold (atSwitch st w).
  unfold fix3D in Hf. rewrite Hf, E1, Hs, E6, E7, E8. reflexivity.
Qed.

(** No 3D fix: the fallback setpoint. *)
Lemma task_without_fix (st : Statics) (w : World) :
  gate_closed st w = false ->
  guard_ok (effectiveFlightStatus w) (systemSettingsObj w) = true ->
  fix3D w = false ->
  task st w
  = fallback (atSwitch st w) (failsafeWorld w) (failsafeEvents w) (ccguidanceSettingsObj w)
      (set_StabilizationMode_PITCH STABILIZATIONDESIRED_STABILIZATIONMODE_ATTITUDE
         (set_StabilizationMode_ROLL STABILIZATIONDESIRED_STABILIZATIONMODE_ATTITUDE
            (stabilizationDesiredObj w))).
Proof.
  intros Hg Hq Hf. rewrite task_enters_guidance by assumption.
  destruct (failsafeWorld_frame w) as (_ & _ & Egps & Estab & _).
  unfold guidance. cbv zeta. rewrite Egps, Estab. fold (atSwitch st w).
  unfold fix3D in Hf. rewrite Hf. reflexivity.
Qed.

(** ** Runs *)

Lemma run_control (ws : list World) :
  forall st, control (run PARSE_FLIGHT_MODE portTICK_RATE_MS st ws)
             = control_run PARSE_FLIGHT_MODE portTICK_RATE_MS (control st) ws.
Proof.
  induction ws as [|w ws IH]; intros st; cbn [run control_run]; [reflexivity|].
  now rewrite IH, control_sim.
Qed.

Lemma task_step (st : Statics) (w : World) :
  calculateCourseStep (out_statics (task st w))
  = if gate_closed st w then calculateCourseStep st
    else if guard_ok (effectiveFlightStatus w) (systemSettingsObj w) && fix3D w
         then match calculateCourseStep st with 0 => 1 | 1 => 2 | _ => 0 end
         else 0.
Proof.
  change (calculateCourseStep (out_statics (task st w)))
    with (c_calculateCourseStep (control (out_statics (task st w)))).
  rewrite control_sim, rate_gate_closed_eq. unfold control_step, control. cbv zeta.
  cbn [c_lastUpdateTime c_positionHoldLast c_calculateCourseStep c_StateSave].
  destruct (_ <? _); [reflexivity|].
  destruct (guard_ok _ _); [|reflexivity].
  destruct (fix3D w); [|reflexivity].
  switch_cases (calculateCourseStep st); reflexivity.
Qed.

Lemma task_flag (st : Statics) (w : World) :
  StateSaveCurrentPositionToRTB (out_statics (task st w))
  = if latch_cond PARSE_FLIGHT_MODE portTICK_RATE_MS st w then 1
    else StateSaveCurrentPositionToRTB st.
Proof.
  change (StateSaveCurrentPositionToRTB (out_statics (task st w)))
    with (c_StateSave (control (out_statics (task st w)))).
  rewrite control_sim. unfold latch_cond, processing. rewrite rate_gate_closed_eq.
  unfold control_step, control. cbv zeta.
  cbn [c_lastUpdateTime c_positionHoldLast c_calculateCourseStep c_StateSave].
  destruct (_ <? _); [reflexivity|].
  destruct (guard_ok _ _); [|reflexivity].
  destruct (fix3D w); [|reflexivity].
  switch_cases (calculateCourseStep st); reflexivity.
Qed.

Lemma task_hold (st : Statics) (w : World) :
  positionHoldLast (out_statics (task st w))
  = if gate_closed st w then positionHoldLast st
    else if guard_ok (effectiveFlightStatus w) (systemSettingsObj w)
         then positionHoldLast (atSwitch st w)
         else 0.
Proof.
  change (positionHoldLast (out_statics (task st w)))
    with (c_positionHoldLast (control (out_statics (task st w)))).
  rewrite control_sim, rate_gate_closed_eq. unfold control_step, control, atSwitch. cbv zeta.
  rewrite selectTarget_hold.
  cbn [c_lastUpdateTime c_positionHoldLast c_calculateCourseStep c_StateSave stamp
       positionHoldLast set_lastUpdateTime].
  destruct (_ <? _); [reflexivity|].
  destruct (guard_ok _ _); [|reflexivity].
  destruct (fix3D w); [|reflexivity].
  switch_cases (calculateCourseStep st); reflexivity.
Qed.

Lemma task_target (st : Statics) (w : World) :
  desiredTarget (out_statics (task st w))
  = if gate_closed st w then desiredTarget st
    else if guard_ok (effectiveFlightStatus w) (systemSettingsObj w)
         then desiredTarget (atSwitch st w)
         else desiredTarget st.
Proof.
  destruct (gate_closed st w) eqn:Hg.
  - rewrite task_gate_closed by exact Hg. cbn. destruct (lastUpdateTime st =? 0); reflexivity.
  - rewrite task_gate_open by exact Hg.
    destruct (guard_ok _ _); [|reflexivity].
    destruct (failsafeWorld_frame w) as (_ & _ & Egps & _).
    unfold guidance. cbv zeta. rewrite Egps. fold (atSwitch st w).
    destruct (GPSPositionStatus_eqb _ _).
    + remember (calculateCourseStep (atSwitch st w)) as z eqn:Ez.
      switch_cases z; unfold setpoint3D, publish, desiredTarget; cbn; split_ifs; reflexivity.
    + reflexivity.
Qed.

(** The settings object is read and never written. *)
Lemma settings_store_untouched (st : Statics) (w : World) :
  ccguidanceSettingsObj (out_world (task st w)) = ccguidanceSettingsObj w
  /\ forall d, ~ In (EvCCGuidanceSettingsSet d) (out_events (task st w)).
Proof.
  assert (Hev : forall d, ~ In (EvCCGuidanceSettingsSet d) (failsafeEvents w)).
  { intros d. unfold failsafeEvents. destruct (failsafe_active w); cbn; intuition discriminate. }
  destruct (failsafeWorld_frame w) as (Ecc & _ & Egps & _).
  destruct (gate_closed st w) eqn:Hg.
  - rewrite task_gate_closed by exact Hg. cbn. split; [reflexivity|tauto].
  - rewrite task_gate_open by exact Hg.
    destruct (guard_ok _ _).
    + unfold guidance. cbv zeta.
      destruct (GPSPositionStatus_eqb _ _).
      * remember (calculateCourseStep (selectTarget (effectiveFlightStatus w)
                    (ccguidanceSettingsObj w) (gpsPositionObj (failsafeWorld w)) (stamp st w)))
          as z eqn:Ez.
        switch_cases z; unfold setpoint3D, publish; cbn; (split; [exact Ecc|]);
          intros d Hin; repeat (apply in_app_or in Hin; destruct Hin as [Hin|Hin]);
          try (now apply (Hev d)); cbn in Hin; intuition discriminate.
      * unfold fallback, publish; cbn. split; [exact Ecc|].
        intros d Hin; repeat (apply in_app_or in Hin; destruct Hin as [Hin|Hin]);
          try (now apply (Hev d)); cbn in Hin; intuition discriminate.
    + cbn. split; [exact Ecc|].
      intros d Hin; repeat (apply in_app_or in Hin; destruct Hin as [Hin|Hin]);
        try (now apply (Hev d)); cbn in Hin; intuition discriminate.
Qed.

(** ** The course-step counter *)

Lemma step_range_kept (st : Statics) (w : World) :
  0 <= calculateCourseStep st <= 2 ->
  0 <= calculateCourseStep (out_statics (task st w)) <= 2.
Proof.
  intros H. rewrite task_step. split_ifs; try lia.
  switch_cases (calculateCourseStep st); lia.
Qed.

Lemma run_step_range (ws : list World) :
  forall st, 0 <= calculateCourseStep st <= 2 ->
  0 <= calculateCourseStep (run PARSE_FLIGHT_MODE portTICK_RATE_MS st ws) <= 2.
Proof.
  induction ws as [|w ws IH]; intros st H; cbn [run]; [exact H|].
  apply IH, step_range_kept, H.
Qed.

(** C4: after any run from the initial statics the counter is 0, 1 or 2.
    A call that finds the rate gate closed leaves it alone.  A gated call
    that passes the guard with a 3D fix moves it 0 to 1, 1 to 2, and from 2
    (the step whose setpoint is published) back to 0; a gated call whose
    guard fails, or whose fix is not 3D, puts it at 0. *)
Theorem courseStep_cycle (ws : list World) (w : World) :
  let st := run PARSE_FLIGHT_MODE portTICK_RATE_MS statics0 ws in
  let o := task st w in
  let st' := out_statics o in
  (calculateCourseStep st = 0 \/ calculateCourseStep st = 1 \/ calculateCourseStep st = 2)
  /\ (gate_closed st w = true -> calculateCourseStep st' = calculateCourseStep st)
  /\ (gate_closed st w = false ->
      guard_ok (effectiveFlightStatus w) (systemSettingsObj w) = true ->
      fix3D w = true ->
      (calculateCourseStep st = 0 -> calculateCourseStep st' = 1)
      /\ (calculateCourseStep st = 1 -> calculateCourseStep st' = 2)
      /\ (calculateCourseStep st = 2 ->
          calculateCourseStep st' = 0
          /\ In (EvStabilizationDesiredSet (stabilizationDesiredObj (out_world o))) (out_events o)))
  /\ (gate_closed st w = false ->
      guard_ok (effectiveFlightStatus w) (systemSettingsObj w) = false ->
      calculateCourseStep st' = 0)
  /\ (gate_closed st w = false ->
      guard_ok (effectiveFlightStatus w) (systemSettingsObj w) = true ->
      fix3D w = false ->
      calculateCourseStep st' = 0).
Proof.
  cbv zeta.
  set (st := run PARSE_FLIGHT_MODE portTICK_RATE_MS statics0 ws).
  assert (Hr : 0 <= calculateCourseStep st <= 2)
    by (apply run_step_range; cbn; lia).
  split; [lia|].
  split; [intros Hg; now rewrite task_step, Hg|].
  split; [intros Hg Hq Hf; repeat split|split].
  - intros Hs. now rewrite task_step, Hg, Hq, Hf, Hs.
  - intros Hs. now rewrite task_step, Hg, Hq, Hf, Hs.
  - now rewrite task_step, Hg, Hq, Hf, H.
  - rewrite task_at_step2 by assumption.
    unfold setpoint3D, publish. cbn. split_ifs; cbn; apply in_or_app; right; now left.
  - intros Hg Hq. now rewrite task_step, Hg, Hq.
  - intros Hg Hq Hf. now rewrite task_step, Hg, Hq, Hf.
Qed.

(** ** The guard *)

Lemma failsafeEvents_no_setpoint (w : World) :
  forall d, ~ In (EvStabilizationDesiredSet d) (failsafeEvents w).
Proof.
  intros d. unfold failsafeEvents. destruct (failsafe_active w); cbn; intuition discriminate.
Qed.

Lemma guard_false (fs : FlightStatusData) (ss : SystemSettingsData) :
  (PARSE_FLIGHT_MODE (FlightMode fs) <> FLIGHTMODE_GUIDANCE
   \/ (AirframeType ss <> SYSTEMSETTINGS_AIRFRAMETYPE_FIXEDWING
       /\ AirframeType ss <> SYSTEMSETTINGS_AIRFRAMETYPE_FIXEDWINGELEVON
       /\ AirframeType ss <> SYSTEMSETTINGS_AIRFRAMETYPE_FIXEDWINGVTAIL)) ->
  guard_ok fs ss = false.
Proof.
  unfold guard. intros [H|(H1 & H2 & H3)].
  - destruct (PARSE_FLIGHT_MODE (FlightMode fs)); try reflexivity. now elim H.
  - destruct (AirframeType ss); cbn; try apply andb_false_r; congruence.
Qed.

(** C6: in a gated call whose guard fails (the flight mode is not on the
    guidance path, or the airframe is not one of the three fixed-wing types),
    the stabilization setpoint object is not written, the guidance alarm is
    cleared and [positionHoldLast] is back at its initial value 0. *)
Theorem guard_failure_frame (st : Statics) (w : World) :
  gate_closed st w = false ->
  (PARSE_FLIGHT_MODE (FlightMode (effectiveFlightStatus w)) <> FLIGHTMODE_GUIDANCE
   \/ (AirframeType (systemSettingsObj w) <> SYSTEMSETTINGS_AIRFRAMETYPE_FIXEDWING
       /\ AirframeType (systemSettingsObj w) <> SYSTEMSETTINGS_AIRFRAMETYPE_FIXEDWINGELEVON
       /\ AirframeType (systemSettingsObj w) <> SYSTEMSETTINGS_AIRFRAMETYPE_FIXEDWINGVTAIL)) ->
  let o := task st w in
  stabilizationDesiredObj (out_world o) = stabilizationDesiredObj w
  /\ (forall d, ~ In (EvStabilizationDesiredSet d) (out_events o))
  /\ alarmGuidance (out_world o) = SYSTEMALARMS_ALARM_OK
  /\ In (EvAlarmsClear SYSTEMALARMS_ALARM_GUIDANCE) (out_events o)
  /\ positionHoldLast (out_statics o) = 0
  /\ positionHoldLast statics0 = 0.
Proof.
  intros Hg Hno. cbv zeta.
  assert (Hq : guard_ok (effectiveFlightStatus w) (systemSettingsObj w) = false)
    by (apply guard_false; exact Hno).
  rewrite task_gate_open by exact Hg. rewrite Hq.
  destruct (failsafeWorld_frame w) as (_ & _ & _ & Estab & _).
  cbn. repeat split.
  - exact Estab.
  - intros d Hin. apply in_app_or in Hin. destruct Hin as [Hin|Hin].
    + now apply (failsafeEvents_no_setpoint w d).
    + cbn in Hin. intuition discriminate.
  - apply in_or_app. right. now left.
Qed.

(** ** The fallback *)

(** C7: in a gated call that passes the guard while the fix is not 3D, the
    setpoint published by that very call has yaw 0, the climb pitch, the
    maximal roll and yaw mode Rate, and the guidance alarm is at Warning. *)
Theorem fallback_setpoint (st : Statics) (w : World) :
  gate_closed st w = false ->
  guard_ok (effectiveFlightStatus w) (systemSettingsObj w) = true ->
  Status (gpsPositionObj w) <> GPSPOSITION_STATUS_FIX3D ->
  let o := task st w in
  let sd := stabilizationDesiredObj (out_world o) in
  In (EvStabilizationDesiredSet sd) (out_events o)
  /\ Yaw sd = Fin 0
  /\ Pitch sd = Pitch_CLIMB (ccguidanceSettingsObj w)
  /\ Roll sd = Roll_MAX (ccguidanceSettingsObj w)
  /\ StabilizationMode_YAW sd = STABILIZATIONDESIRED_STABILIZATIONMODE_RATE
  /\ alarmGuidance (out_world o) = SYSTEMALARMS_ALARM_WARNING
  /\ In (EvAlarmsSet SYSTEMALARMS_ALARM_GUIDANCE SYSTEMALARMS_ALARM_WARNING) (out_events o).
Proof.
  intros Hg Hq Hs. cbv zeta.
  assert (Hf : fix3D w = false).
  { unfold fix3D. destruct (Status (gpsPositionObj w)); try reflexivity. now elim Hs. }
  rewrite task_without_fix by assumption.
  unfold fallback, publish. cbn. repeat split.
  - apply in_or_app. right. now left.
  - apply in_or_app. left. apply in_or_app. right. now left.
Qed.

(** ** The failsafe *)

(** C8: in a gated call with the manual-control alarm not OK and
    [failesaveEnableRTB] set, the flight mode is replaced by ReturnToBase and
    the flight status is written back first; the guard is then evaluated on
    the forced status, and a later call that reads the stored status finds
    ReturnToBase. *)
Theorem failsafe_forces_return_to_base (st : Statics) (w : World) :
  gate_closed st w = false ->
  AlarmsGet SYSTEMALARMS_ALARM_MANUALCONTROL w <> SYSTEMALARMS_ALARM_OK ->
  failesaveEnableRTB (ccguidanceSettingsObj w) = true ->
  let o := task st w in
  let forced := set_FlightMode FLIGHTSTATUS_FLIGHTMODE_RETURNTOBASE (flightStatusObj w) in
  flightStatusObj (out_world o) = forced
  /\ FlightMode (flightStatusObj (out_world o)) = FLIGHTSTATUS_FLIGHTMODE_RETURNTOBASE
  /\ (exists rest, out_events o = EvFlightStatusSet forced :: rest)
  /\ o = (if guard_ok forced (systemSettingsObj w)
          then guidance (stamp st w) (FlightStatusSet forced w) [EvFlightStatusSet forced]
                 (ccguidanceSettingsObj w) forced
          else mkOutcome (set_calculateCourseStep 0 (set_positionHoldLast 0 (stamp st w)))
                 (AlarmsClear SYSTEMALARMS_ALARM_GUIDANCE (FlightStatusSet forced w))
                 [EvFlightStatusSet forced; EvAlarmsClear SYSTEMALARMS_ALARM_GUIDANCE]
                 (ccguidanceSettingsObj w))
  /\ (forall w2, flightStatusObj w2 = flightStatusObj (out_world o) ->
                 FlightMode (effectiveFlightStatus w2) = FLIGHTSTATUS_FLIGHTMODE_RETURNTOBASE).
Proof.
  intros Hg Ha He. cbv zeta.
  set (forced := set_FlightMode FLIGHTSTATUS_FLIGHTMODE_RETURNTOBASE (flightStatusObj w)).
  assert (Hact : failsafe_active w = true).
  { unfold failsafe_active. rewrite He.
    destruct (AlarmsGet SYSTEMALARMS_ALARM_MANUALCONTROL w); try reflexivity. now elim Ha. }
  assert (Heff : effectiveFlightStatus w = forced)
    by (unfold effectiveFlightStatus; now rewrite Hact).
  assert (Hw : failsafeWorld w = FlightStatusSet forced w)
    by (unfold failsafeWorld; now rewrite Hact, Heff).
  assert (Hev : failsafeEvents w = [EvFlightStatusSet forced])
    by (unfold failsafeEvents; now rewrite Hact, Heff).
  assert (Hform : task st w
    = (if guard_ok forced (systemSettingsObj w)
       then guidance (stamp st w) (FlightStatusSet forced w) [EvFlightStatusSet forced]
              (ccguidanceSettingsObj w) forced
       else mkOutcome (set_calculateCourseStep 0 (set_positionHoldLast 0 (stamp st w)))
              (AlarmsClear SYSTEMALARMS_ALARM_GUIDANCE (FlightStatusSet forced w))
              [EvFlightStatusSet forced; EvAlarmsClear SYSTEMALARMS_ALARM_GUIDANCE]
              (ccguidanceSettingsObj w))).
  { rewrite task_gate_open by exact Hg. now rewrite Heff, Hw, Hev. }
  assert (Hstore : flightStatusObj (out_world (task st w)) = forced).
  { rewrite Hform. destruct (guard_ok _ _); [|reflexivity].
    unfold guidance. cbv zeta. destruct (GPSPositionStatus_eqb _ _).
    - remember (calculateCourseStep (selectTarget _ _ _ _)) as z eqn:Ez.
      switch_cases z; unfold setpoint3D, publish; cbn; reflexivity.
    - reflexivity. }
  split; [exact Hstore|]. split; [now rewrite Hstore|].
  split.
  { rewrite Hform. destruct (guard_ok _ _); [|eexists; reflexivity].
    unfold guidance. cbv zeta. destruct (GPSPositionStatus_eqb _ _).
    - remember (calculateCourseStep (selectTarget _ _ _ _)) as z eqn:Ez.
      switch_cases z; unfold setpoint3D, publish; cbn; eexists; reflexivity.
    - unfold fallback, publish; cbn; eexists; reflexivity. }
  split; [exact Hform|].
  intros w2 E2. unfold effectiveFlightStatus.
  destruct (failsafe_active w2); [reflexivity|]. now rewrite E2, Hstore.
Qed.

(** ** The target selector *)

Lemma atSwitch_target (st : Statics) (w : World) :
  desiredTarget (atSwitch st w)
  = if negb (positionHoldLast st =? 1)
       && holdRequested (effectiveFlightStatus w) (ccguidanceSettingsObj w)
    then targetOfFix (gpsPositionObj w)
    else if negb (positionHoldLast st =? 2)
            && homeRequested (effectiveFlightStatus w) (ccguidanceSettingsObj w)
    then (degrees (HomeLocationLatitude (ccguidanceSettingsObj w)),
          degrees (HomeLocationLongitude (ccguidanceSettingsObj w)),
          (HomeLocationAltitude (ccguidanceSettingsObj w)
           + ReturnTobaseAltitudeOffset (ccguidanceSettingsObj w))%cf)
    else desiredTarget st.
Proof. unfold atSwitch. now rewrite selectTarget_target. Qed.

Lemma atSwitch_hold (st : Statics) (w : World) :
  positionHoldLast (atSwitch st w)
  = if negb (positionHoldLast st =? 1)
       && holdRequested (effectiveFlightStatus w) (ccguidanceSettingsObj w)
    then 1
    else if negb (positionHoldLast st =? 2)
            && homeRequested (effectiveFlightStatus w) (ccguidanceSettingsObj w)
    then 2
    else positionHoldLast st.
Proof. unfold atSwitch. now rewrite selectTarget_hold. Qed.

(** Entering the hold: the target is the fix of this call. *)
Lemma hold_entered (st : Statics) (w : World) :
  gate_closed st w = false ->
  guard_ok (effectiveFlightStatus w) (systemSettingsObj w) = true ->
  holdRequested (effectiveFlightStatus w) (ccguidanceSettingsObj w) = true ->
  positionHoldLast st <> 1 ->
  desiredTarget (out_statics (task st w)) = targetOfFix (gpsPositionObj w)
  /\ positionHoldLast (out_statics (task st w)) = 1.
Proof.
  intros Hg Hq Hh Hp.
  rewrite task_target, task_hold, Hg, Hq, atSwitch_target, atSwitch_hold, Hh.
  replace (positionHoldLast st =? 1) with false by (symmetry; apply Z.eqb_neq; exact Hp).
  split; reflexivity.
Qed.

(** Staying in the hold: the target is kept. *)
Lemma hold_kept (st : Statics) (w : World) :
  positionHoldLast st = 1 ->
  (gate_closed st w = true
   \/ (guard_ok (effectiveFlightStatus w) (systemSettingsObj w) = true
       /\ holdRequested (effectiveFlightStatus w) (ccguidanceSettingsObj w) = true)) ->
  desiredTarget (out_statics (task st w)) = desiredTarget st
  /\ positionHoldLast (out_statics (task st w)) = 1.
Proof.
  intros Hp H. rewrite task_target, task_hold.
  destruct (gate_closed st w); [now split|].
  destruct H as [H|[Hq Hh]]; [discriminate|].
  rewrite Hq, atSwitch_target, atSwitch_hold, Hp.
  assert (Hhome : homeRequested (effectiveFlightStatus w) (ccguidanceSettingsObj w) = false).
  { unfold holdRequested, homeRequested in *.
    destruct (FlightMode (effectiveFlightStatus w)),
             (HomeLocationSet (ccguidanceSettingsObj w)); cbn in *; congruence. }
  rewrite Hhome. cbn. now split.
Qed.

Lemma hold_kept_run (ws : list World) :
  forall st, positionHoldLast st = 1 ->
  stays_in_hold PARSE_FLIGHT_MODE portTICK_RATE_MS st ws ->
  desiredTarget (run PARSE_FLIGHT_MODE portTICK_RATE_MS st ws) = desiredTarget st
  /\ positionHoldLast (run PARSE_FLIGHT_MODE portTICK_RATE_MS st ws) = 1.
Proof.
  induction ws as [|w ws IH]; intros st Hp Hs; cbn [run stays_in_hold] in *; [now split|].
  destruct Hs as [Hw Hrest].
  destruct (hold_kept st w Hp Hw) as [Et Eh].
  destruct (IH _ Eh Hrest) as [Et' Eh'].
  split; [now rewrite Et', Et|exact Eh'].
Qed.

(** Leaving the hold: the guard fails, or the mode is ReturnToBase with a
    home location. *)
Lemma hold_left (st : Statics) (w : World) :
  positionHoldLast st = 1 ->
  gate_closed st w = false ->
  (guard_ok (effectiveFlightStatus w) (systemSettingsObj w) = false
   \/ homeRequested (effectiveFlightStatus w) (ccguidanceSettingsObj w) = true) ->
  positionHoldLast (out_statics (task st w)) <> 1.
Proof.
  intros Hp Hg H. rewrite task_hold, Hg.
  destruct (guard_ok _ _); [|lia].
  destruct H as [H|H]; [discriminate|].
  rewrite atSwitch_hold, Hp, H. cbn. lia.
Qed.

(** Passing through another mode of the guidance branch: the guard passes
    and neither target is asked for, so nothing of the selector changes. *)
Lemma hold_not_left (st : Statics) (w : World) :
  gate_closed st w = false ->
  guard_ok (effectiveFlightStatus w) (systemSettingsObj w) = true ->
  holdRequested (effectiveFlightStatus w) (ccguidanceSettingsObj w) = false ->
  homeRequested (effectiveFlightStatus w) (ccguidanceSettingsObj w) = false ->
  desiredTarget (out_statics (task st w)) = desiredTarget st
  /\ positionHoldLast (out_statics (task st w)) = positionHoldLast st.
Proof.
  intros Hg Hq Hh Hr.
  rewrite task_target, task_hold, Hg, Hq, atSwitch_target, atSwitch_hold, Hh, Hr.
  rewrite !andb_false_r. now split.
Qed.

(** C5, amended: a gated call that passes the guard with position hold
    requested (mode PositionHold, or ReturnToBase without home location) while
    [positionHoldLast] is not 1 captures the fix of that call as the desired
    target, the altitude being the [float] sum altitude + geoid separation + 1,
    and sets [positionHoldLast] to 1.  From then on, as long as every call
    either finds the rate gate closed or passes the guard with the hold
    requested, the target does not change.  The hold is left by a gated call
    whose guard fails or that selects the home target: the next gated call
    that requests the hold captures the fix again.  It is not left by a gated
    call that passes the guard in a mode asking for neither target (another
    mode of the guidance branch): [positionHoldLast] stays 1, and the next
    call that requests the hold keeps the old target. *)
Theorem position_hold_capture (st : Statics) (w : World) :
  gate_closed st w = false ->
  guard_ok (effectiveFlightStatus w) (systemSettingsObj w) = true ->
  holdRequested (effectiveFlightStatus w) (ccguidanceSettingsObj w) = true ->
  let st' := out_statics (task st w) in
  positionHoldLast st' = 1
  /\ (positionHoldLast st <> 1 ->
      desiredTarget st'
      = (degrees (Latitude (gpsPositionObj w)),
         degrees (Longitude (gpsPositionObj w)),
         (Altitude (gpsPositionObj w) + GeoidSeparation (gpsPositionObj w) + Fin 1)%cf))
  /\ (positionHoldLast st = 1 -> desiredTarget st' = desiredTarget st)
  /\ (forall ws, stays_in_hold PARSE_FLIGHT_MODE portTICK_RATE_MS st' ws ->
        desiredTarget (run PARSE_FLIGHT_MODE portTICK_RATE_MS st' ws) = desiredTarget st'
        /\ positionHoldLast (run PARSE_FLIGHT_MODE portTICK_RATE_MS st' ws) = 1)
  /\ (forall w_out w_in,
        gate_closed st' w_out = false ->
        (guard_ok (effectiveFlightStatus w_out) (systemSettingsObj w_out) = false
         \/ homeRequested (effectiveFlightStatus w_out) (ccguidanceSettingsObj w_out) = true) ->
        let st2 := out_statics (task st' w_out) in
        gate_closed st2 w_in = false ->
        guard_ok (effectiveFlightStatus w_in) (systemSettingsObj w_in) = true ->
        holdRequested (effectiveFlightStatus w_in) (ccguidanceSettingsObj w_in) = true ->
        desiredTarget (out_statics (task st2 w_in)) = targetOfFix (gpsPositionObj w_in))
  /\ (forall w_out w_in,
        gate_closed st' w_out = false ->
        guard_ok (effectiveFlightStatus w_out) (systemSettingsObj w_out) = true ->
        holdRequested (effectiveFlightStatus w_out) (ccguidanceSettingsObj w_out) = false ->
        homeRequested (effectiveFlightStatus w_out) (ccguidanceSettingsObj w_out) = false ->
        let st2 := out_statics (task st' w_out) in
        positionHoldLast st2 = 1
        /\ desiredTarget st2 = desiredTarget st'
        /\ (gate_closed st2 w_in = false ->
            guard_ok (effectiveFlightStatus w_in) (systemSettingsObj w_in) = true ->
            holdRequested (effectiveFlightStatus w_in) (ccguidanceSettingsObj w_in) = true ->
            desiredTarget (out_statics (task st2 w_in)) = desiredTarget st')).
Proof.
  intros Hg Hq Hh. cbv zeta.
  assert (Hp' : positionHoldLast (out_statics (task st w)) = 1).
  { destruct (Z.eq_dec (positionHoldLast st) 1) as [E|E].
    - apply hold_kept; [exact E|right; now split].
    - now apply hold_entered. }
  split; [exact Hp'|].
  split; [intros Hp; now apply (hold_entered st w)|].
  split; [intros Hp; apply hold_kept; [exact Hp|right; now split]|].
  split; [intros ws Hs; now apply hold_kept_run|].
  split.
  - intros w_out w_in Hgo Hleave Hgi Hqi Hhi.
    apply hold_entered; try assumption.
    now apply hold_left.
  - intros w_out w_in Hgo Hqo Hho Hro.
    destruct (hold_not_left _ w_out Hgo Hqo Hho Hro) as [Et Ep].
    rewrite Hp' in Ep.
    split; [exact Ep|]. split; [exact Et|].
    intros Hgi Hqi Hhi.
    destruct (hold_kept _ w_in Ep (or_intror (conj Hqi Hhi))) as [Et2 _].
    now rewrite Et2.
Qed.

(** ** The three steps of the course computation *)

(** C9, amended: in a processing call (gate open, guard passed, 3D fix),
    step 0 takes the position snapshot; step 1 computes the distance to the
    target from that snapshot and the desired target and, when the ground
    speed exceeds the minimum, the heading error, and publishes nothing;
    step 2 computes only the true course, from the snapshot, the desired
    target and the distance stored by step 1, and goes on to publish the
    setpoint in the same call. *)
Theorem course_computation_steps (st : Statics) (w : World) :
  gate_closed st w = false ->
  guard_ok (effectiveFlightStatus w) (systemSettingsObj w) = true ->
  fix3D w = true ->
  let o := task st w in
  let st' := out_statics o in
  let target := atSwitch st w in
  (calculateCourseStep st = 0 ->
     positionActualNorth st' = degrees (Latitude (gpsPositionObj w))
     /\ positionActualEast st' = degrees (Longitude (gpsPositionObj w))
     /\ DistanceToBase st' = DistanceToBase st
     /\ diffHeadingYaw st' = diffHeadingYaw st
     /\ courseTrue st' = courseTrue st
     /\ out_events o = failsafeEvents w)
  /\ (calculateCourseStep st = 1 ->
     DistanceToBase st'
     = sphereDistance (positionActualNorth st) (positionActualEast st)
         (positionDesiredNorth target) (positionDesiredEast target)
     /\ diffHeadingYaw st'
        = (if fgt (Groundspeed (gpsPositionObj w)) (GroundspeedMinimal (ccguidanceSettingsObj w))
           then wrap180 (att_Yaw (attitudeActualObj w) - Heading (gpsPositionObj w))%cf
           else diffHeadingYaw st)
     /\ courseTrue st' = courseTrue st
     /\ positionActualNorth st' = positionActualNorth st
     /\ positionActualEast st' = positionActualEast st
     /\ out_events o = failsafeEvents w)
  /\ (calculateCourseStep st = 2 ->
     courseTrue st'
     = sphereCourse (positionActualNorth st) (positionActualEast st)
         (positionDesiredNorth target) (positionDesiredEast target) (DistanceToBase st)
     /\ DistanceToBase st' = DistanceToBase st
     /\ diffHeadingYaw st' = diffHeadingYaw st
     /\ positionActualNorth st' = positionActualNorth st
     /\ positionActualEast st' = positionActualEast st
     /\ In (EvStabilizationDesiredSet (stabilizationDesiredObj (out_world o))) (out_events o)).
Proof.
  intros Hg Hq Hf. cbv zeta.
  destruct (atSwitch_frame st w) as (E1 & E2 & E3 & E4 & E5 & E6 & E7 & E8).
  split; [|split]; intros Hs.
  - rewrite task_at_step0 by assumption. cbv zeta.
    destruct (Armed_eqb _ _ && _); cbn; rewrite E3, E5, E6; repeat split; reflexivity.
  - rewrite task_at_step1 by assumption. cbv zeta.
    destruct (fgt _ _); cbn; rewrite E3, ?E5, E7, E8; repeat split; reflexivity.
  - rewrite task_at_step2 by assumption. cbv zeta.
    unfold setpoint3D, publish. cbn.
    destruct (fgt (of_int _) _); cbn; rewrite E5, E6, E7, E8;
      (repeat split; try reflexivity); apply in_or_app; right; now left.
Qed.

(** ** The hold radius *)

(** C10: in the processing call at step 2, the distance (a number [d]) is
    scaled by 111111 in [float] arithmetic, and the product [p], the [float]
    nearest to [d * 111111], is converted to an integer [n] by discarding its
    fractional part before it is compared with [RadiusBase].  So [n] is the
    integer part of the exact product or, when the rounding reaches it, the
    next integer.  The yaw setpoint is assigned [courseRelative] in both
    cases: the wrapped sum of true course and heading error when
    [n > RadiusBase], the value [courseRelative] had before the call
    otherwise. *)
Theorem hold_radius_decision (st : Statics) (w : World) (d : R) :
  gate_closed st w = false ->
  guard_ok (effectiveFlightStatus w) (systemSettingsObj w) = true ->
  fix3D w = true ->
  calculateCourseStep st = 2 ->
  DistanceToBase st = Fin d ->
  let p := round_f (d * 111111) in
  let n := Z.abs (to_int (Fin p)) in
  let o := task st w in
  let st' := out_statics o in
  let sd := stabilizationDesiredObj (out_world o) in
  (DistanceToBase st * Fin 111111)%cf = Fin p
  /\ (IZR n <= Rabs p < IZR n + 1)%R
  /\ (forall k : Z, Z.abs k < 16777215 ->
      (IZR k <= d * 111111 <= IZR k + 1)%R -> (IZR k <= p <= IZR k + 1)%R)
  /\ In (EvStabilizationDesiredSet sd) (out_events o)
  /\ Yaw sd = courseRelative st'
  /\ (fgt (of_int n) (RadiusBase (ccguidanceSettingsObj w)) = true ->
      courseRelative st' = wrap180 (courseTrue st' + diffHeadingYaw st)%cf)
  /\ (fgt (of_int n) (RadiusBase (ccguidanceSettingsObj w)) = false ->
      courseRelative st' = courseRelative st /\ Yaw sd = courseRelative st).
Proof.
  intros Hg Hq Hf Hs Hd. cbv zeta.
  destruct (atSwitch_frame st w) as (E1 & E2 & E3 & E4 & E5 & E6 & E7 & E8).
  split; [now rewrite Hd|].
  split; [apply to_int_truncates|].
  split.
  { intros k Hk Hb. rewrite <- plus_IZR in *.
    apply round_f_between; [apply round_f_int; lia|apply round_f_int; lia|exact Hb]. }
  rewrite task_at_step2 by assumption. cbv zeta.
  unfold setpoint3D, publish. cbn. rewrite E6, Hd.
  change (Fin d * Fin 111111)%cf with (Fin (round_f (d * 111111))).
  destruct (fgt (of_int (Z.abs (to_int (Fin (round_f (d * 111111))))))
              (RadiusBase (ccguidanceSettingsObj w)));
    cbn; rewrite ?E4, ?E5;
    destruct (flt (Altitude (gpsPositionObj w) + GeoidSeparation (gpsPositionObj w))%cf
                (positionDesiredDown (atSwitch st w))); cbn.
  - split; [apply in_or_app; right; now left|].
    split; [reflexivity|]. split; [reflexivity|discriminate].
  - split; [apply in_or_app; right; now left|].
    split; [reflexivity|]. split; [reflexivity|discriminate].
  - split; [apply in_or_app; right; now left|].
    split; [reflexivity|]. split; [discriminate|]. intros _. now split.
  - split; [apply in_or_app; right; now left|].
    split; [reflexivity|]. split; [discriminate|]. intros _. now split.
Qed.

(** ** The home latch *)

Lemma latch_cond_needs_flag (st : Statics) (w : World) :
  StateSaveCurrentPositionToRTB st <> 0 ->
  latch_cond PARSE_FLIGHT_MODE portTICK_RATE_MS st w = false.
Proof.
  intros H. unfold latch_cond.
  replace (StateSaveCurrentPositionToRTB st =? 0) with false
    by (symmetry; apply Z.eqb_neq; exact H).
  apply andb_false_r.
Qed.

Lemma no_latch_once_saved (ws : list World) :
  forall st, StateSaveCurrentPositionToRTB st <> 0 ->
  Forall (fun b => b = false) (latches PARSE_FLIGHT_MODE portTICK_RATE_MS st ws).
Proof.
  induction ws as [|w ws IH]; intros st H; cbn [latches]; constructor.
  - now apply latch_cond_needs_flag.
  - apply IH. rewrite task_flag, latch_cond_needs_flag by exact H. exact H.
Qed.

Lemma count_true_none (bs : list bool) :
  Forall (fun b => b = false) bs -> count_occ bool_dec bs true = 0%nat.
Proof.
  induction 1 as [|b bs Hb _ IH]; [reflexivity|]. subst b. cbn. exact IH.
Qed.

Lemma latch_local_copy (st : Statics) (w : World) :
  out_ccguidanceSettings (task st w)
  = if latch_cond PARSE_FLIGHT_MODE portTICK_RATE_MS st w
    then set_HomeLocation (Latitude (gpsPositionObj w)) (Longitude (gpsPositionObj w))
           (Altitude (gpsPositionObj w)) true (ccguidanceSettingsObj w)
    else ccguidanceSettingsObj w.
Proof.
  unfold latch_cond, processing.
  destruct (gate_closed st w) eqn:Hg.
  - rewrite task_gate_closed by exact Hg. reflexivity.
  - destruct (guard_ok (effectiveFlightStatus w) (systemSettingsObj w)) eqn:Hq.
    + destruct (fix3D w) eqn:Hf.
      * destruct (Z.eq_dec (calculateCourseStep st) 0) as [Hs|Hs].
        -- rewrite task_at_step0 by assumption. rewrite Hs. cbn. reflexivity.
        -- replace (calculateCourseStep st =? 0) with false
             by (symmetry; apply Z.eqb_neq; exact Hs).
           cbn. rewrite task_enters_guidance by assumption.
           destruct (atSwitch_frame st w) as (E1 & _).
           destruct (failsafeWorld_frame w) as (_ & _ & Egps & _).
           unfold guidance. cbv zeta. rewrite Egps. fold (atSwitch st w).
           unfold fix3D in Hf. rewrite Hf, E1.
           switch_cases (calculateCourseStep st); try reflexivity. now elim Hs.
      * cbn. rewrite task_without_fix by assumption. reflexivity.
    + cbn. rewrite task_gate_open by exact Hg. rewrite Hq. reflexivity.
Qed.

(** C2, amended: the home location is captured (in the copy of the settings
    the call works on) exactly in a processing call at step 0 that finds the
    vehicle disarmed and [StateSaveCurrentPositionToRTB] still 0; that call
    sets the flag, and no call clears it.  So in every sequence of calls at
    most one call captures the home location, none overwrites it later, and
    arming and disarming again does not latch a second time. *)
Theorem home_latched_at_most_once (st : Statics) (ws : list World) :
  (count_occ bool_dec (latches PARSE_FLIGHT_MODE portTICK_RATE_MS st ws) true <= 1)%nat
  /\ (StateSaveCurrentPositionToRTB st <> 0 ->
      Forall (fun b => b = false) (latches PARSE_FLIGHT_MODE portTICK_RATE_MS st ws))
  /\ (forall w, latch_cond PARSE_FLIGHT_MODE portTICK_RATE_MS st w = true ->
        out_ccguidanceSettings (task st w)
        = set_HomeLocation (Latitude (gpsPositionObj w)) (Longitude (gpsPositionObj w))
            (Altitude (gpsPositionObj w)) true (ccguidanceSettingsObj w)
        /\ StateSaveCurrentPositionToRTB (out_statics (task st w)) = 1)
  /\ (forall w, latch_cond PARSE_FLIGHT_MODE portTICK_RATE_MS st w = false ->
        out_ccguidanceSettings (task st w) = ccguidanceSettingsObj w
        /\ StateSaveCurrentPositionToRTB (out_statics (task st w))
           = StateSaveCurrentPositionToRTB st).
Proof.
  split; [|split; [|split]].
  - revert st. induction ws as [|w ws IH]; intros st; cbn [latches]; [cbn; lia|].
    destruct (latch_cond PARSE_FLIGHT_MODE portTICK_RATE_MS st w) eqn:Hl.
    + cbn. rewrite count_true_none; [lia|].
      apply no_latch_once_saved. rewrite task_flag, Hl. lia.
    + cbn. apply IH.
  - intros H. now apply no_latch_once_saved.
  - intros w Hl. now rewrite latch_local_copy, task_flag, Hl.
  - intros w Hl. now rewrite latch_local_copy, task_flag, Hl.
Qed.

End TaskProperties.

(** ** The callback on the reference inputs *)

Section Reference.

Local Abbreviation task_ref := (ccguidanceTask PARSE_FLIGHT_MODE_ref portTICK_RATE_MS_ref).
Local Abbreviation run_ref := (run PARSE_FLIGHT_MODE_ref portTICK_RATE_MS_ref).
Local Abbreviation latch_cond_ref := (latch_cond PARSE_FLIGHT_MODE_ref portTICK_RATE_MS_ref).
Local Abbreviation processing_ref := (processing PARSE_FLIGHT_MODE_ref portTICK_RATE_MS_ref).

(** The tests on the statics look at their integer part only. *)
Lemma processing_control (P : FlightStatusFlightMode -> flightmode_path) (T : Z)
    (st : Statics) (w : World) :
  processing P T st w = processing P T (of_control (control st)) w.
Proof. unfold processing. now rewrite !rate_gate_closed_eq. Qed.

Lemma latch_cond_control (P : FlightStatusFlightMode -> flightmode_path) (T : Z)
    (st : Statics) (w : World) :
  latch_cond P T st w = latch_cond P T (of_control (control st)) w.
Proof. unfold latch_cond. now rewrite (processing_control P T st w). Qed.

(** C1 fails on the code: a disarmed vehicle in position hold with a 3D fix
    at 48 N, 11 E, 500 m, 100 ms after the previous update.  The call latches
    the fix in its own copy of the settings and sets the flag, and returns
    without any write: the settings object still says that no home location
    is set. *)
Theorem home_latch_not_written_back :
  let w := world_ref FLIGHTSTATUS_ARMED_DISARMED FLIGHTSTATUS_FLIGHTMODE_POSITIONHOLD
      gps_ref SYSTEMALARMS_ALARM_OK 1100 in
  let o := task_ref statics_ref w in
  latch_cond_ref statics_ref w = true
  /\ StateSaveCurrentPositionToRTB (out_statics o) = 1
  /\ out_ccguidanceSettings o = set_HomeLocation 480000000 110000000 (Fin 500) true settings_ref
  /\ out_events o = []
  /\ ccguidanceSettingsObj (out_world o) = settings_ref
  /\ HomeLocationSet (ccguidanceSettingsObj (out_world o)) = false.
Proof.
  cbv zeta.
  set (w := world_ref FLIGHTSTATUS_ARMED_DISARMED FLIGHTSTATUS_FLIGHTMODE_POSITIONHOLD
      gps_ref SYSTEMALARMS_ALARM_OK 1100).
  assert (Hl : latch_cond_ref statics_ref w = true) by reflexivity.
  split; [exact Hl|].
  split; [now rewrite task_flag, Hl|].
  split; [now rewrite latch_local_copy, Hl|].
  split; [now rewrite task_at_step0 by reflexivity|].
  destruct (settings_store_untouched PARSE_FLIGHT_MODE_ref portTICK_RATE_MS_ref statics_ref w)
    as [E _].
  split; [exact E|now rewrite E].
Qed.

(** A processing call at step 0 with the flag already set, vehicle disarmed. *)
Lemma disarmed_again (st : Statics) :
  control st = mkControl 1 0 1300 1 ->
  let w5 := world_ref FLIGHTSTATUS_ARMED_DISARMED FLIGHTSTATUS_FLIGHTMODE_POSITIONHOLD
      gps_ref SYSTEMALARMS_ALARM_OK 1400 in
  processing_ref st w5 = true
  /\ calculateCourseStep st = 0
  /\ Armed (effectiveFlightStatus w5) = FLIGHTSTATUS_ARMED_DISARMED
  /\ latch_cond_ref st w5 = false
  /\ out_ccguidanceSettings (task_ref st w5) = settings_ref
  /\ HomeLocationSet (out_ccguidanceSettings (task_ref st w5)) = false.
Proof.
  intros Hc w5.
  assert (Hl : latch_cond_ref st w5 = false)
    by (rewrite latch_cond_control, Hc; reflexivity).
  split; [rewrite processing_control, Hc; reflexivity|].
  split; [change (calculateCourseStep st) with (c_calculateCourseStep (control st));
          now rewrite Hc|].
  split; [reflexivity|].
  split; [exact Hl|].
  rewrite latch_local_copy, Hl. split; reflexivity.
Qed.

(** C2 as the specification words it does not hold.  Five calls 100 ms
    apart, in position hold with a 3D fix: the first finds the rate gate
    closed; the second, disarmed, is at step 0 and latches; the third and
    the fourth, armed, are steps 1 and 2; the fifth, disarmed again, is a
    processing call at step 0 and captures nothing. *)
Lemma no_second_latch_after_rearming :
  let w1 := world_ref FLIGHTSTATUS_ARMED_DISARMED FLIGHTSTATUS_FLIGHTMODE_POSITIONHOLD
      gps_ref SYSTEMALARMS_ALARM_OK 1000 in
  let w2 := world_ref FLIGHTSTATUS_ARMED_DISARMED FLIGHTSTATUS_FLIGHTMODE_POSITIONHOLD
      gps_ref SYSTEMALARMS_ALARM_OK 1100 in
  let w3 := world_ref FLIGHTSTATUS_ARMED_ARMED FLIGHTSTATUS_FLIGHTMODE_POSITIONHOLD
      gps_ref SYSTEMALARMS_ALARM_OK 1200 in
  let w4 := world_ref FLIGHTSTATUS_ARMED_ARMED FLIGHTSTATUS_FLIGHTMODE_POSITIONHOLD
      gps_ref SYSTEMALARMS_ALARM_OK 1300 in
  let w5 := world_ref FLIGHTSTATUS_ARMED_DISARMED FLIGHTSTATUS_FLIGHTMODE_POSITIONHOLD
      gps_ref SYSTEMALARMS_ALARM_OK 1400 in
  let st := run_ref statics0 [w1; w2; w3; w4] in
  latch_cond_ref (run_ref statics0 [w1]) w2 = true
  /\ processing_ref (run_ref statics0 [w1; w2]) w3 = true
  /\ processing_ref (run_ref statics0 [w1; w2; w3]) w4 = true
  /\ processing_ref st w5 = true
  /\ calculateCourseStep st = 0
  /\ Armed (effectiveFlightStatus w5) = FLIGHTSTATUS_ARMED_DISARMED
  /\ latch_cond_ref st w5 = false
  /\ out_ccguidanceSettings (task_ref st w5) = settings_ref
  /\ HomeLocationSet (out_ccguidanceSettings (task_ref st w5)) = false.
Proof.
  cbv zeta.
  split; [rewrite latch_cond_control, run_control; reflexivity|].
  split; [rewrite processing_control, run_control; reflexivity|].
  split; [rewrite processing_control, run_control; reflexivity|].
  apply disarmed_again.
  rewrite run_control. reflexivity.
Qed.

Lemma sphereDistance_origin : sphereDistance (Fin 0) (Fin 0) (Fin 0) (Fin 0) = Fin 0.
Proof.
  assert (R0 : round_d 0 = 0%R) by round_const.
  assert (R1 : round_d 1 = 1%R) by round_const.
  assert (F0 : round_f 0 = 0%R) by round_const.
  unfold sphereDistance. rewrite RAD2DEG_eq, DEG2RAD_eq.
  unfold dmul, dadd, fsub, to_float, lift2, fsin, fcos.
  replace (0 - 0)%R with 0%R by lra. rewrite F0.
  replace (round_d (round_d PI / 180) * 0)%R with 0%R by lra.
  rewrite R0, sin_0, cos_0, R0, R1.
  replace (0 * 0)%R with 0%R by lra. replace (1 * 1)%R with 1%R by lra.
  rewrite R0, R1. replace (1 * 1)%R with 1%R by lra. rewrite R1.
  replace (0 + 1)%R with 1%R by lra. rewrite R1.
  unfold facos. Rcompare. cbn [andb isnan].
  rewrite acos_1, R0. replace (round_d (180 / round_d PI) * 0)%R with 0%R by lra.
  now rewrite R0, F0.
Qed.

(** The statics of [statics_at] when the switch is reached in position hold
    at the origin: the target is still (0, 0). *)
Lemma atSwitch_statics_at (step : Z) (distance : cfloat) (armed : FlightStatusArmed) (t : Z) :
  atSwitch (statics_at step distance)
    (world_ref armed FLIGHTSTATUS_FLIGHTMODE_POSITIONHOLD gps_origin SYSTEMALARMS_ALARM_OK t)
  = set_lastUpdateTime t (statics_at step distance).
Proof. reflexivity. Qed.

(** C9 as the specification words it does not hold.  Holding the point
    (0, 0) with the snapshot at (0, 0) and a stored distance of 1: the call
    at step 1 replaces the stored distance (by 0), so step 1 computes more
    than the heading error; the call at step 2 leaves the stored distance at
    1, which is not the distance from the snapshot to the target. *)
Lemma distance_computed_in_step_1 :
  let w := world_ref FLIGHTSTATUS_ARMED_ARMED FLIGHTSTATUS_FLIGHTMODE_POSITIONHOLD
      gps_origin SYSTEMALARMS_ALARM_OK 1100 in
  let at1 := statics_at 1 (Fin 1) in
  let at2 := statics_at 2 (Fin 1) in
  (processing_ref at1 w = true
   /\ calculateCourseStep at1 = 1
   /\ DistanceToBase (out_statics (task_ref at1 w)) <> DistanceToBase at1)
  /\ (processing_ref at2 w = true
      /\ calculateCourseStep at2 = 2
      /\ DistanceToBase (out_statics (task_ref at2 w))
         <> sphereDistance (positionActualNorth at2) (positionActualEast at2)
              (positionDesiredNorth (out_statics (task_ref at2 w)))
              (positionDesiredEast (out_statics (task_ref at2 w)))).
Proof.
  cbv zeta.
  assert (Hne : Fin 0 <> Fin 1) by (intros E; injection E; lra).
  assert (Hne' : Fin 1 <> Fin 0) by (intros E; injection E; lra).
  split; (split; [reflexivity|split; [reflexivity|]]).
  - rewrite task_at_step1 by reflexivity. cbv zeta. rewrite atSwitch_statics_at.
    destruct (fgt _ _); cbn; rewrite sphereDistance_origin; exact Hne.
  - rewrite task_at_step2 by reflexivity. cbv zeta. rewrite atSwitch_statics_at.
    unfold setpoint3D, publish. cbn.
    destruct (fgt (of_int _) _); cbn; rewrite sphereDistance_origin; exact Hne'.
Qed.

(** The rate gate looks at the integer statics only. *)
Lemma gate_control (T : Z) (st : Statics) (w : World) :
  rate_gate_closed T st w = rate_gate_closed T (of_control (control st)) w.
Proof. now rewrite !rate_gate_closed_eq. Qed.

Lemma degrees_0 : degrees 0 = Fin 0.
Proof.
  unfold degrees, double_of_int, dmul, to_float, lift2.
  replace (round_d 0) with 0%R by (symmetry; round_const).
  replace (0 * round_d 1e-7)%R with 0%R by lra.
  replace (round_d 0) with 0%R by (symmetry; round_const).
  f_equal. round_const.
Qed.

(** The [double] constant [1e-7] is within 2 ^ -77 of 1/10000000. *)
Lemma literal_1e_7 : (Rabs (round_d 1e-7 - 1e-7) <= powerRZ 2 (-77))%R.
Proof.
  change (-77) with (-23 - 54). apply round_d_error; [|lia].
  change (powerRZ 2 (-23 - 1)) with (/ powerRZ 2 24)%R.
  change (powerRZ 2 (-23)) with (/ powerRZ 2 23)%R.
  rewrite !pow2_IZR by lia. rewrite Rabs_right by lra.
  change (2 ^ 24) with 16777216. change (2 ^ 23) with 8388608. lra.
Qed.

(** 480000000 units of 1e-7 degree are 48.0f: the error of the constant is
    lost when the product is stored into a [float]. *)
Lemma degrees_48 : degrees 480000000 = Fin 48.
Proof.
  unfold degrees, double_of_int, dmul, to_float, lift2.
  replace (round_d 480000000) with 480000000%R by (symmetry; round_const).
  pose proof literal_1e_7 as Hc. apply Rabs_le_bounds in Hc.
  assert (E77 : powerRZ 2 (-77) = (/ 151115727451828646838272)%R).
  { change (powerRZ 2 (-77)) with (/ powerRZ 2 77)%R. rewrite pow2_IZR by lia. reflexivity. }
  rewrite E77 in Hc.
  set (c := round_d 1e-7) in *.
  assert (Hd : (48 - / 140737488355328 <= round_d (480000000 * c)
                <= 48 + / 140737488355328)%R).
  { apply round_d_between.
    - apply round_d_id. exists 6755399441055743, (-47). split; [reflexivity|]. split; [lia|].
      change (powerRZ 2 (-47)) with (/ powerRZ 2 47)%R. rewrite pow2_IZR by lia.
      change (2 ^ 47) with 140737488355328. lra.
    - apply round_d_id. exists 6755399441055745, (-47). split; [reflexivity|]. split; [lia|].
      change (powerRZ 2 (-47)) with (/ powerRZ 2 47)%R. rewrite pow2_IZR by lia.
      change (2 ^ 47) with 140737488355328. lra.
    - lra. }
  f_equal. unfold round_f.
  rewrite (round_near 24 (-149) _ 6 (-18) 12582912).
  - change (powerRZ 2 (-18)) with (/ powerRZ 2 18)%R.
    rewrite pow2_IZR by lia. change (2 ^ 18) with 262144. lra.
  - rewrite !pow2_IZR by lia. rewrite Rabs_right by lra.
    change (2 ^ (6 - 1)) with 32. change (2 ^ 6) with 64. lra.
  - reflexivity.
  - change (- -18) with 18. rewrite pow2_IZR by lia. change (2 ^ 18) with 262144.
    apply Rabs_def1; lra.
Qed.

(** C5 as the specification words it does not hold, with velocity control
    on the guidance path as [PARSE_FLIGHT_MODE_ref] has it.  Three gated
    calls 100 ms apart: the first, in position hold, captures the fix at
    48 N, 11 E; the second is in velocity control, so the mode has been left,
    but the guard passes and [positionHoldLast] stays 1; the third is in
    position hold again, at the point (0, 0), and keeps the target of the
    first call: the fix is not captured again. *)
Lemma hold_kept_across_velocity_control :
  let w1 := world_ref FLIGHTSTATUS_ARMED_ARMED FLIGHTSTATUS_FLIGHTMODE_POSITIONHOLD
      gps_ref SYSTEMALARMS_ALARM_OK 1100 in
  let w2 := world_ref FLIGHTSTATUS_ARMED_ARMED FLIGHTSTATUS_FLIGHTMODE_VELOCITYCONTROL
      gps_ref SYSTEMALARMS_ALARM_OK 1200 in
  let w3 := world_ref FLIGHTSTATUS_ARMED_ARMED FLIGHTSTATUS_FLIGHTMODE_POSITIONHOLD
      gps_origin SYSTEMALARMS_ALARM_OK 1300 in
  let st1 := out_statics (task_ref statics_ref w1) in
  let st2 := out_statics (task_ref st1 w2) in
  let st3 := out_statics (task_ref st2 w3) in
  desiredTarget st1 = targetOfFix gps_ref
  /\ rate_gate_closed portTICK_RATE_MS_ref st1 w2 = false
  /\ guard PARSE_FLIGHT_MODE_ref (effectiveFlightStatus w2) (systemSettingsObj w2) = true
  /\ FlightMode (effectiveFlightStatus w2) = FLIGHTSTATUS_FLIGHTMODE_VELOCITYCONTROL
  /\ positionHoldLast st2 = 1
  /\ rate_gate_closed portTICK_RATE_MS_ref st2 w3 = false
  /\ guard PARSE_FLIGHT_MODE_ref (effectiveFlightStatus w3) (systemSettingsObj w3) = true
  /\ FlightMode (effectiveFlightStatus w3) = FLIGHTSTATUS_FLIGHTMODE_POSITIONHOLD
  /\ desiredTarget st3 = targetOfFix gps_ref
  /\ desiredTarget st3 <> targetOfFix (gpsPositionObj w3).
Proof.
  intros w1 w2 w3 st1 st2 st3.
  assert (Hp0 : positionHoldLast statics_ref <> 1) by discriminate.
  destruct (hold_entered PARSE_FLIGHT_MODE_ref portTICK_RATE_MS_ref statics_ref w1
              eq_refl eq_refl eq_refl Hp0) as [Et1 Ep1].
  fold st1 in Et1, Ep1.
  assert (Hg2 : rate_gate_closed portTICK_RATE_MS_ref st1 w2 = false)
    by (unfold st1; rewrite gate_control, control_sim; reflexivity).
  destruct (hold_not_left PARSE_FLIGHT_MODE_ref portTICK_RATE_MS_ref st1 w2
              Hg2 eq_refl eq_refl eq_refl) as [Et2 Ep2].
  fold st2 in Et2, Ep2. rewrite Ep1 in Ep2.
  assert (Hg3 : rate_gate_closed portTICK_RATE_MS_ref st2 w3 = false)
    by (unfold st2, st1; rewrite gate_control, !control_sim; reflexivity).
  destruct (hold_kept PARSE_FLIGHT_MODE_ref portTICK_RATE_MS_ref st2 w3 Ep2
              (or_intror (conj eq_refl eq_refl))) as [Et3 _].
  fold st3 in Et3.
  assert (E3 : desiredTarget st3 = targetOfFix gps_ref) by now rewrite Et3, Et2.
  repeat split; try assumption; try reflexivity.
  rewrite E3. unfold targetOfFix. cbn [gpsPositionObj w3 world_ref gps_ref gps_origin Latitude].
  rewrite degrees_0, degrees_48. intros E.
  apply (f_equal (fun t : cfloat * cfloat * cfloat => fst (fst t))) in E.
  cbn [fst] in E. injection E as E. lra.
Qed.

(** C5, amended, on the reference inputs: the first gated call in position
    hold captures the fix at 48 N, 11 E, 500 m + 45 m + 1 m. *)
Lemma position_hold_capture_witness :
  let w := world_ref FLIGHTSTATUS_ARMED_ARMED FLIGHTSTATUS_FLIGHTMODE_POSITIONHOLD
      gps_ref SYSTEMALARMS_ALARM_OK 1100 in
  positionHoldLast (out_statics (task_ref statics_ref w)) = 1
  /\ desiredTarget (out_statics (task_ref statics_ref w))
     = (degrees 480000000, degrees 110000000,
        (Fin 500 + Fin 45 + Fin 1)%cf).
Proof.
  intros w.
  destruct (position_hold_capture PARSE_FLIGHT_MODE_ref portTICK_RATE_MS_ref statics_ref w
              eq_refl eq_refl eq_refl) as (H1 & H2 & _).
  split; [exact H1|]. apply H2. discriminate.
Defined.

(** C6 on the reference inputs: manual flight mode during a hold. *)
Lemma guard_failure_frame_witness :
  let w := world_ref FLIGHTSTATUS_ARMED_ARMED FLIGHTSTATUS_FLIGHTMODE_MANUAL
      gps_ref SYSTEMALARMS_ALARM_OK 1100 in
  let o := task_ref (statics_at 0 (Fin 0)) w in
  stabilizationDesiredObj (out_world o) = stab_ref
  /\ alarmGuidance (out_world o) = SYSTEMALARMS_ALARM_OK
  /\ positionHoldLast (out_statics o) = 0.
Proof.
  intros w o.
  assert (Hmode : PARSE_FLIGHT_MODE_ref (FlightMode (effectiveFlightStatus w)) <> FLIGHTMODE_GUIDANCE)
    by discriminate.
  destruct (guard_failure_frame PARSE_FLIGHT_MODE_ref portTICK_RATE_MS_ref (statics_at 0 (Fin 0)) w
              eq_refl (or_introl Hmode)) as (H1 & _ & H3 & _ & H5 & _).
  repeat split; assumption.
Defined.

(** C7 on the reference inputs: position hold without a fix. *)
Lemma fallback_setpoint_witness :
  let w := world_ref FLIGHTSTATUS_ARMED_ARMED FLIGHTSTATUS_FLIGHTMODE_POSITIONHOLD
      gps_nofix SYSTEMALARMS_ALARM_OK 1100 in
  let o := task_ref statics_ref w in
  let sd := stabilizationDesiredObj (out_world o) in
  Yaw sd = Fin 0 /\ Pitch sd = Fin 10 /\ Roll sd = Fin 30
  /\ StabilizationMode_YAW sd = STABILIZATIONDESIRED_STABILIZATIONMODE_RATE
  /\ alarmGuidance (out_world o) = SYSTEMALARMS_ALARM_WARNING.
Proof.
  intros w o sd.
  assert (Hfix : Status (gpsPositionObj w) <> GPSPOSITION_STATUS_FIX3D) by discriminate.
  destruct (fallback_setpoint PARSE_FLIGHT_MODE_ref portTICK_RATE_MS_ref statics_ref w
              eq_refl eq_refl Hfix) as (_ & H2 & H3 & H4 & H5 & H6 & _).
  repeat split; assumption.
Defined.

(** C8 on the reference inputs: manual mode, manual-control alarm critical. *)
Lemma failsafe_forces_return_to_base_witness :
  let w := world_ref FLIGHTSTATUS_ARMED_ARMED FLIGHTSTATUS_FLIGHTMODE_MANUAL
      gps_ref SYSTEMALARMS_ALARM_CRITICAL 1100 in
  flightStatusObj (out_world (task_ref statics_ref w))
  = mkFlightStatus FLIGHTSTATUS_ARMED_ARMED FLIGHTSTATUS_FLIGHTMODE_RETURNTOBASE.
Proof.
  intros w.
  assert (Halarm : AlarmsGet SYSTEMALARMS_ALARM_MANUALCONTROL w <> SYSTEMALARMS_ALARM_OK) by discriminate.
  destruct (failsafe_forces_return_to_base PARSE_FLIGHT_MODE_ref portTICK_RATE_MS_ref
              statics_ref w eq_refl Halarm eq_refl) as (H1 & _).
  exact H1.
Defined.

(** C9, amended, on the reference inputs: step 1 of a hold at the origin
    stores the distance 0. *)
Lemma course_computation_steps_witness :
  let w := world_ref FLIGHTSTATUS_ARMED_ARMED FLIGHTSTATUS_FLIGHTMODE_POSITIONHOLD
      gps_origin SYSTEMALARMS_ALARM_OK 1100 in
  DistanceToBase (out_statics (task_ref (statics_at 1 (Fin 1)) w)) = Fin 0.
Proof.
  intros w.
  destruct (course_computation_steps PARSE_FLIGHT_MODE_ref portTICK_RATE_MS_ref
              (statics_at 1 (Fin 1)) w eq_refl eq_refl eq_refl) as (_ & H1 & _).
  destruct (H1 eq_refl) as (Hd & _).
  rewrite Hd. unfold w. rewrite atSwitch_statics_at. apply sphereDistance_origin.
Defined.

(** The [float] product of the distance 6493997 * 2 ^ -35 and 111111 is 21,
    above the exact product. *)
Lemma scaled_distance_rounded_up :
  (6493997 / 34359738368 * 111111 < 21)%R
  /\ round_f (6493997 / 34359738368 * 111111) = 21%R.
Proof.
  split; [lra|]. unfold round_f.
  rewrite (round_near 24 (-149) _ 5 (-19) 11010048).
  - change (powerRZ 2 (-19)) with (/ powerRZ 2 19)%R.
    rewrite pow2_IZR by lia. change (2 ^ 19) with 524288. lra.
  - rewrite !pow2_IZR by lia. rewrite Rabs_right by lra.
    change (2 ^ (5 - 1)) with 16. change (2 ^ 5) with 32. lra.
  - reflexivity.
  - change (- -19) with 19. rewrite pow2_IZR by lia. change (2 ^ 19) with 524288.
    apply Rabs_def1; lra.
Qed.

Lemma to_int_of_integer (n : Z) : to_int (Fin (IZR n)) = n.
Proof.
  destruct (to_int_truncates (IZR n)) as (Ht & Hp & Hn).
  rewrite <- abs_IZR, <- plus_IZR in Ht. destruct Ht as [H1 H2].
  apply le_IZR in H1. apply lt_IZR in H2.
  destruct (Z_le_gt_dec 0 n) as [H|H].
  - specialize (Hp (IZR_le _ _ H)). lia.
  - assert (H' : n <= 0) by lia. specialize (Hn (IZR_le _ _ H')). lia.
Qed.

(** C10 on the reference inputs, with a base radius of 20 m.  At the
    distance 2 ^ -13 the product is 13.56..., a [float]: the integer is 13,
    not greater than 20, and the yaw setpoint is the [courseRelative] of
    before.  At the distance 6493997 * 2 ^ -35 the exact product is below 21
    and the [float] product is 21: the integer is 21, greater than 20, and
    the relative course is computed anew. *)
Lemma hold_radius_decision_witness :
  let w := world_ref FLIGHTSTATUS_ARMED_ARMED FLIGHTSTATUS_FLIGHTMODE_POSITIONHOLD
      gps_origin SYSTEMALARMS_ALARM_OK 1100 in
  (let st := statics_at 2 (Fin (1 / 8192)) in
   (13 <= round_f (1 / 8192 * 111111) <= 14)%R
   /\ Yaw (stabilizationDesiredObj (out_world (task_ref st w))) = Fin 33)
  /\ (let st := statics_at 2 (Fin (6493997 / 34359738368)) in
      let st' := out_statics (task_ref st w) in
      (6493997 / 34359738368 * 111111 < 21)%R
      /\ (DistanceToBase st * Fin 111111)%cf = Fin 21
      /\ courseRelative st' = wrap180 (courseTrue st' + diffHeadingYaw st)%cf).
Proof.
  intros w. split.
  - intros st.
    pose proof (hold_radius_decision PARSE_FLIGHT_MODE_ref portTICK_RATE_MS_ref st w
                  (1 / 8192) eq_refl eq_refl eq_refl eq_refl eq_refl) as H.
    cbv zeta in H. destruct H as (_ & Htr & Hk & _ & _ & _ & Hin).
    assert (Hb : (13 <= round_f (1 / 8192 * 111111) <= 14)%R)
      by (pose proof (Hk 13 ltac:(lia) ltac:(lra)); lra).
    split; [exact Hb|].
    apply Hin. apply Rltb_false. unfold of_int.
    rewrite Rabs_right in Htr by lra.
    assert (Hn : Z.abs (to_int (Fin (round_f (1 / 8192 * 111111)))) <= 14)
      by (apply le_IZR; lra).
    apply round_f_le; [round_const|].
    apply IZR_le. lia.
  - intros st st'.
    destruct scaled_distance_rounded_up as [Hlt Hr].
    pose proof (hold_radius_decision PARSE_FLIGHT_MODE_ref portTICK_RATE_MS_ref st w
                  (6493997 / 34359738368) eq_refl eq_refl eq_refl eq_refl eq_refl) as H.
    cbv zeta in H. destruct H as (Hp & _ & _ & _ & _ & Hout & _).
    rewrite Hr in Hp, Hout.
    split; [exact Hlt|]. split; [exact Hp|].
    apply Hout. rewrite to_int_of_integer. apply Rltb_true. unfold of_int.
    change (Z.abs 21) with 21.
    replace (round_f 21) with 21%R by (symmetry; round_const).
    cbn. lra.
Defined.

End Reference.

(** * Further properties *)

(** ** Navigation math *)

Lemma sphereDistance_NaN (lat1 long1 lat2 long2 : cfloat) :
  lat1 = NaN \/ long1 = NaN \/ lat2 = NaN \/ long2 = NaN ->
  sphereDistance lat1 long1 lat2 long2 = Fin 0.
Proof.
  intros H. unfold sphereDistance.
  assert (E : (fsin (DEG2RAD * lat1) * fsin (DEG2RAD * lat2)
               + fcos (DEG2RAD * lat1) * fcos (DEG2RAD * lat2)
                 * fcos (DEG2RAD * (long2 - long1)%cf))%cd = NaN).
  { rewrite DEG2RAD_eq. destruct lat1, long1, lat2, long2; try reflexivity.
    exfalso. destruct H as [H|[H|[H|H]]]; discriminate. }
  rewrite E, RAD2DEG_eq. reflexivity.
Qed.

(** X1: [sphereDistance] never returns NaN: its result is a number of
    [0, 180], and it is 0 as soon as one coordinate is NaN. *)
Theorem sphereDistance_range (lat1 long1 lat2 long2 : cfloat) :
  within 0 180 (sphereDistance lat1 long1 lat2 long2)
  /\ (lat1 = NaN \/ long1 = NaN \/ lat2 = NaN \/ long2 = NaN ->
      sphereDistance lat1 long1 lat2 long2 = Fin 0).
Proof.
  split; [apply sphereDistance_cases|apply sphereDistance_NaN].
Qed.

(** X2: [sphereDistance] is symmetric in its two points. *)
Theorem sphereDistance_symmetric (lat1 long1 lat2 long2 : cfloat) :
  sphereDistance lat1 long1 lat2 long2 = sphereDistance lat2 long2 lat1 long1.
Proof.
  destruct lat1 as [|a], long1 as [|b], lat2 as [|c], long2 as [|d];
    try (rewrite !sphereDistance_NaN by tauto; reflexivity).
  unfold sphereDistance. rewrite RAD2DEG_eq, DEG2RAD_eq.
  unfold dmul, dadd, fsub, lift2, fsin, fcos.
  set (k := round_d (round_d PI / 180)).
  replace (b - d)%R with (- (d - b))%R by lra.
  rewrite round_f_opp.
  replace (k * - round_f (d - b))%R with (- (k * round_f (d - b)))%R by lra.
  rewrite round_d_opp, cos_neg.
  rewrite (Rmult_comm (round_d (sin (round_d (k * c))))),
          (Rmult_comm (round_d (cos (round_d (k * c))))).
  reflexivity.
Qed.

(** X3: with a distance of 0 the division of [sphereCourse] is a division by
    zero, and the course is 0 whatever the two points are. *)
Theorem sphereCourse_at_target (lat1 long1 lat2 long2 : cfloat) :
  sphereCourse lat1 long1 lat2 long2 (Fin 0) = Fin 0.
Proof.
  assert (E : sphereCourse_acos lat1 lat2 (Fin 0) = NaN).
  { unfold sphereCourse_acos. rewrite RAD2DEG_eq, DEG2RAD_eq.
    set (k := round_d (round_d PI / 180)).
    assert (R0 : round_d 0 = 0%R) by round_const.
    destruct lat1 as [|a], lat2 as [|c]; try reflexivity;
      unfold dmul, dsub, ddiv, lift2, fsin, fcos;
      replace (k * 0)%R with 0%R by lra;
      rewrite R0, sin_0, R0; try reflexivity.
    replace (round_d (cos (round_d (k * a))) * 0)%R with 0%R by ring.
    rewrite R0.
    replace (Reqb 0 0) with true by (symmetry; now apply Reqb_true).
    reflexivity. }
  unfold sphereCourse. rewrite E. cbn [isnan].
  destruct (fge _ _); [reflexivity|]. cbn [fneg]. f_equal. lra.
Qed.

(** The [float] difference of 170 and -10.000001 (the [float] nearest to it)
    is 180, below the exact difference. *)
Lemma longitude_difference_rounded :
  (180 < 170 - (- 10485761 / 1048576))%R
  /\ round_f (170 - (- 10485761 / 1048576)) = 180%R.
Proof.
  split; [lra|]. unfold round_f.
  rewrite (round_near 24 (-149) _ 8 (-16) 11796480).
  - change (powerRZ 2 (-16)) with (/ powerRZ 2 16)%R.
    rewrite pow2_IZR by lia. change (2 ^ 16) with 65536. lra.
  - rewrite !pow2_IZR by lia. rewrite Rabs_right by lra.
    change (2 ^ (8 - 1)) with 128. change (2 ^ 8) with 256. lra.
  - reflexivity.
  - change (- -16) with 16. rewrite pow2_IZR by lia. change (2 ^ 16) with 65536.
    apply Rabs_def1; lra.
Qed.

(** X4: the longitude difference [sphereCourse] looks at is a [float].  For
    two longitudes of [-180, 180] it is a number [d] of [-180, 180]: the
    rounded difference [d0] when that is in [-180, 180], and otherwise [d0]
    with a turn taken off or added, rounded again.  The course is at least 0
    when [d] is at least 0 and at most 0 otherwise.  With a NaN longitude the
    course is at most 0.  The sign follows the rounded difference: from
    -10.000001 to 170 the exact difference is above 180, the [float]
    difference is 180, and the course is not negated. *)
Theorem sphereCourse_longitude_sign (lat1 lat2 zeta : cfloat) (a b : R) :
  ((-180 <= a <= 180)%R -> (-180 <= b <= 180)%R ->
   exists d r,
     sphereCourse_diff (Fin a) (Fin b) = Fin d
     /\ (-180 <= d <= 180)%R
     /\ (let d0 := round_f (b - a) in
         (-180 <= d0 <= 180 /\ d = d0)
         \/ (180 < d0 /\ d = round_f (d0 - 360))
         \/ (d0 < -180 /\ d = round_f (d0 + 360)))%R
     /\ sphereCourse lat1 (Fin a) lat2 (Fin b) zeta = Fin r
     /\ ((0 <= d)%R -> (0 <= r)%R)
     /\ ((d < 0)%R -> (r <= 0)%R))
  /\ (forall long1 long2, long1 = NaN \/ long2 = NaN ->
      exists r, sphereCourse lat1 long1 lat2 long2 zeta = Fin r /\ (r <= 0)%R)
  /\ ((180 < 170 - (- 10485761 / 1048576))%R
      /\ sphereCourse_diff (Fin (- 10485761 / 1048576)) (Fin 170) = Fin 180
      /\ exists r, sphereCourse lat1 (Fin (- 10485761 / 1048576)) lat2 (Fin 170) zeta = Fin r
                   /\ (0 <= r)%R).
Proof.
  assert (Hang : exists g, (if isnan (sphereCourse_acos lat1 lat2 zeta) then Fin 0
                            else sphereCourse_acos lat1 lat2 zeta) = Fin g
                           /\ (0 <= g <= 180)%R).
  { destruct (sphereCourse_acos_cases lat1 lat2 zeta) as [E|[g [E Hg]]]; rewrite E; cbn [isnan].
    - exists 0%R. split; [reflexivity|lra].
    - exists g. now split. }
  destruct Hang as [g [Eg Hg]].
  split; [|split].
  - intros Ha Hb.
    assert (Hd : exists d, sphereCourse_diff (Fin a) (Fin b) = Fin d
                 /\ (-180 <= d <= 180)%R
                 /\ ((-180 <= round_f (b - a) <= 180 /\ d = round_f (b - a))
                     \/ (180 < round_f (b - a) /\ d = round_f (round_f (b - a) - 360))
                     \/ (round_f (b - a) < -180
                         /\ d = round_f (round_f (b - a) + 360)))%R).
    { unfold sphereCourse_diff, fgt, flt, fsub, fadd, lift2.
      assert (H0 : (-360 <= round_f (b - a) <= 360)%R)
        by (apply round_f_between; [round_const|round_const|lra]).
      set (d0 := round_f (b - a)) in *.
      destruct (Rltb 180 d0) eqn:E1.
      - apply Rltb_true in E1.
        assert (H1 : (-180 <= round_f (d0 - 360) <= 0)%R)
          by (apply round_f_between; [round_const|round_const|lra]).
        replace (Rltb (round_f (d0 - 360)) (-180)) with false
          by (symmetry; apply Rltb_false; lra).
        exists (round_f (d0 - 360)). split; [reflexivity|]. split; [lra|].
        right; left. now split.
      - apply Rltb_false in E1.
        destruct (Rltb d0 (-180)) eqn:E2.
        + apply Rltb_true in E2.
          assert (H1 : (0 <= round_f (d0 + 360) <= 180)%R)
            by (apply round_f_between; [round_const|round_const|lra]).
          exists (round_f (d0 + 360)). split; [reflexivity|]. split; [lra|].
          right; right. now split.
        + apply Rltb_false in E2. exists d0. split; [reflexivity|]. split; [lra|].
          left. split; [lra|reflexivity]. }
    destruct Hd as [d [Ed [Hd1 Hd2]]].
    unfold sphereCourse. rewrite Eg, Ed. unfold fge.
    destruct (Rleb 0 d) eqn:E.
    + apply Rleb_true in E. exists d, g. repeat split; try assumption; lra.
    + apply Rleb_false in E. exists d, (- g)%R. cbn [fneg].
      repeat split; try assumption; lra.
  - intros long1 long2 Hn.
    assert (Ed : sphereCourse_diff long1 long2 = NaN)
      by (destruct long1, long2; try reflexivity; exfalso; destruct Hn; discriminate).
    unfold sphereCourse. rewrite Eg, Ed. cbn [fge fneg].
    exists (- g)%R. split; [reflexivity|lra].
  - destruct longitude_difference_rounded as [Hlt Hr].
    assert (Ed : sphereCourse_diff (Fin (- 10485761 / 1048576)) (Fin 170) = Fin 180).
    { unfold sphereCourse_diff, fgt, flt, fsub, fadd, lift2. rewrite Hr. Rcompare. reflexivity. }
    split; [exact Hlt|]. split; [exact Ed|].
    unfold sphereCourse. rewrite Eg, Ed. unfold fge. Rcompare.
    exists g. split; [reflexivity|lra].
Qed.

(** ** The wrap-around loops *)

(** X5: the two wrap-around loops in sequence, in [float] arithmetic.  On a
    number of magnitude up to 2 ^ 24 both loops end, and on a number of
    [-180, 180]; whenever they end, they end on a number of [-180, 180].  A
    number of [-180, 180] is left as it is (so -180 stays -180), and NaN is
    left as it is.  At 1e10 a turn taken off is lost in the rounding: the
    second loop never ends. *)
Theorem wrap180_normalises (r : R) :
  ((Rabs r <= 16777216)%R ->
   wrap_ends (Fin r) /\ within (-180) 180 (wrap180 (Fin r)))
  /\ (wrap_ends (Fin r) -> within (-180) 180 (wrap180 (Fin r)))
  /\ ((-180 <= r <= 180)%R -> wrap180 (Fin r) = Fin r)
  /\ wrap180 (Fin (-180)) = Fin (-180)
  /\ wrap180 NaN = NaN
  /\ (forall n, while_above n (Fin 10000000000) = Fin 10000000000)
  /\ ~ wrap_ends (Fin 10000000000).
Proof.
  split; [apply wrap180_bounded|].
  split; [apply wrap180_range|].
  split; [apply wrap180_id|].
  split; [apply wrap180_id; lra|].
  split; [apply wrap180_NaN|].
  split; [apply wrap_above_forever|apply wrap_never_ends].
Qed.

(** ** The callback: shape of a call *)

Section FurtherTaskProperties.

Variable PARSE_FLIGHT_MODE : FlightStatusFlightMode -> flightmode_path.
Variable portTICK_RATE_MS : Z.

Local Abbreviation task := (ccguidanceTask PARSE_FLIGHT_MODE portTICK_RATE_MS).
Local Abbreviation gate_closed := (rate_gate_closed portTICK_RATE_MS).
Local Abbreviation guard_ok := (guard PARSE_FLIGHT_MODE).
Local Abbreviation run_from := (run PARSE_FLIGHT_MODE portTICK_RATE_MS).

(** The switch of line 180 has no default: any other step goes on to the
    setpoint with the statics as they are. *)
Lemma task_at_other_step (st : Statics) (w : World) :
  gate_closed st w = false ->
  guard_ok (effectiveFlightStatus w) (systemSettingsObj w) = true ->
  fix3D w = true ->
  calculateCourseStep st <> 0 -> calculateCourseStep st <> 1 -> calculateCourseStep st <> 2 ->
  task st w
  = setpoint3D (atSwitch st w) (failsafeWorld w) (failsafeEvents w) (ccguidanceSettingsObj w)
      (gpsPositionObj w)
      (set_StabilizationMode_PITCH STABILIZATIONDESIRED_STABILIZATIONMODE_ATTITUDE
         (set_StabilizationMode_ROLL STABILIZATIONDESIRED_STABILIZATIONMODE_ATTITUDE
            (stabilizationDesiredObj w))).
Proof.
  intros Hg Hq Hf H0 H1 H2. rewrite task_enters_guidance by assumption.
  destruct (atSwitch_frame st w) as (E1 & _).
  destruct (failsafeWorld_frame w) as (_ & _ & Egps & Estab & _).
  unfold guidance. cbv zeta. rewrite Egps, Estab. fold (atSwitch st w).
  unfold fix3D in Hf. rewrite Hf, E1.
  switch_cases (calculateCourseStep st); try reflexivity; congruence.
Qed.

Lemma task_publishing_3D (st : Statics) (w : World) :
  gate_closed st w = false ->
  guard_ok (effectiveFlightStatus w) (systemSettingsObj w) = true ->
  fix3D w = true ->
  calculateCourseStep st <> 0 -> calculateCourseStep st <> 1 ->
  task st w
  = setpoint3D (beforeSetpoint st w) (failsafeWorld w) (failsafeEvents w)
      (ccguidanceSettingsObj w) (gpsPositionObj w)
      (set_StabilizationMode_PITCH STABILIZATIONDESIRED_STABILIZATIONMODE_ATTITUDE
         (set_StabilizationMode_ROLL STABILIZATIONDESIRED_STABILIZATIONMODE_ATTITUDE
            (stabilizationDesiredObj w))).
Proof.
  intros Hg Hq Hf H0 H1. unfold beforeSetpoint.
  destruct (Z.eqb_spec (calculateCourseStep st) 2) as [H2|H2].
  - now apply task_at_step2.
  - now apply task_at_other_step.
Qed.


(** Case analysis on the way a call takes, with the outcome rewritten. *)
Ltac call_cases st w :=
  let Hg := fresh "Hg" in
  let Hq := fresh "Hq" in
  let Hf := fresh "Hf" in
  let H0 := fresh "Hstep0" in
  let H1 := fresh "Hstep1" in
  destruct (gate_closed st w) eqn:Hg;
  [ rewrite (task_gate_closed PARSE_FLIGHT_MODE portTICK_RATE_MS st w Hg)
  | destruct (guard_ok (effectiveFlightStatus w) (systemSettingsObj w)) eqn:Hq;
    [ destruct (fix3D w) eqn:Hf;
      [ destruct (Z.eq_dec (calculateCourseStep st) 0) as [H0|H0];
        [ rewrite (task_at_step0 PARSE_FLIGHT_MODE portTICK_RATE_MS st w Hg Hq Hf H0)
        | destruct (Z.eq_dec (calculateCourseStep st) 1) as [H1|H1];
          [ rewrite (task_at_step1 PARSE_FLIGHT_MODE portTICK_RATE_MS st w Hg Hq Hf H1)
          | rewrite (task_publishing_3D st w Hg Hq Hf H0 H1) ] ]
      | rewrite (task_without_fix PARSE_FLIGHT_MODE portTICK_RATE_MS st w Hg Hq Hf) ]
    | rewrite (task_gate_open PARSE_FLIGHT_MODE portTICK_RATE_MS st w Hg), Hq ] ].

(** ** What a call writes *)

Lemma setpoints_app (a b : list Event) : setpoints (a ++ b) = setpoints a ++ setpoints b.
Proof.
  induction a as [|e a IH]; [reflexivity|].
  destruct e; cbn; now rewrite IH.
Qed.

Lemma setpoints_failsafeEvents (w : World) : setpoints (failsafeEvents w) = [].
Proof. unfold failsafeEvents. destruct (failsafe_active w); reflexivity. Qed.

Lemma publishes_eq (st : Statics) (w : World) :
  publishes PARSE_FLIGHT_MODE portTICK_RATE_MS st w
  = negb (gate_closed st w)
    && guard_ok (effectiveFlightStatus w) (systemSettingsObj w)
    && (negb (fix3D w)
        || (negb (calculateCourseStep st =? 0) && negb (calculateCourseStep st =? 1))).
Proof. reflexivity. Qed.

(** X6: a call publishes at most one setpoint, and it publishes one exactly
    when the rate gate is open, the guard passes and either the fix is not 3D
    or the step is neither 0 nor 1; otherwise the setpoint object is left as
    it is.  A published setpoint is the one left in the object; its throttle
    is the manual throttle, its roll and pitch modes are Attitude. *)
Theorem setpoint_publication (st : Statics) (w : World) :
  let o := task st w in
  let sd := stabilizationDesiredObj (out_world o) in
  setpoints (out_events o)
  = (if publishes PARSE_FLIGHT_MODE portTICK_RATE_MS st w then [sd] else [])
  /\ (publishes PARSE_FLIGHT_MODE portTICK_RATE_MS st w = false ->
      sd = stabilizationDesiredObj w)
  /\ (publishes PARSE_FLIGHT_MODE portTICK_RATE_MS st w = true ->
      Throttle sd = mcc_Throttle (manualControlCommandObj w)
      /\ StabilizationMode_ROLL sd = STABILIZATIONDESIRED_STABILIZATIONMODE_ATTITUDE
      /\ StabilizationMode_PITCH sd = STABILIZATIONDESIRED_STABILIZATIONMODE_ATTITUDE).
Proof.
  cbv zeta. rewrite publishes_eq.
  destruct (failsafeWorld_frame w) as (_ & _ & _ & Estab & Eman & _).
  call_cases st w; cbn [negb andb orb].
  - cbn. repeat split; try reflexivity; discriminate.
  - rewrite Hstep0. cbv zeta.
    destruct (Armed_eqb _ _ && _); cbn; rewrite setpoints_failsafeEvents, Estab;
      repeat split; try reflexivity; discriminate.
  - rewrite Hstep1. cbv zeta.
    destruct (fgt _ _); cbn; rewrite setpoints_failsafeEvents, Estab;
      repeat split; try reflexivity; discriminate.
  - replace (calculateCourseStep st =? 0) with false by (symmetry; now apply Z.eqb_neq).
    replace (calculateCourseStep st =? 1) with false by (symmetry; now apply Z.eqb_neq).
    unfold setpoint3D, publish. cbn.
    rewrite !setpoints_app, setpoints_failsafeEvents. cbn. rewrite Eman.
    destruct (fgt (of_int _) _); destruct (flt _ _); cbn;
      repeat split; try reflexivity; discriminate.
  - unfold fallback, publish. cbn.
    rewrite !setpoints_app, setpoints_failsafeEvents. cbn. rewrite Eman.
    repeat split; try reflexivity; discriminate.
  - cbn. rewrite setpoints_app, setpoints_failsafeEvents. cbn. rewrite Estab.
    repeat split; try reflexivity; discriminate.
Qed.

(** X7: the guidance alarm after a call.  A call that finds the rate gate
    closed, or that is at step 0 or 1 of a processing round, leaves it as it
    is; a gated call puts it at OK when the guard fails or when it goes on to
    the 3D setpoint, and at Warning when the guard passes without a 3D fix.
    So no call raises it to Error or Critical, the level [CCGuidanceStart]
    sets; the manual-control alarm is never changed. *)
Theorem guidance_alarm_after_call (st : Statics) (w : World) :
  let o := task st w in
  alarmGuidance (out_world o)
  = (if gate_closed st w then alarmGuidance w
     else if guard_ok (effectiveFlightStatus w) (systemSettingsObj w)
     then if fix3D w
          then if (calculateCourseStep st =? 0) || (calculateCourseStep st =? 1)
               then alarmGuidance w
               else SYSTEMALARMS_ALARM_OK
          else SYSTEMALARMS_ALARM_WARNING
     else SYSTEMALARMS_ALARM_OK)
  /\ alarmManualControl (out_world o) = alarmManualControl w
  /\ (alarmGuidance (out_world o) = SYSTEMALARMS_ALARM_ERROR
      \/ alarmGuidance (out_world o) = SYSTEMALARMS_ALARM_CRITICAL ->
      alarmGuidance (out_world o) = alarmGuidance w)
  /\ alarmGuidance (fst (fst (CCGuidanceStart w))) = SYSTEMALARMS_ALARM_ERROR
  /\ snd (CCGuidanceStart w) = 0.
Proof.
  cbv zeta.
  assert (Ea : alarmGuidance (failsafeWorld w) = alarmGuidance w
               /\ alarmManualControl (failsafeWorld w) = alarmManualControl w).
  { unfold failsafeWorld. destruct (failsafe_active w); split; reflexivity. }
  destruct Ea as [Eg Em].
  assert (Hmain :
    alarmGuidance (out_world (task st w))
    = (if gate_closed st w then alarmGuidance w
       else if guard_ok (effectiveFlightStatus w) (systemSettingsObj w)
       then if fix3D w
            then if (calculateCourseStep st =? 0) || (calculateCourseStep st =? 1)
                 then alarmGuidance w
                 else SYSTEMALARMS_ALARM_OK
            else SYSTEMALARMS_ALARM_WARNING
       else SYSTEMALARMS_ALARM_OK)
    /\ alarmManualControl (out_world (task st w)) = alarmManualControl w).
  { call_cases st w.
    - split; reflexivity.
    - rewrite Hstep0. cbn. now split.
    - rewrite Hstep1. cbn. now split.
    - replace (calculateCourseStep st =? 0) with false by (symmetry; now apply Z.eqb_neq).
      replace (calculateCourseStep st =? 1) with false by (symmetry; now apply Z.eqb_neq).
      unfold setpoint3D, publish. cbn. now split.
    - unfold fallback, publish. cbn. now split.
    - cbn. now split. }
  destruct Hmain as [H1 H2].
  split; [exact H1|]. split; [exact H2|].
  split; [|split; reflexivity].
  rewrite H1. intros H.
  destruct (gate_closed st w); [reflexivity|].
  destruct (guard_ok _ _); [|destruct H; discriminate].
  destruct (fix3D w); [|destruct H; discriminate].
  destruct (_ || _); [reflexivity|destruct H; discriminate].
Qed.

Lemma failsafeEvents_flightStatus (w : World) (d : FlightStatusData) :
  In (EvFlightStatusSet d) (failsafeEvents w) ->
  failsafe_active w = true /\ d = effectiveFlightStatus w.
Proof.
  unfold failsafeEvents. destruct (failsafe_active w) eqn:E; cbn; [|tauto].
  intros [H|[]]. injection H as <-. now split.
Qed.

Lemma effectiveFlightStatus_Armed (w : World) :
  Armed (effectiveFlightStatus w) = Armed (flightStatusObj w).
Proof. unfold effectiveFlightStatus. destruct (failsafe_active w); reflexivity. Qed.

Lemma call_objects (st : Statics) (w : World) :
  let o := task st w in
  ccguidanceSettingsObj (out_world o) = ccguidanceSettingsObj w
  /\ systemSettingsObj (out_world o) = systemSettingsObj w
  /\ gpsPositionObj (out_world o) = gpsPositionObj w
  /\ manualControlCommandObj (out_world o) = manualControlCommandObj w
  /\ attitudeActualObj (out_world o) = attitudeActualObj w
  /\ flightStatusObj (out_world o)
     = (if gate_closed st w then flightStatusObj w else effectiveFlightStatus w).
Proof.
  cbv zeta.
  destruct (failsafeWorld_frame w) as (Ecc & Ess & Egps & Estab & Eman & Eatt & Eal & Efs).
  call_cases st w.
  - cbn. repeat split; reflexivity.
  - cbv zeta. destruct (Armed_eqb _ _ && _); cbn; repeat split; assumption.
  - cbv zeta. destruct (fgt _ _); cbn; repeat split; assumption.
  - unfold setpoint3D, publish. cbn. repeat split; assumption.
  - unfold fallback, publish. cbn. repeat split; assumption.
  - cbn. repeat split; assumption.
Qed.

Lemma call_flightStatus_events (st : Statics) (w : World) (d : FlightStatusData) :
  In (EvFlightStatusSet d) (out_events (task st w)) ->
  gate_closed st w = false /\ In (EvFlightStatusSet d) (failsafeEvents w).
Proof.
  assert (Hin : forall ev : list Event,
            (forall e, In e ev -> forall x, e <> EvFlightStatusSet x) ->
            In (EvFlightStatusSet d) (failsafeEvents w ++ ev) ->
            In (EvFlightStatusSet d) (failsafeEvents w)).
  { intros ev Hno H. apply in_app_or in H. destruct H as [H|H]; [exact H|].
    exfalso. exact (Hno _ H d eq_refl). }
  call_cases st w; intros Hd.
  - destruct Hd.
  - cbv zeta in Hd. cbn in Hd. now split.
  - cbv zeta in Hd. cbn in Hd. now split.
  - unfold setpoint3D, publish in Hd. cbn in Hd. rewrite <- app_assoc in Hd.
    split; [reflexivity|]. apply Hin in Hd; [exact Hd|].
    intros e [<-|[<-|[]]] x; discriminate.
  - unfold fallback, publish in Hd. cbn in Hd. rewrite <- app_assoc in Hd.
    split; [reflexivity|]. apply Hin in Hd; [exact Hd|].
    intros e [<-|[<-|[]]] x; discriminate.
  - cbn in Hd. split; [reflexivity|]. apply Hin in Hd; [exact Hd|].
    intros e [<-|[]] x; discriminate.
Qed.

(** X8: what a call never touches.  The settings, system-settings, GPS,
    manual-control and attitude objects are as before, and the armed state
    too.  The flight status is written only by a gated call with the
    failsafe active, and then with the mode ReturnToBase: with the gate
    closed or the failsafe inactive the flight-status object is as before
    and no flight status is written. *)
Theorem call_frame (st : Statics) (w : World) :
  let o := task st w in
  ccguidanceSettingsObj (out_world o) = ccguidanceSettingsObj w
  /\ systemSettingsObj (out_world o) = systemSettingsObj w
  /\ gpsPositionObj (out_world o) = gpsPositionObj w
  /\ manualControlCommandObj (out_world o) = manualControlCommandObj w
  /\ attitudeActualObj (out_world o) = attitudeActualObj w
  /\ Armed (flightStatusObj (out_world o)) = Armed (flightStatusObj w)
  /\ (forall d, In (EvFlightStatusSet d) (out_events o) ->
        gate_closed st w = false /\ failsafe_active w = true
        /\ d = set_FlightMode FLIGHTSTATUS_FLIGHTMODE_RETURNTOBASE (flightStatusObj w))
  /\ (gate_closed st w = true \/ failsafe_active w = false ->
      flightStatusObj (out_world o) = flightStatusObj w
      /\ forall d, ~ In (EvFlightStatusSet d) (out_events o)).
Proof.
  cbv zeta.
  destruct (call_objects st w) as (Ecc & Ess & Egps & Eman & Eatt & Efs).
  assert (Hev : forall d, In (EvFlightStatusSet d) (out_events (task st w)) ->
                gate_closed st w = false /\ failsafe_active w = true
                /\ d = set_FlightMode FLIGHTSTATUS_FLIGHTMODE_RETURNTOBASE (flightStatusObj w)).
  { intros d Hd. destruct (call_flightStatus_events st w d Hd) as [Hg Hin].
    destruct (failsafeEvents_flightStatus w d Hin) as [Ha ->].
    split; [exact Hg|]. split; [exact Ha|]. unfold effectiveFlightStatus. now rewrite Ha. }
  split; [exact Ecc|]. split; [exact Ess|]. split; [exact Egps|].
  split; [exact Eman|]. split; [exact Eatt|].
  split.
  { rewrite Efs. destruct (gate_closed st w); [reflexivity|].
    apply effectiveFlightStatus_Armed. }
  split; [exact Hev|].
  intros H. split.
  - rewrite Efs. destruct (gate_closed st w); [reflexivity|].
    destruct H as [H|H]; [discriminate|]. unfold effectiveFlightStatus. now rewrite H.
  - intros d Hd. destruct (Hev d Hd) as (Hg & Ha & _).
    destruct H as [H|H]; congruence.
Qed.

(** ** The rate gate *)

Lemma task_lastUpdateTime (st : Statics) (w : World) :
  lastUpdateTime (out_statics (task st w))
  = if gate_closed st w
    then (if lastUpdateTime st =? 0 then tickAtInit w else lastUpdateTime st)
    else tickNow w.
Proof.
  change (lastUpdateTime (out_statics (task st w)))
    with (c_lastUpdateTime (control (out_statics (task st w)))).
  rewrite control_sim, rate_gate_closed_eq. unfold control_step, control. cbv zeta.
  cbn [c_lastUpdateTime c_positionHoldLast c_calculateCourseStep c_StateSave].
  destruct (_ <? _); [reflexivity|].
  destruct (guard_ok _ _); [|reflexivity].
  destruct (fix3D w); [|reflexivity].
  switch_cases (calculateCourseStep st); reflexivity.
Qed.

(** X9: after an update at a tick other than 0, a call that comes before
    [UpdatePeriod / portTICK_RATE_MS] ticks have gone by writes nothing and
    leaves the statics and the world as they are.  An update at tick 0
    leaves [lastUpdateTime] at 0, which the next call takes for "never
    updated": it measures from its own first reading of the clock. *)
Theorem one_update_per_period (st : Statics) (w : World) :
  gate_closed st w = false ->
  let st' := out_statics (task st w) in
  (tickNow w <> 0 ->
   forall w2,
     tick_sub (tickNow w2) (tickNow w)
       < UpdatePeriod (ccguidanceSettingsObj w2) ÷ portTICK_RATE_MS ->
     task st' w2 = mkOutcome st' w2 [] (ccguidanceSettingsObj w2))
  /\ (tickNow w = 0 ->
      forall w2,
        gate_closed st' w2
        = (tick_sub (tickNow w2) (tickAtInit w2)
           <? UpdatePeriod (ccguidanceSettingsObj w2) ÷ portTICK_RATE_MS)).
Proof.
  intros Hg. cbv zeta.
  assert (Hl : lastUpdateTime (out_statics (task st w)) = tickNow w)
    by (now rewrite task_lastUpdateTime, Hg).
  split.
  - intros Hn w2 Hlt.
    assert (Hc : gate_closed (out_statics (task st w)) w2 = true).
    { rewrite rate_gate_closed_eq, Hl.
      replace (tickNow w =? 0) with false by (symmetry; now apply Z.eqb_neq).
      now apply Z.ltb_lt. }
    rewrite task_gate_closed by exact Hc. rewrite Hl.
    replace (tickNow w =? 0) with false by (symmetry; now apply Z.eqb_neq).
    reflexivity.
  - intros Hz w2. rewrite rate_gate_closed_eq, Hl, Hz. reflexivity.
Qed.

(** X10: the rate gate measures the elapsed ticks across the wrap-around of
    the 32-bit tick counter: with the last update at a tick other than 0 and
    [e] ticks gone by, the gate is closed exactly when
    [e < UpdatePeriod / portTICK_RATE_MS]. *)
Theorem gate_measures_elapsed_ticks (st : Statics) (w : World) (e : Z) :
  0 < lastUpdateTime st < 2 ^ 32 ->
  0 <= e < 2 ^ 32 ->
  tickNow w = (lastUpdateTime st + e) mod 2 ^ 32 ->
  gate_closed st w = (e <? UpdatePeriod (ccguidanceSettingsObj w) ÷ portTICK_RATE_MS).
Proof.
  intros Hl He Ht. rewrite rate_gate_closed_eq.
  replace (lastUpdateTime st =? 0) with false by (symmetry; apply Z.eqb_neq; lia).
  unfold tick_sub. rewrite Ht, Zminus_mod_idemp_l.
  replace (lastUpdateTime st + e - lastUpdateTime st) with e by lia.
  now rewrite Z.mod_small by lia.
Qed.

(** ** The setpoint with a 3D fix *)

Lemma setpoint3D_fields (st0 : Statics) (w0 : World) (ev : list Event)
    (cc : CCGuidanceSettingsData) (p : GPSPositionData) (sd0 : StabilizationDesiredData) :
  let o := setpoint3D st0 w0 ev cc p sd0 in
  let sd := stabilizationDesiredObj (out_world o) in
  Roll sd = Roll_NEUTRAL cc
  /\ StabilizationMode_YAW sd = STABILIZATIONDESIRED_STABILIZATIONMODE_ATTITUDE
  /\ alarmGuidance (out_world o) = SYSTEMALARMS_ALARM_OK
  /\ In (EvAlarmsClear SYSTEMALARMS_ALARM_GUIDANCE) (out_events o)
  /\ Pitch sd = (if flt (Altitude p + GeoidSeparation p)%cf (positionDesiredDown st0)
                 then Pitch_CLIMB cc else Pitch_SINK cc)
  /\ Yaw sd = courseRelative (out_statics o).
Proof.
  cbv zeta. unfold setpoint3D, publish. cbn.
  assert (Hin : In (EvAlarmsClear SYSTEMALARMS_ALARM_GUIDANCE)
                  ((ev ++ [EvAlarmsClear SYSTEMALARMS_ALARM_GUIDANCE]) ++
                   [EvStabilizationDesiredSet
                      (stabilizationDesiredObj
                         (out_world (setpoint3D st0 w0 ev cc p sd0)))]))
    by (apply in_or_app; left; apply in_or_app; right; now left).
  unfold setpoint3D, publish in Hin. cbn in Hin.
  destruct (fgt (of_int _) _); cbn in *; destruct (flt _ _); cbn;
    repeat split; try reflexivity; exact Hin.
Qed.

(** X11: the setpoint of a processing call at step 2 has the neutral roll
    and yaw mode Attitude, and the guidance alarm is cleared.  Its pitch is
    the climb pitch when the [float] sum altitude + geoid separation is below
    the target altitude, and the sink pitch otherwise: also when the sum is
    the target altitude, and when the altitude is NaN.  So the pitch is the
    sink pitch when the exact sum is at least a target altitude that is a
    [float], and the climb pitch when a [float] below the target is at least
    the exact sum; an exact sum below the target may round to the target,
    and then the pitch is the sink pitch. *)
Theorem course_setpoint (st : Statics) (w : World) :
  gate_closed st w = false ->
  guard_ok (effectiveFlightStatus w) (systemSettingsObj w) = true ->
  fix3D w = true ->
  calculateCourseStep st = 2 ->
  let o := task st w in
  let sd := stabilizationDesiredObj (out_world o) in
  let cc := ccguidanceSettingsObj w in
  Roll sd = Roll_NEUTRAL cc
  /\ StabilizationMode_YAW sd = STABILIZATIONDESIRED_STABILIZATIONMODE_ATTITUDE
  /\ alarmGuidance (out_world o) = SYSTEMALARMS_ALARM_OK
  /\ In (EvAlarmsClear SYSTEMALARMS_ALARM_GUIDANCE) (out_events o)
  /\ (Pitch sd = Pitch_CLIMB cc \/ Pitch sd = Pitch_SINK cc)
  /\ (forall a g t,
        Altitude (gpsPositionObj w) = Fin a ->
        GeoidSeparation (gpsPositionObj w) = Fin g ->
        positionDesiredDown (atSwitch st w) = Fin t ->
        ((round_f (a + g) < t)%R -> Pitch sd = Pitch_CLIMB cc)
        /\ ((t <= round_f (a + g))%R -> Pitch sd = Pitch_SINK cc)
        /\ (round_f t = t -> (t <= a + g)%R -> Pitch sd = Pitch_SINK cc)
        /\ (forall f, round_f f = f -> (a + g <= f < t)%R -> Pitch sd = Pitch_CLIMB cc))
  /\ (Altitude (gpsPositionObj w) = NaN -> Pitch sd = Pitch_SINK cc).
Proof.
  intros Hg Hq Hf Hs. cbv zeta.
  rewrite task_at_step2 by assumption. cbv zeta.
  match goal with
  | |- context [setpoint3D ?st0 ?w0 ?ev ?cc ?p ?sd0] =>
      destruct (setpoint3D_fields st0 w0 ev cc p sd0) as (H1 & H2 & H3 & H4 & H5 & _)
  end.
  cbn [positionDesiredDown set_courseTrue] in H5.
  split; [exact H1|]. split; [exact H2|]. split; [exact H3|]. split; [exact H4|].
  rewrite H5.
  split; [destruct (flt _ _); tauto|].
  split.
  - intros a g t Ea Eg Et. rewrite Ea, Eg, Et. unfold fadd, lift2, flt.
    assert (Hclimb : (round_f (a + g) < t)%R ->
              (if Rltb (round_f (a + g)) t
               then Pitch_CLIMB (ccguidanceSettingsObj w)
               else Pitch_SINK (ccguidanceSettingsObj w))
              = Pitch_CLIMB (ccguidanceSettingsObj w)).
    { intros H. now replace (Rltb (round_f (a + g)) t) with true
        by (symmetry; now apply Rltb_true). }
    assert (Hsink : (t <= round_f (a + g))%R ->
              (if Rltb (round_f (a + g)) t
               then Pitch_CLIMB (ccguidanceSettingsObj w)
               else Pitch_SINK (ccguidanceSettingsObj w))
              = Pitch_SINK (ccguidanceSettingsObj w)).
    { intros H. now replace (Rltb (round_f (a + g)) t) with false
        by (symmetry; now apply Rltb_false). }
    split; [exact Hclimb|]. split; [exact Hsink|]. split.
    + intros Ht H. apply Hsink. now apply round_f_ge.
    + intros f Ef [H H']. apply Hclimb.
      apply Rle_lt_trans with f; [now apply round_f_le|exact H'].
  - intros Ea. rewrite Ea. reflexivity.
Qed.

(** ** The target selector: return to base *)

Lemma homeRequested_not_hold (fs : FlightStatusData) (cc : CCGuidanceSettingsData) :
  homeRequested fs cc = true -> holdRequested fs cc = false.
Proof.
  unfold holdRequested, homeRequested.
  destruct (FlightMode fs), (HomeLocationSet cc); cbn; congruence.
Qed.

Lemma atSwitch_target_home (st : Statics) (w : World) :
  homeRequested (effectiveFlightStatus w) (ccguidanceSettingsObj w) = true ->
  desiredTarget (atSwitch st w)
  = (if positionHoldLast st =? 2 then desiredTarget st
     else targetOfHome (ccguidanceSettingsObj w))
  /\ positionHoldLast (atSwitch st w) = 2.
Proof.
  intros H. rewrite atSwitch_target, atSwitch_hold, H, (homeRequested_not_hold _ _ H).
  rewrite !andb_false_r, !andb_true_r.
  destruct (Z.eqb_spec (positionHoldLast st) 2) as [E|E]; cbn; split; try reflexivity.
  exact E.
Qed.

(** X12: a gated call that passes the guard in mode ReturnToBase with a
    home location set makes the home location the desired target, with the
    altitude raised by [ReturnTobaseAltitudeOffset], and sets
    [positionHoldLast] to 2, unless [positionHoldLast] is 2 already: then
    the target is kept, whatever home location the settings hold by now. *)
Theorem return_to_base_target (st : Statics) (w : World) :
  gate_closed st w = false ->
  guard_ok (effectiveFlightStatus w) (systemSettingsObj w) = true ->
  FlightMode (effectiveFlightStatus w) = FLIGHTSTATUS_FLIGHTMODE_RETURNTOBASE ->
  HomeLocationSet (ccguidanceSettingsObj w) = true ->
  let st' := out_statics (task st w) in
  let cc := ccguidanceSettingsObj w in
  positionHoldLast st' = 2
  /\ (positionHoldLast st <> 2 ->
      desiredTarget st'
      = (degrees (HomeLocationLatitude cc),
         degrees (HomeLocationLongitude cc),
         (HomeLocationAltitude cc + ReturnTobaseAltitudeOffset cc)%cf))
  /\ (positionHoldLast st = 2 -> desiredTarget st' = desiredTarget st).
Proof.
  intros Hg Hq Hm Hh. cbv zeta.
  assert (Hr : homeRequested (effectiveFlightStatus w) (ccguidanceSettingsObj w) = true)
    by (unfold homeRequested; now rewrite Hm, Hh).
  destruct (atSwitch_target_home st w Hr) as [Et Ep].
  rewrite task_target, task_hold, Hg, Hq, Et, Ep.
  split; [reflexivity|]. split; intros H.
  - replace (positionHoldLast st =? 2) with false by (symmetry; now apply Z.eqb_neq).
    reflexivity.
  - now rewrite H.
Qed.

(** X13: the target of the failsafe.  A gated call with the failsafe active
    that passes the guard, coming from outside the guidance branch
    ([positionHoldLast] 0), flies to the home location when one is set and
    holds the position of the present fix when none is. *)
Theorem failsafe_target (st : Statics) (w : World) :
  gate_closed st w = false ->
  failsafe_active w = true ->
  guard_ok (effectiveFlightStatus w) (systemSettingsObj w) = true ->
  positionHoldLast st = 0 ->
  let st' := out_statics (task st w) in
  (HomeLocationSet (ccguidanceSettingsObj w) = true ->
   desiredTarget st' = targetOfHome (ccguidanceSettingsObj w) /\ positionHoldLast st' = 2)
  /\ (HomeLocationSet (ccguidanceSettingsObj w) = false ->
      desiredTarget st' = targetOfFix (gpsPositionObj w) /\ positionHoldLast st' = 1).
Proof.
  intros Hg Ha Hq Hp. cbv zeta.
  assert (Hm : FlightMode (effectiveFlightStatus w) = FLIGHTSTATUS_FLIGHTMODE_RETURNTOBASE)
    by (unfold effectiveFlightStatus; now rewrite Ha).
  rewrite task_target, task_hold, Hg, Hq, atSwitch_target, atSwitch_hold, Hp.
  unfold holdRequested, homeRequested, targetOfHome. rewrite Hm.
  split; intros Hh; rewrite Hh; cbn; split; reflexivity.
Qed.

(** ** The numbers kept between calls *)

Lemma sphereCourse_within (lat1 long1 lat2 long2 zeta : cfloat) :
  within (-180) 180 (sphereCourse lat1 long1 lat2 long2 zeta).
Proof.
  unfold sphereCourse, within.
  destruct (sphereCourse_acos_cases lat1 lat2 zeta) as [E|[g [E Hg]]]; rewrite E; cbn [isnan];
    destruct (fge _ _); cbn [fneg]; eexists; (split; [reflexivity|lra]).
Qed.








(** What a call can put in the four numbers it computes. *)
Lemma task_numbers (st : Statics) (w : World) :
  let st' := out_statics (task st w) in
  (DistanceToBase st' = DistanceToBase st
   \/ exists a b c d, DistanceToBase st' = sphereDistance a b c d)
  /\ (courseTrue st' = courseTrue st
      \/ exists a b c d z, courseTrue st' = sphereCourse a b c d z)
  /\ (diffHeadingYaw st' = diffHeadingYaw st
      \/ diffHeadingYaw st'
         = wrap180 (att_Yaw (attitudeActualObj w) - Heading (gpsPositionObj w))%cf)
  /\ (courseRelative st' = courseRelative st
      \/ courseRelative st' = wrap180 (courseTrue st' + diffHeadingYaw st)%cf).
Proof.
  cbv zeta.
  destruct (atSwitch_frame st w) as (E1 & E2 & E3 & E4 & E5 & E6 & E7 & E8).
  call_cases st w.
  - cbn. destruct (lastUpdateTime st =? 0); cbn; repeat split; now left.
  - cbv zeta. destruct (Armed_eqb _ _ && _); cbn; rewrite E3, E4, E5, E6;
      repeat split; now left.
  - cbv zeta. destruct (fgt _ _); cbn; rewrite E3, E4, ?E5.
    + split; [right; now do 4 eexists|]. split; [now left|]. split; [now right|now left].
    + split; [right; now do 4 eexists|]. split; [now left|]. split; [now left|now left].
  - unfold beforeSetpoint, setpoint3D, publish.
    destruct (calculateCourseStep st =? 2); cbn; destruct (fgt (of_int _) _); cbn;
      rewrite ?E3, ?E4, ?E5, ?E6;
      (split; [now left|]);
      (split; [first [now left | right; now do 5 eexists]|]);
      (split; [now left|]); first [now left | now right].
  - unfold fallback, publish. cbn. rewrite E3, E4, E5, E6. repeat split; now left.
  - cbn. repeat split; now left.
Qed.

Lemma numeric_inv_kept (st : Statics) (w : World) :
  numeric_inv st -> numeric_inv (out_statics (task st w)).
Proof.
  intros [Hd Hc]. destruct (task_numbers st w) as (Ed & Ec & _).
  split.
  - destruct Ed as [->|(a & b & c & d & ->)]; [exact Hd|apply sphereDistance_cases].
  - destruct Ec as [->|(a & b & c & d & z & ->)]; [exact Hc|apply sphereCourse_within].
Qed.

Lemma numeric_inv_run (ws : list World) :
  forall st, numeric_inv st -> numeric_inv (run_from st ws).
Proof.
  induction ws as [|w ws IH]; intros st H; cbn [run]; [exact H|].
  apply IH, numeric_inv_kept, H.
Qed.

Lemma within_0 (lo hi : R) : (lo <= 0 <= hi)%R -> within lo hi (Fin 0).
Proof. intros H. exists 0%R. now split. Qed.

Lemma numeric_inv_statics0 : numeric_inv statics0.
Proof. split; apply within_0; lra. Qed.

(** X14: whatever the inputs of a run from the initial statics are (NaN
    included), the stored distance is a number of [0, 180] and the stored
    true course a number of [-180, 180].  So the product converted to [int]
    on line 240 is never NaN and its integer part is at most 19999980, well
    inside the range of a 32-bit [int]. *)
Theorem distance_and_course_in_range (ws : list World) :
  let st := run_from statics0 ws in
  within 0 180 (DistanceToBase st)
  /\ within (-180) 180 (courseTrue st)
  /\ exists d, (DistanceToBase st * Fin 111111)%cf = Fin d
               /\ (0 <= d <= 19999980)%R
               /\ 0 <= to_int (Fin d) <= 19999980
               /\ 19999980 < 2 ^ 31.
Proof.
  cbv zeta.
  destruct (numeric_inv_run ws statics0 numeric_inv_statics0) as [Hd Hc].
  split; [exact Hd|]. split; [exact Hc|].
  destruct Hd as [z [Ez Hz]]. rewrite Ez.
  exists (round_f (z * 111111)). split; [reflexivity|].
  assert (Hb : (0 <= round_f (z * 111111) <= 19999980)%R).
  { apply round_f_between; [round_const| |lra].
    apply round_f_id, (representable_int4 4999995). lia. }
  split; [exact Hb|].
  destruct (to_int_truncates (round_f (z * 111111))) as (Htr & Hpos & _).
  specialize (Hpos (proj1 Hb)).
  rewrite Z.abs_eq in Htr by exact Hpos.
  rewrite Rabs_right in Htr by lra.
  split; [|reflexivity].
  split; [exact Hpos|]. apply le_IZR. lra.
Qed.

(** ** The yaw setpoint *)




Lemma processing_parts (st : Statics) (w : World) :
  processing PARSE_FLIGHT_MODE portTICK_RATE_MS st w = true ->
  gate_closed st w = false
  /\ guard_ok (effectiveFlightStatus w) (systemSettingsObj w) = true
  /\ fix3D w = true.
Proof.
  unfold processing. intros H.
  apply andb_prop in H. destruct H as [H Hf].
  apply andb_prop in H. destruct H as [Hg Hq].
  apply negb_true_iff in Hg. now repeat split.
Qed.




(** ** A round of three calls *)

Lemma after_step0 (st : Statics) (w : World) :
  processing PARSE_FLIGHT_MODE portTICK_RATE_MS st w = true ->
  calculateCourseStep st = 0 ->
  let o := task st w in
  calculateCourseStep (out_statics o) = 1
  /\ positionActualNorth (out_statics o) = degrees (Latitude (gpsPositionObj w))
  /\ positionActualEast (out_statics o) = degrees (Longitude (gpsPositionObj w))
  /\ setpoints (out_events o) = [].
Proof.
  intros Hp Hs. destruct (processing_parts st w Hp) as (Hg & Hq & Hf). cbv zeta.
  rewrite task_at_step0 by assumption. cbv zeta.
  destruct (Armed_eqb _ _ && _); cbn; rewrite setpoints_failsafeEvents; now repeat split.
Qed.

Lemma after_step1 (st : Statics) (w : World) :
  processing PARSE_FLIGHT_MODE portTICK_RATE_MS st w = true ->
  calculateCourseStep st = 1 ->
  let o := task st w in
  calculateCourseStep (out_statics o) = 2
  /\ positionActualNorth (out_statics o) = positionActualNorth st
  /\ positionActualEast (out_statics o) = positionActualEast st
  /\ DistanceToBase (out_statics o)
     = sphereDistance (positionActualNorth st) (positionActualEast st)
         (positionDesiredNorth (atSwitch st w)) (positionDesiredEast (atSwitch st w))
  /\ setpoints (out_events o) = [].
Proof.
  intros Hp Hs. destruct (processing_parts st w Hp) as (Hg & Hq & Hf). cbv zeta.
  destruct (atSwitch_frame st w) as (_ & _ & _ & _ & _ & _ & E7 & E8).
  rewrite task_at_step1 by assumption. cbv zeta.
  destruct (fgt _ _); cbn; rewrite setpoints_failsafeEvents, E7, E8; now repeat split.
Qed.

Lemma after_step2 (st : Statics) (w : World) :
  processing PARSE_FLIGHT_MODE portTICK_RATE_MS st w = true ->
  calculateCourseStep st = 2 ->
  let o := task st w in
  calculateCourseStep (out_statics o) = 0
  /\ DistanceToBase (out_statics o) = DistanceToBase st
  /\ courseTrue (out_statics o)
     = sphereCourse (positionActualNorth st) (positionActualEast st)
         (positionDesiredNorth (atSwitch st w)) (positionDesiredEast (atSwitch st w))
         (DistanceToBase st)
  /\ setpoints (out_events o) = [stabilizationDesiredObj (out_world o)]
  /\ alarmGuidance (out_world o) = SYSTEMALARMS_ALARM_OK.
Proof.
  intros Hp Hs. destruct (processing_parts st w Hp) as (Hg & Hq & Hf). cbv zeta.
  destruct (atSwitch_frame st w) as (_ & _ & _ & _ & _ & E6 & _).
  rewrite task_at_step2 by assumption. cbv zeta.
  unfold setpoint3D, publish. cbn.
  rewrite !setpoints_app, setpoints_failsafeEvents. cbn.
  destruct (fgt (of_int _) _); cbn; rewrite E6; now repeat split.
Qed.

(** X16: three processing calls in a row, starting at step 0, make one
    round: the first two publish nothing, the third publishes one setpoint,
    clears the guidance alarm and is back at step 0.  The distance and the
    course of that setpoint are those seen from the position of the first
    call: the distance to the target as the second call has it, the course
    to the target as the third call has it. *)
Theorem three_call_round (st : Statics) (w1 w2 w3 : World) :
  calculateCourseStep st = 0 ->
  let o1 := task st w1 in
  let o2 := task (out_statics o1) w2 in
  let o3 := task (out_statics o2) w3 in
  processing PARSE_FLIGHT_MODE portTICK_RATE_MS st w1 = true ->
  processing PARSE_FLIGHT_MODE portTICK_RATE_MS (out_statics o1) w2 = true ->
  processing PARSE_FLIGHT_MODE portTICK_RATE_MS (out_statics o2) w3 = true ->
  let north := degrees (Latitude (gpsPositionObj w1)) in
  let east := degrees (Longitude (gpsPositionObj w1)) in
  setpoints (out_events o1) = []
  /\ setpoints (out_events o2) = []
  /\ setpoints (out_events o3) = [stabilizationDesiredObj (out_world o3)]
  /\ alarmGuidance (out_world o3) = SYSTEMALARMS_ALARM_OK
  /\ calculateCourseStep (out_statics o3) = 0
  /\ DistanceToBase (out_statics o3)
     = sphereDistance north east
         (positionDesiredNorth (atSwitch (out_statics o1) w2))
         (positionDesiredEast (atSwitch (out_statics o1) w2))
  /\ courseTrue (out_statics o3)
     = sphereCourse north east
         (positionDesiredNorth (atSwitch (out_statics o2) w3))
         (positionDesiredEast (atSwitch (out_statics o2) w3))
         (DistanceToBase (out_statics o3)).
Proof.
  intros Hs o1 o2 o3 Hp1 Hp2 Hp3 north east.
  destruct (after_step0 st w1 Hp1 Hs) as (S1 & N1 & E1 & P1).
  destruct (after_step1 (out_statics o1) w2 Hp2 S1) as (S2 & N2 & E2 & D2 & P2).
  destruct (after_step2 (out_statics o2) w3 Hp3 S2) as (S3 & D3 & C3 & P3 & A3).
  fold o1 in N1, E1. fold o2 in N2, E2, D2. fold o3 in D3, C3.
  split; [exact P1|]. split; [exact P2|]. split; [exact P3|]. split; [exact A3|].
  split; [exact S3|].
  split.
  - rewrite D3, D2, N1, E1. reflexivity.
  - rewrite C3, D3, N2, E2, N1, E1. reflexivity.
Qed.

(** ** The phase of the target selector *)

Lemma control_step_values (c : Control) (w : World) :
  (c_positionHoldLast c = 0 \/ c_positionHoldLast c = 1 \/ c_positionHoldLast c = 2) ->
  (c_StateSave c = 0 \/ c_StateSave c = 1) ->
  let c' := control_step PARSE_FLIGHT_MODE portTICK_RATE_MS c w in
  (c_positionHoldLast c' = 0 \/ c_positionHoldLast c' = 1 \/ c_positionHoldLast c' = 2)
  /\ (c_StateSave c' = 0 \/ c_StateSave c' = 1).
Proof.
  intros Hp Hs. cbv zeta. unfold control_step. cbv zeta.
  destruct (_ <? _); [now split|].
  destruct (guard_ok _ _); [|cbn; split; [now left|exact Hs]].
  destruct (fix3D w); [switch_cases (c_calculateCourseStep c)|];
    cbn; (split; [split_ifs; tauto|]); try exact Hs.
  destruct (Armed_eqb _ _ && _); [now right|exact Hs].
Qed.

(** X17: in every run from the initial statics [positionHoldLast] is 0, 1 or
    2, and the home flag is 0 or 1. *)
Theorem selector_phase_values (ws : list World) :
  let st := run_from statics0 ws in
  (positionHoldLast st = 0 \/ positionHoldLast st = 1 \/ positionHoldLast st = 2)
  /\ (StateSaveCurrentPositionToRTB st = 0 \/ StateSaveCurrentPositionToRTB st = 1).
Proof.
  cbv zeta.
  change (positionHoldLast (run_from statics0 ws))
    with (c_positionHoldLast (control (run_from statics0 ws))).
  change (StateSaveCurrentPositionToRTB (run_from statics0 ws))
    with (c_StateSave (control (run_from statics0 ws))).
  rewrite run_control.
  assert (H : forall c,
    (c_positionHoldLast c = 0 \/ c_positionHoldLast c = 1 \/ c_positionHoldLast c = 2) ->
    (c_StateSave c = 0 \/ c_StateSave c = 1) ->
    (c_positionHoldLast (control_run PARSE_FLIGHT_MODE portTICK_RATE_MS c ws) = 0
     \/ c_positionHoldLast (control_run PARSE_FLIGHT_MODE portTICK_RATE_MS c ws) = 1
     \/ c_positionHoldLast (control_run PARSE_FLIGHT_MODE portTICK_RATE_MS c ws) = 2)
    /\ (c_StateSave (control_run PARSE_FLIGHT_MODE portTICK_RATE_MS c ws) = 0
        \/ c_StateSave (control_run PARSE_FLIGHT_MODE portTICK_RATE_MS c ws) = 1)).
  { induction ws as [|w ws IH]; intros c Hp Hs; cbn [control_run]; [now split|].
    destruct (control_step_values c w Hp Hs) as [Hp' Hs']. now apply IH. }
  apply H; cbn; now left.
Qed.

(** ** Target capture and fix quality *)

(** X18: the target selector runs before the test of the fix.  A gated call
    that enters the hold without a 3D fix captures the position the GPS
    object holds at that moment, and a later call of the same hold keeps
    that target: it is not captured again when the fix has become 3D. *)
Theorem hold_target_captured_without_fix (st : Statics) (w1 w2 : World) :
  gate_closed st w1 = false ->
  guard_ok (effectiveFlightStatus w1) (systemSettingsObj w1) = true ->
  holdRequested (effectiveFlightStatus w1) (ccguidanceSettingsObj w1) = true ->
  positionHoldLast st <> 1 ->
  fix3D w1 = false ->
  let st1 := out_statics (task st w1) in
  desiredTarget st1 = targetOfFix (gpsPositionObj w1)
  /\ (gate_closed st1 w2 = false ->
      guard_ok (effectiveFlightStatus w2) (systemSettingsObj w2) = true ->
      holdRequested (effectiveFlightStatus w2) (ccguidanceSettingsObj w2) = true ->
      fix3D w2 = true ->
      desiredTarget (out_statics (task st1 w2)) = targetOfFix (gpsPositionObj w1)).
Proof.
  intros Hg Hq Hh Hp Hf. cbv zeta.
  destruct (hold_entered PARSE_FLIGHT_MODE portTICK_RATE_MS st w1 Hg Hq Hh Hp) as [Et Ep].
  split; [exact Et|].
  intros Hg2 Hq2 Hh2 _.
  destruct (hold_kept PARSE_FLIGHT_MODE portTICK_RATE_MS _ w2 Ep (or_intror (conj Hq2 Hh2)))
    as [Et2 _].
  now rewrite Et2.
Qed.

End FurtherTaskProperties.

(** ** The further properties on the reference inputs *)

Section FurtherReference.

Local Abbreviation task_ref := (ccguidanceTask PARSE_FLIGHT_MODE_ref portTICK_RATE_MS_ref).
Local Abbreviation run_ref := (run PARSE_FLIGHT_MODE_ref portTICK_RATE_MS_ref).
Local Abbreviation processing_ref := (processing PARSE_FLIGHT_MODE_ref portTICK_RATE_MS_ref).

Lemma processing_after (st : Statics) (w w2 : World) :
  processing_ref (out_statics (task_ref st w)) w2
  = processing_ref
      (of_control (control_step PARSE_FLIGHT_MODE_ref portTICK_RATE_MS_ref (control st) w)) w2.
Proof. now rewrite processing_control, control_sim. Qed.

(** X9 on the reference inputs: an update at tick 1100, the next call at
    tick 1150 with a period of 100 ticks. *)
Lemma one_update_per_period_witness :
  let w := world_ref FLIGHTSTATUS_ARMED_ARMED FLIGHTSTATUS_FLIGHTMODE_POSITIONHOLD
             gps_ref SYSTEMALARMS_ALARM_OK 1100 in
  let w2 := world_ref FLIGHTSTATUS_ARMED_ARMED FLIGHTSTATUS_FLIGHTMODE_MANUAL
              gps_ref SYSTEMALARMS_ALARM_OK 1150 in
  out_events (task_ref (out_statics (task_ref statics_ref w)) w2) = [].
Proof.
  intros w w2.
  destruct (one_update_per_period PARSE_FLIGHT_MODE_ref portTICK_RATE_MS_ref statics_ref w
              eq_refl) as [H _].
  assert (Hn : tickNow w <> 0) by discriminate.
  assert (Hlt : tick_sub (tickNow w2) (tickNow w)
                < UpdatePeriod (ccguidanceSettingsObj w2) ÷ portTICK_RATE_MS_ref)
    by reflexivity.
  now rewrite (H Hn w2 Hlt).
Defined.

(** X10 on the reference inputs: the last update 50 ticks before the counter
    wraps, the call 60 ticks after: 110 ticks, the gate is open. *)
Lemma gate_measures_elapsed_ticks_witness :
  rate_gate_closed portTICK_RATE_MS_ref (set_lastUpdateTime 4294967246 statics0)
    (world_ref FLIGHTSTATUS_ARMED_ARMED FLIGHTSTATUS_FLIGHTMODE_POSITIONHOLD
       gps_ref SYSTEMALARMS_ALARM_OK 60)
  = false.
Proof.
  assert (H1 : 0 < lastUpdateTime (set_lastUpdateTime 4294967246 statics0) < 2 ^ 32)
    by (cbn; lia).
  assert (H2 : 0 <= 110 < 2 ^ 32) by lia.
  exact (gate_measures_elapsed_ticks portTICK_RATE_MS_ref
           (set_lastUpdateTime 4294967246 statics0)
           (world_ref FLIGHTSTATUS_ARMED_ARMED FLIGHTSTATUS_FLIGHTMODE_POSITIONHOLD
              gps_ref SYSTEMALARMS_ALARM_OK 60) 110 H1 H2 eq_refl).
Defined.

(** The [float] sum of the altitude 91 and the geoid separation
    12346982 * 2 ^ -18 is halfway between two [float] numbers and goes to the
    one above, 9050522 * 2 ^ -16 (the [float] nearest to 138.1). *)
Lemma altitude_sum_tie :
  (91 + 12346982 / 262144 < 9050522 / 65536)%R
  /\ round_f (91 + 12346982 / 262144) = (9050522 / 65536)%R.
Proof.
  split; [lra|]. unfold round_f.
  rewrite (round_tie 24 (-149) _ 8 (-16) 9050521).
  - change (Z.even 9050521) with false. cbv iota. change (9050521 + 1) with 9050522.
    change (powerRZ 2 (-16)) with (/ powerRZ 2 16)%R.
    rewrite pow2_IZR by lia. change (2 ^ 16) with 65536. lra.
  - rewrite !pow2_IZR by lia. rewrite Rabs_right by lra.
    change (2 ^ (8 - 1)) with 128. change (2 ^ 8) with 256. lra.
  - reflexivity.
  - change (- -16) with 16. rewrite pow2_IZR by lia. change (2 ^ 16) with 65536. lra.
Qed.

(** X11 on the reference inputs.  At the origin, altitude 0, holding the
    target altitude 0: the sink pitch.  At altitude 91 with the geoid
    separation 47.1 and the target altitude 138.1 (as [float] numbers), the
    exact sum is below the target and the [float] sum is the target: the
    sink pitch. *)
Lemma course_setpoint_witness :
  (let w := world_ref FLIGHTSTATUS_ARMED_ARMED FLIGHTSTATUS_FLIGHTMODE_POSITIONHOLD
              gps_origin SYSTEMALARMS_ALARM_OK 1100 in
   let sd := stabilizationDesiredObj (out_world (task_ref (statics_at 2 (Fin 0)) w)) in
   Roll sd = Fin 0 /\ Pitch sd = Fin (-10))
  /\ (let w := world_ref FLIGHTSTATUS_ARMED_ARMED FLIGHTSTATUS_FLIGHTMODE_POSITIONHOLD
                 gps_alt SYSTEMALARMS_ALARM_OK 1100 in
      let sd := stabilizationDesiredObj
                  (out_world (task_ref (statics_down 2 (Fin (9050522 / 65536))) w)) in
      (91 + 12346982 / 262144 < 9050522 / 65536)%R /\ Pitch sd = Fin (-10)).
Proof.
  split.
  - intros w sd.
    destruct (course_setpoint PARSE_FLIGHT_MODE_ref portTICK_RATE_MS_ref (statics_at 2 (Fin 0)) w
                eq_refl eq_refl eq_refl eq_refl) as (H1 & _ & _ & _ & _ & H6 & _).
    split; [exact H1|].
    destruct (H6 0%R 0%R 0%R eq_refl eq_refl eq_refl) as (_ & _ & Hs & _).
    apply Hs; [round_const|lra].
  - intros w sd. destruct altitude_sum_tie as [Hlt Hr].
    destruct (course_setpoint PARSE_FLIGHT_MODE_ref portTICK_RATE_MS_ref
                (statics_down 2 (Fin (9050522 / 65536))) w
                eq_refl eq_refl eq_refl eq_refl) as (_ & _ & _ & _ & _ & H6 & _).
    split; [exact Hlt|].
    destruct (H6 91%R (12346982 / 262144)%R (9050522 / 65536)%R eq_refl eq_refl eq_refl)
      as (_ & Hs & _).
    apply Hs. rewrite Hr. lra.
Defined.

(** X12 on the reference inputs: ReturnToBase with the home location at
    48.1 N, 11.1 E, 520 m and an offset of 50 m. *)
Lemma return_to_base_target_witness :
  let w := world_home FLIGHTSTATUS_ARMED_ARMED FLIGHTSTATUS_FLIGHTMODE_RETURNTOBASE
             gps_ref SYSTEMALARMS_ALARM_OK 1100 in
  desiredTarget (out_statics (task_ref statics_ref w))
  = (degrees 481000000, degrees 111000000, (Fin 520 + Fin 50)%cf).
Proof.
  intros w.
  destruct (return_to_base_target PARSE_FLIGHT_MODE_ref portTICK_RATE_MS_ref statics_ref w
              eq_refl eq_refl eq_refl eq_refl) as (_ & H & _).
  apply H. discriminate.
Defined.

(** X13 on the reference inputs: manual mode, manual-control alarm
    critical, no home location: the target is the present fix. *)
Lemma failsafe_target_witness :
  let w := world_ref FLIGHTSTATUS_ARMED_ARMED FLIGHTSTATUS_FLIGHTMODE_MANUAL
             gps_ref SYSTEMALARMS_ALARM_CRITICAL 1100 in
  desiredTarget (out_statics (task_ref statics_ref w)) = targetOfFix gps_ref
  /\ positionHoldLast (out_statics (task_ref statics_ref w)) = 1.
Proof.
  intros w.
  destruct (failsafe_target PARSE_FLIGHT_MODE_ref portTICK_RATE_MS_ref statics_ref w
              eq_refl eq_refl eq_refl eq_refl) as [_ H].
  exact (H eq_refl).
Defined.


(** X16 on the reference inputs: three calls 100 ticks apart in position
    hold with a 3D fix. *)
Lemma three_call_round_witness :
  let w1 := world_ref FLIGHTSTATUS_ARMED_ARMED FLIGHTSTATUS_FLIGHTMODE_POSITIONHOLD
              gps_ref SYSTEMALARMS_ALARM_OK 1100 in
  let w2 := world_ref FLIGHTSTATUS_ARMED_ARMED FLIGHTSTATUS_FLIGHTMODE_POSITIONHOLD
              gps_ref SYSTEMALARMS_ALARM_OK 1200 in
  let w3 := world_ref FLIGHTSTATUS_ARMED_ARMED FLIGHTSTATUS_FLIGHTMODE_POSITIONHOLD
              gps_ref SYSTEMALARMS_ALARM_OK 1300 in
  let o1 := task_ref statics_ref w1 in
  let o2 := task_ref (out_statics o1) w2 in
  let o3 := task_ref (out_statics o2) w3 in
  setpoints (out_events o1) = []
  /\ setpoints (out_events o2) = []
  /\ setpoints (out_events o3) = [stabilizationDesiredObj (out_world o3)]
  /\ alarmGuidance (out_world o3) = SYSTEMALARMS_ALARM_OK.
Proof.
  intros w1 w2 w3 o1 o2 o3.
  assert (H2 : processing_ref (out_statics o1) w2 = true)
    by (unfold o1; rewrite processing_after; reflexivity).
  assert (H3 : processing_ref (out_statics o2) w3 = true)
    by (unfold o2, o1; rewrite processing_after, control_sim; reflexivity).
  destruct (three_call_round PARSE_FLIGHT_MODE_ref portTICK_RATE_MS_ref statics_ref w1 w2 w3
              eq_refl eq_refl H2 H3) as (P1 & P2 & P3 & A3 & _).
  repeat split; assumption.
Defined.

(** X18 on the reference inputs: entering position hold without a fix
    captures the position (0, 0) of the GPS object. *)
Lemma hold_target_captured_without_fix_witness :
  let w1 := world_ref FLIGHTSTATUS_ARMED_ARMED FLIGHTSTATUS_FLIGHTMODE_POSITIONHOLD
              gps_nofix SYSTEMALARMS_ALARM_OK 1100 in
  desiredTarget (out_statics (task_ref statics_ref w1)) = targetOfFix gps_nofix.
Proof.
  intros w1.
  assert (Hp : positionHoldLast statics_ref <> 1) by discriminate.
  exact (proj1 (hold_target_captured_without_fix PARSE_FLIGHT_MODE_ref portTICK_RATE_MS_ref
                  statics_ref w1 w1 eq_refl eq_refl eq_refl Hp eq_refl)).
Defined.

End FurtherReference.
